(** * ChallengeConnection: a shallow embedding of challengeconnection.js

    The class [ChallengeConnection] owns a socket, a heartbeat watchdog
    and the pending request table.  JavaScript runs it on one thread: a
    macrotask (a socket [data] event, a timer firing, a call made by the
    application) runs to completion, followed by the promise reactions it
    queued.  The embedding follows that: every method is a computation
    in a state-and-exception monad over a [world], the object's fields
    together with the part of the Node.js runtime the class talks to
    (timer table, handle allocator, observable output), and a macrotask
    is one [step].

    Conventions.
    - The clock does not advance inside a macrotask: [step] sets it and
      every [Date.now()] of the macrotask reads that value.
    - A thrown value is a [jsval]; mutations made before a throw persist,
      as in JavaScript.  An exception that leaves a macrotask is uncaught
      (the application installs no handler) and ends the run.
    - Pending entries are the source's 4-element arrays
      [[id, type, callback, time]], written as a record.
    - The three closures stored in the table are named after the method
      that builds them ([CbLogin], [CbCount], [CbTime]) and carry the
      identity of the promise whose [resolve]/[reject] they capture.
    - [JSON.parse], [JSON.stringify] and the rendering of the table inside
      a template literal belong to the platform; they are parameters.  So
      is the conversion of a number to a string in the template literals
      of the application and of the test server, which print numbers
      received from outside.  The numbers the class itself prints are
      ports and readings of [Date.now()], whose decimal numeral
      [toString] gives.
    - The port of a connection is from 0 to 65535, the ports that
      [net.connect] takes.

    The console interface (challengeui.js), the command handlers of the
    application (socketclientchallenge.js) and the test server
    (testserver.js) are embedded next to the class: their methods are
    functions to the list of things they do, and the properties at the
    end of the file relate them to the class. *)

From Stdlib Require Import List String Ascii ZArith Lia Bool.
From Stdlib Require Import DecimalString DecimalPos DecimalZ Permutation.
Import ListNotations.
Local Open Scope string_scope.
Local Open Scope Z_scope.
Set Warnings "-register-all".

(** ** JavaScript values *)

Inductive jsval : Type :=
| JUndef
| JNull
| JBool (b : bool)
| JNum (n : Z)
| JStr (s : string)
| JArr (items : list jsval)
| JObj (fields : list (string * jsval))
| JError (name msg : string).

Inductive result (A : Type) : Type :=
| Ok (a : A)
| Throw (e : jsval).
Arguments Ok {A} a.
Arguments Throw {A} e.

Definition TypeError (msg : string) : jsval := JError "TypeError" msg.
Definition ReferenceError (msg : string) : jsval := JError "ReferenceError" msg.
Definition SyntaxError (msg : string) : jsval := JError "SyntaxError" msg.
Definition Error (msg : string) : jsval := JError "Error" msg.

Fixpoint assoc (k : string) (fs : list (string * jsval)) : jsval :=
  match fs with
  | [] => JUndef
  | (k', v) :: rest => if String.eqb k' k then v else assoc k rest
  end.

(** [v.k].  Reading a property of [undefined] or [null] throws; the
    names the class reads ([type], [msg], [count], [time], [random],
    [reply], [err]) exist on no primitive, array or error object. *)
Definition get_prop (v : jsval) (k : string) : result jsval :=
  match v with
  | JUndef => Throw (TypeError ("Cannot read property '" ++ k ++ "' of undefined"))
  | JNull => Throw (TypeError ("Cannot read property '" ++ k ++ "' of null"))
  | JObj fs => Ok (assoc k fs)
  | _ => Ok JUndef
  end.

(** [typeof v === 'undefined'] and [typeof v === 'string']. *)
Definition is_undefined (v : jsval) : bool :=
  match v with JUndef => true | _ => false end.

Definition is_string (v : jsval) : bool :=
  match v with JStr _ => true | _ => false end.

(** [v === null] and [v == null]. *)
Definition is_null (v : jsval) : bool :=
  match v with JNull => true | _ => false end.

Definition is_nullish (v : jsval) : bool :=
  match v with JUndef | JNull => true | _ => false end.

(** [v === s] for a string literal [s]. *)
Definition strict_eq_str (v : jsval) (s : string) : bool :=
  match v with JStr s' => String.eqb s' s | _ => false end.

(** [err instanceof SyntaxError]. *)
Definition is_SyntaxError (v : jsval) : bool :=
  match v with JError name _ => String.eqb name "SyntaxError" | _ => false end.

(** [Object.assign(o, {k: v})] for an existing object. *)
Fixpoint set_field (k : string) (v : jsval) (fs : list (string * jsval))
  : list (string * jsval) :=
  match fs with
  | [] => [(k, v)]
  | (k', v') :: rest =>
      if String.eqb k' k then (k', v) :: rest else (k', v') :: set_field k v rest
  end.

Definition assign (o : jsval) (k : string) (v : jsval) : jsval :=
  match o with
  | JObj fs => JObj (set_field k v fs)
  | _ => o
  end.

(** ** Strings *)

(** [Number.prototype.toString] on the integers the class prints
    (timestamps and ports): the decimal numeral. *)
Definition toString (n : Z) : string := NilZero.string_of_int (Z.to_int n).

(** The double quote, for JSON text. *)
Definition dq : string := String (ascii_of_nat 34) EmptyString.
Definition quoted (s : string) : string := dq ++ s ++ dq.

Definition newline : ascii := ascii_of_nat 10.

(** [s.split('\n')]: always at least one piece. *)
Fixpoint split_lines_aux (cur : string) (s : string) : list string :=
  match s with
  | EmptyString => [cur]
  | String c rest =>
      if Ascii.eqb c newline then cur :: split_lines_aux EmptyString rest
      else split_lines_aux (cur ++ String c EmptyString) rest
  end.

Definition split_lines (s : string) : list string :=
  split_lines_aux EmptyString s.

(** White space removed by [String.prototype.trim], among the code units
    below 256: TAB, LF, VT, FF, CR, SP and NBSP. *)
Definition is_trim_space (c : ascii) : bool :=
  let n := nat_of_ascii c in
  ((9 <=? n) && (n <=? 13) || (n =? 32) || (n =? 160))%nat.

(** [msg.trim().length > 0]. *)
Fixpoint trim_nonempty (s : string) : bool :=
  match s with
  | EmptyString => false
  | String c rest => negb (is_trim_space c) || trim_nonempty rest
  end.

(** [s.substr(0, n)]. *)
Definition substr0 (n : nat) (s : string) : string := substring 0 n s.

(** ** A reference [JSON.parse]

    Used to run the class on concrete chunks.  It accepts JSON whose
    numbers are integer literals and whose strings use the two-character
    escapes; [None] stands for the [SyntaxError] that [JSON.parse]
    throws.  The general results below hold for every parser. *)

Module RefJSON.

Definition is_json_space (c : ascii) : bool :=
  let n := nat_of_ascii c in
  ((n =? 32) || (n =? 9) || (n =? 10) || (n =? 13))%nat.

Fixpoint skip_ws (s : string) : string :=
  match s with
  | String c rest => if is_json_space c then skip_ws rest else s
  | EmptyString => s
  end.

Definition is_digit (c : ascii) : bool :=
  let n := nat_of_ascii c in ((48 <=? n) && (n <=? 57))%nat.

Definition digit_val (c : ascii) : Z := Z.of_nat (nat_of_ascii c) - 48.

Fixpoint digits (acc : Z) (s : string) : Z * string :=
  match s with
  | String c rest =>
      if is_digit c then digits (10 * acc + digit_val c) rest else (acc, s)
  | EmptyString => (acc, s)
  end.

Definition starts_fraction (s : string) : bool :=
  match s with
  | String c _ =>
      let n := nat_of_ascii c in ((n =? 46) || (n =? 69) || (n =? 101))%nat
  | EmptyString => false
  end.

(** An integer literal: no leading zero, no fraction, no exponent. *)
Definition number (s : string) : option (Z * string) :=
  match s with
  | String c rest =>
      if is_digit c then
        let '(n, s') := digits 0 s in
        if ((nat_of_ascii c =? 48)%nat && negb (String.eqb s' rest))
           || starts_fraction s'
        then None else Some (n, s')
      else None
  | EmptyString => None
  end.

Definition unescape (c : ascii) : option ascii :=
  let n := nat_of_ascii c in
  if (n =? 34)%nat then Some c
  else if (n =? 92)%nat then Some c
  else if (n =? 47)%nat then Some c
  else if (n =? 98)%nat then Some (ascii_of_nat 8)
  else if (n =? 102)%nat then Some (ascii_of_nat 12)
  else if (n =? 110)%nat then Some (ascii_of_nat 10)
  else if (n =? 114)%nat then Some (ascii_of_nat 13)
  else if (n =? 116)%nat then Some (ascii_of_nat 9)
  else None.

(** The characters after an opening quote, up to the closing one. *)
Fixpoint string_body (acc : string) (s : string) : option (string * string) :=
  match s with
  | EmptyString => None
  | String c rest =>
      let n := nat_of_ascii c in
      if (n =? 34)%nat then Some (acc, rest)
      else if (n <? 32)%nat then None
      else if (n =? 92)%nat then
        match rest with
        | String e rest' =>
            match unescape e with
            | Some u => string_body (acc ++ String u EmptyString) rest'
            | None => None
            end
        | EmptyString => None
        end
      else string_body (acc ++ String c EmptyString) rest
  end.

Definition literal (lit : string) (v : jsval) (s : string)
  : option (jsval * string) :=
  if String.eqb (substring 0 (String.length lit) s) lit
  then Some (v, substring (String.length lit) (String.length s) s)
  else None.

(** A later duplicate key overrides an earlier one, keeping its place. *)
Fixpoint value (fuel : nat) (s : string) : option (jsval * string) :=
  match fuel with
  | O => None
  | S fuel' =>
      match skip_ws s with
      | EmptyString => None
      | String c rest =>
          let n := nat_of_ascii c in
          if (n =? 123)%nat then
            match skip_ws rest with
            | String c' rest' =>
                if (nat_of_ascii c' =? 125)%nat then Some (JObj [], rest')
                else members fuel' [] (skip_ws rest)
            | EmptyString => None
            end
          else if (n =? 91)%nat then
            match skip_ws rest with
            | String c' rest' =>
                if (nat_of_ascii c' =? 93)%nat then Some (JArr [], rest')
                else elements fuel' [] rest
            | EmptyString => None
            end
          else if (n =? 34)%nat then
            match string_body EmptyString rest with
            | Some (str, s') => Some (JStr str, s')
            | None => None
            end
          else if (n =? 45)%nat then
            match number rest with
            | Some (z, s') => Some (JNum (- z), s')
            | None => None
            end
          else if is_digit c then
            match number (String c rest) with
            | Some (z, s') => Some (JNum z, s')
            | None => None
            end
          else if (n =? 116)%nat then literal "true" (JBool true) (String c rest)
          else if (n =? 102)%nat then literal "false" (JBool false) (String c rest)
          else if (n =? 110)%nat then literal "null" JNull (String c rest)
          else None
      end
  end
with members (fuel : nat) (acc : list (string * jsval)) (s : string)
  : option (jsval * string) :=
  match fuel with
  | O => None
  | S fuel' =>
      match s with
      | String q rest =>
          if (nat_of_ascii q =? 34)%nat then
            match string_body EmptyString rest with
            | Some (key, s1) =>
                match skip_ws s1 with
                | String colon s2 =>
                    if (nat_of_ascii colon =? 58)%nat then
                      match value fuel' s2 with
                      | Some (v, s3) =>
                          let acc' := set_field key v acc in
                          match skip_ws s3 with
                          | String d s4 =>
                              if (nat_of_ascii d =? 44)%nat
                              then members fuel' acc' (skip_ws s4)
                              else if (nat_of_ascii d =? 125)%nat
                              then Some (JObj acc', s4)
                              else None
                          | EmptyString => None
                          end
                      | None => None
                      end
                    else None
                | EmptyString => None
                end
            | None => None
            end
          else None
      | EmptyString => None
      end
  end
with elements (fuel : nat) (acc : list jsval) (s : string)
  : option (jsval * string) :=
  match fuel with
  | O => None
  | S fuel' =>
      match value fuel' s with
      | Some (v, s1) =>
          match skip_ws s1 with
          | String d s2 =>
              if (nat_of_ascii d =? 44)%nat
              then elements fuel' (acc ++ [v]) s2
              else if (nat_of_ascii d =? 93)%nat
              then Some (JArr (acc ++ [v]), s2)
              else None
          | EmptyString => None
          end
      | None => None
      end
  end.

Definition parse (s : string) : option jsval :=
  match value (S (String.length s)) s with
  | Some (v, rest) =>
      match skip_ws rest with
      | EmptyString => Some v
      | String _ _ => None
      end
  | None => None
  end.

(** [JSON.stringify] on values free of characters that need escaping:
    a field holding [undefined] is left out, an error object has no own
    enumerable property. *)
Fixpoint stringify (v : jsval) : string :=
  match v with
  | JUndef => "undefined"
  | JNull => "null"
  | JBool true => "true"
  | JBool false => "false"
  | JNum n => toString n
  | JStr s => quoted s
  | JArr items =>
      "[" ++ (fix go (first : bool) (l : list jsval) : string :=
                match l with
                | [] => ""
                | x :: rest =>
                    (if first then "" else ",")
                    ++ (if is_undefined x then "null" else stringify x)
                    ++ go false rest
                end) true items ++ "]"
  | JObj fields =>
      "{" ++ (fix go (first : bool) (l : list (string * jsval)) : string :=
                match l with
                | [] => ""
                | (k, x) :: rest =>
                    if is_undefined x then go first rest
                    else (if first then "" else ",")
                         ++ quoted k ++ ":" ++ stringify x ++ go false rest
                end) true fields ++ "}"
  | JError _ _ => "{}"
  end.

End RefJSON.

(** ** The object and the runtime *)

(** The closures kept in the pending request table.  [CbLogin p] is the
    arrow function built by [login()], [CbCount p] the one built by
    [getRequestCount()], [CbTime p] the one built by [getTime()]; [p]
    names the promise whose [resolve] and [reject] the closure holds. *)
Inductive callback : Type :=
| CbLogin (p : nat)
| CbCount (p : nat)
| CbTime (p : nat).

(** A row [[id, type, callback, time]] of [_pendingReq]. *)
Record entry : Type := mkEntry {
  reqId : string;
  reqType : string;
  reqCallback : callback;
  reqTime : Z }.

Inductive log_class : Type := LogGeneral | LogSent | LogReceived | LogError.

(** What the class does to the outside: log lines, socket operations,
    calls of a stored closure, calls of a promise's [resolve]/[reject]. *)
Inductive effect : Type :=
| Log (cls : log_class) (msg : jsval)
| Connect (sock : nat) (port : Z) (ip : string)
| Destroy (sock : nat)
| Write (sock : nat) (data : string)
| Invoke (cb : callback) (arg : jsval)
| Resolve (p : nat) (v : jsval)
| Reject (p : nat) (v : jsval).

(** The closure given to [setInterval] by [_chkServerLogin]: its local
    [retry], whether the promise it settles is already settled, and the
    reactions [_sendServerReq] attached to that promise (they need
    [req], [type] and [callback]). *)
Record poll : Type := mkPoll {
  pollRetry : Z;
  pollSettled : bool;
  pollReq : jsval;
  pollType : string;
  pollCallback : callback }.

Record world : Type := mkWorld {
  connPort : Z;
  connIp : string;
  loggedIn : bool;
  reset : bool;
  loginName : string;
  _socket : option nat;
  _heartbeatTimer : option nat;
  _pendingReq : list entry;
  (* runtime *)
  clock : Z;
  timeouts : list (nat * Z);
  intervals : list (nat * poll);
  next_handle : nat;
  output : list effect }.

Definition set_loggedIn (v : bool) (w : world) : world :=
  mkWorld (connPort w) (connIp w) v (reset w) (loginName w) (_socket w)
    (_heartbeatTimer w) (_pendingReq w) (clock w) (timeouts w) (intervals w)
    (next_handle w) (output w).

Definition set_reset (v : bool) (w : world) : world :=
  mkWorld (connPort w) (connIp w) (loggedIn w) v (loginName w) (_socket w)
    (_heartbeatTimer w) (_pendingReq w) (clock w) (timeouts w) (intervals w)
    (next_handle w) (output w).

Definition set_loginName (v : string) (w : world) : world :=
  mkWorld (connPort w) (connIp w) (loggedIn w) (reset w) v (_socket w)
    (_heartbeatTimer w) (_pendingReq w) (clock w) (timeouts w) (intervals w)
    (next_handle w) (output w).

Definition set_socket (v : option nat) (w : world) : world :=
  mkWorld (connPort w) (connIp w) (loggedIn w) (reset w) (loginName w) v
    (_heartbeatTimer w) (_pendingReq w) (clock w) (timeouts w) (intervals w)
    (next_handle w) (output w).

Definition set_heartbeatTimer (v : option nat) (w : world) : world :=
  mkWorld (connPort w) (connIp w) (loggedIn w) (reset w) (loginName w)
    (_socket w) v (_pendingReq w) (clock w) (timeouts w) (intervals w)
    (next_handle w) (output w).

Definition set_pendingReq (v : list entry) (w : world) : world :=
  mkWorld (connPort w) (connIp w) (loggedIn w) (reset w) (loginName w)
    (_socket w) (_heartbeatTimer w) v (clock w) (timeouts w) (intervals w)
    (next_handle w) (output w).

Definition set_clock (v : Z) (w : world) : world :=
  mkWorld (connPort w) (connIp w) (loggedIn w) (reset w) (loginName w)
    (_socket w) (_heartbeatTimer w) (_pendingReq w) v (timeouts w)
    (intervals w) (next_handle w) (output w).

Definition set_timeouts (v : list (nat * Z)) (w : world) : world :=
  mkWorld (connPort w) (connIp w) (loggedIn w) (reset w) (loginName w)
    (_socket w) (_heartbeatTimer w) (_pendingReq w) (clock w) v (intervals w)
    (next_handle w) (output w).

Definition set_intervals (v : list (nat * poll)) (w : world) : world :=
  mkWorld (connPort w) (connIp w) (loggedIn w) (reset w) (loginName w)
    (_socket w) (_heartbeatTimer w) (_pendingReq w) (clock w) (timeouts w) v
    (next_handle w) (output w).

Definition set_next_handle (v : nat) (w : world) : world :=
  mkWorld (connPort w) (connIp w) (loggedIn w) (reset w) (loginName w)
    (_socket w) (_heartbeatTimer w) (_pendingReq w) (clock w) (timeouts w)
    (intervals w) v (output w).

Definition set_output (v : list effect) (w : world) : world :=
  mkWorld (connPort w) (connIp w) (loggedIn w) (reset w) (loginName w)
    (_socket w) (_heartbeatTimer w) (_pendingReq w) (clock w) (timeouts w)
    (intervals w) (next_handle w) v.

(** [new ChallengeConnection(port, ip)] in a fresh process. *)
Definition constructor (port : Z) (ip : string) : world :=
  mkWorld port ip false false "" None None [] 0 [] [] 0%nat [].

(** ** The monad of a macrotask *)

Definition M (A : Type) : Type := world -> result A * world.

Definition ret {A : Type} (a : A) : M A := fun w => (Ok a, w).

Definition bind {A B : Type} (m : M A) (f : A -> M B) : M B :=
  fun w =>
    match m w with
    | (Ok a, w') => f a w'
    | (Throw e, w') => (Throw e, w')
    end.

Definition throw {A : Type} (e : jsval) : M A := fun w => (Throw e, w).

Definition try_catch {A : Type} (m : M A) (handler : jsval -> M A) : M A :=
  fun w =>
    match m w with
    | (Ok a, w') => (Ok a, w')
    | (Throw e, w') => handler e w'
    end.

Definition read {A : Type} (f : world -> A) : M A := fun w => (Ok (f w), w).

Definition update (f : world -> world) : M unit := fun w => (Ok tt, f w).

Definition lift {A : Type} (r : result A) : M A := fun w => (r, w).

Declare Scope js_scope.
Delimit Scope js_scope with js.
Notation "x <- c1 ;; c2" := (bind c1 (fun x => c2))
  (at level 61, c1 at next level, right associativity) : js_scope.
Notation "c1 ;; c2" := (bind c1 (fun _ => c2))
  (at level 61, right associativity) : js_scope.
Local Open Scope js_scope.

Definition emit (e : effect) : M unit :=
  update (fun w => set_output (output w ++ [e]) w).

(** The world a computation ends in, and what it returned or threw. *)
Definition exec {A : Type} (m : M A) (w : world) : world := snd (m w).
Definition outcome {A : Type} (m : M A) (w : world) : result A := fst (m w).

(** *** Runtime services *)

Definition Date_now : M Z := read clock.

Definition new_handle : M nat :=
  h <- read next_handle ;;
  update (set_next_handle (S h)) ;;
  ret h.

(** [setTimeout(this._resetConnection.bind(this), delay)]: the only
    callback the class ever gives to [setTimeout]. *)
Definition setTimeout_resetConnection (delay : Z) : M nat :=
  h <- new_handle ;;
  now <- Date_now ;;
  update (fun w => set_timeouts (timeouts w ++ [(h, now + delay)]) w) ;;
  ret h.

Definition clearTimeout (h : nat) : M unit :=
  update (fun w =>
    set_timeouts (filter (fun t => negb (Nat.eqb (fst t) h)) (timeouts w)) w).

Definition setInterval_poll (k : poll) : M nat :=
  h <- new_handle ;;
  update (fun w => set_intervals (intervals w ++ [(h, k)]) w) ;;
  ret h.

Definition clearInterval (h : nat) : M unit :=
  update (fun w =>
    set_intervals (filter (fun t => negb (Nat.eqb (fst t) h)) (intervals w)) w).

Fixpoint find_handle {A : Type} (h : nat) (l : list (nat * A)) : option A :=
  match l with
  | [] => None
  | (h', a) :: rest => if Nat.eqb h' h then Some a else find_handle h rest
  end.

(** *** The logger (challengelog.js); logging is always on *)

Definition logMsg (msg : string) : M unit := emit (Log LogGeneral (JStr msg)).
Definition logSent (msg : string) : M unit := emit (Log LogSent (JStr msg)).
Definition logReceived (msg : string) : M unit := emit (Log LogReceived (JStr msg)).
Definition logError (msg : jsval) : M unit := emit (Log LogError msg).

(** *** Variables of a closure *)

(** [--x] in a scope: a name that is bound nowhere is a
    [ReferenceError]. *)
Fixpoint lookup_var (x : string) (scope : list (string * Z)) : option Z :=
  match scope with
  | [] => None
  | (y, v) :: rest => if String.eqb y x then Some v else lookup_var x rest
  end.

Definition pre_decrement (x : string) (scope : list (string * Z)) : result Z :=
  match lookup_var x scope with
  | Some v => Ok (v - 1)
  | None => Throw (ReferenceError (x ++ " is not defined"))
  end.

(** *** [Array.prototype.forEach] and [splice] on [this._pendingReq]

    [forEach] fixes the number of iterations when it starts and, at
    index [k], visits whatever the array holds at [k] at that moment,
    skipping the index when the array has become too short.  No callback
    given to [forEach] assigns [this._pendingReq], so the array being
    walked is the one the field holds. *)
Fixpoint forEach_from (body : entry -> nat -> M unit) (n k : nat) : M unit :=
  match n with
  | O => ret tt
  | S n' =>
      tbl <- read _pendingReq ;;
      match nth_error tbl k with
      | Some x => body x k ;; forEach_from body n' (S k)
      | None => forEach_from body n' (S k)
      end
  end.

Definition forEach (body : entry -> nat -> M unit) : M unit :=
  tbl <- read _pendingReq ;;
  forEach_from body (List.length tbl) 0%nat.

Definition remove_at (k : nat) (l : list entry) : list entry :=
  firstn k l ++ skipn (S k) l.

(** [this._pendingReq.splice(ndx, 1)[0]], as used: the removed row, whose
    fields are read next. *)
Definition splice1 (ndx : nat) : M entry :=
  tbl <- read _pendingReq ;;
  update (set_pendingReq (remove_at ndx tbl)) ;;
  match nth_error tbl ndx with
  | Some e => ret e
  | None => throw (TypeError "Cannot read property of undefined")
  end.

Definition push (e : entry) : M unit :=
  update (fun w => set_pendingReq (_pendingReq w ++ [e]) w).

(** ** The class *)

(** Server message types which the app cares about, and the indices the
    constructor names. *)
Definition _msgType : list string :=
  ["welcome"; "heartbeat"; "msg"; "count"; "time"].
Definition _typLogin : nat := 0.
Definition _typHeartbeat : nat := 1.
Definition _typMsg : nat := 2.
Definition _typCount : nat := 3.
Definition _typTime : nat := 4.
Definition msgType (i : nat) : string := nth i _msgType "".

(** [_nextMsgId()]: ['challenge' + this.loginName + Date.now().toString()]. *)
Definition msgId_of (name : string) (now : Z) : string :=
  "challenge" ++ name ++ toString now.

Definition _nextMsgId : M string :=
  name <- read loginName ;;
  now <- Date_now ;;
  ret (msgId_of name now).

(** The condition under which [_getMsgId] keeps [msg.reply]. *)
Definition valid_reply (reply : jsval) : bool :=
  match reply with
  | JStr s => String.eqb (substr0 9 s) "challenge"
  | _ => false
  end.

Fixpoint find_index (id : string) (tbl : list entry) (i : nat) : option nat :=
  match tbl with
  | [] => None
  | e :: rest =>
      if String.eqb (reqId e) id then Some i else find_index id rest (S i)
  end.

(** [_getPendingReq(id)]: the callback of the first row whose id is [id],
    that row being spliced out; [null] when there is none. *)
Definition _getPendingReq (id : string) : M (option callback) :=
  tbl <- read _pendingReq ;;
  match find_index id tbl 0 with
  | Some i =>
      e <- splice1 i ;;
      ret (Some (reqCallback e))
  | None => ret None
  end.

Definition timeout_error (reqInfo : entry) : jsval :=
  JObj [("err", JStr ("Request timeout error - request type: "
                      ++ reqType reqInfo ++ ", request time: "
                      ++ toString (reqTime reqInfo)))].

Definition reset_error (req : entry) : jsval :=
  JObj [("err", JStr ("Server reset error - request type: "
                      ++ reqType req ++ ", request time: "
                      ++ toString (reqTime req)))].

Definition connection_info (w : world) : jsval :=
  JObj [("err", JNull);
        ("results", JObj [("ip", JStr (connIp w));
                          ("port", JNum (connPort w));
                          ("loggedIn", JBool (loggedIn w))])].

Definition socket_write (data : string) : M unit :=
  s <- read _socket ;;
  match s with
  | Some sock => emit (Write sock data)
  | None => throw (TypeError "Cannot read property 'write' of null")
  end.

(** The promise returned by [_chkServerLogin] when it returns. *)
Inductive promise_state : Type :=
| Fulfilled (v : jsval)
| Rejected (v : jsval)
| Pending (timer : nat).

Inductive event : Type :=
| CallLogin (now : Z)
| CallLogout (now : Z)
| CallGetRequestCount (now : Z)
| CallGetTime (now : Z)
| SocketData (now : Z) (buffer : string)
| TimeoutFires (timer : nat) (now : Z)
| IntervalFires (timer : nat) (now : Z).

(** ** The console user interface (challengeui.js)

    The class [ChallengeUI] reads lines through [readline] and prints
    through [console.log].  Its methods are embedded as functions to the
    list of things they do, in order; the two callbacks given to the
    constructor are things done as well, to be supplied by the
    application. *)

(** [String.prototype.trim], among the code units below 256. *)
Fixpoint trimStart (s : string) : string :=
  match s with
  | EmptyString => EmptyString
  | String c rest => if is_trim_space c then trimStart rest else s
  end.

Fixpoint trimEnd (s : string) : string :=
  match s with
  | EmptyString => EmptyString
  | String c rest =>
      match trimEnd rest with
      | EmptyString => if is_trim_space c then EmptyString else String c EmptyString
      | String _ _ as kept => String c kept
      end
  end.

Definition trim (s : string) : string := trimEnd (trimStart s).

(** [String.prototype.toLowerCase], among the code units below 256: the
    letters [A]-[Z] and the capital letters of Latin-1 (U+00C0 to U+00DE
    but the multiplication sign) are 32 below their small letters. *)
Definition toLowerCase_unit (c : ascii) : ascii :=
  let n := nat_of_ascii c in
  if ((65 <=? n) && (n <=? 90)
      || (192 <=? n) && (n <=? 222) && negb (n =? 215))%nat
  then ascii_of_nat (n + 32) else c.

Fixpoint toLowerCase (s : string) : string :=
  match s with
  | EmptyString => EmptyString
  | String c rest => String (toLowerCase_unit c) (toLowerCase rest)
  end.

(** Whether a code unit occurs in a string. *)
Fixpoint has_unit (c : ascii) (s : string) : bool :=
  match s with
  | EmptyString => false
  | String d rest => Ascii.eqb d c || has_unit c rest
  end.

Section Console.

(** [Number.prototype.toString] is left to the platform: it prints the
    numbers below 10^21 in size as decimal numerals and the others in
    exponent form. *)
Variable Number_toString : Z -> string.

(** Whether an object has an own property of that name. *)
Definition has_key (k : string) (fs : list (string * jsval)) : bool :=
  existsb (fun f => String.eqb (fst f) k) fs.

(** [ToString] of a value put in a template literal.  The values are
    those [JSON.parse] gives and the error objects: an own property of
    an object is never a function, so an object with an own [toString]
    has no method to convert it ([valueOf], own or inherited, gives no
    primitive either) and the conversion throws; every other object
    prints through [Object.prototype.toString], an array through
    [join], an error through [Error.prototype.toString]. *)
Fixpoint js_String (v : jsval) : result string :=
  match v with
  | JUndef => Ok "undefined"
  | JNull => Ok "null"
  | JBool true => Ok "true"
  | JBool false => Ok "false"
  | JNum n => Ok (Number_toString n)
  | JStr s => Ok s
  | JArr items =>
      (fix join (first : bool) (l : list jsval) : result string :=
         match l with
         | [] => Ok ""
         | x :: rest =>
             match (if is_nullish x then Ok "" else js_String x) with
             | Throw e => Throw e
             | Ok text =>
                 match join false rest with
                 | Throw e => Throw e
                 | Ok more => Ok ((if first then "" else ",") ++ text ++ more)
                 end
             end
         end) true items
  | JObj fs =>
      if has_key "toString" fs
      then Throw (TypeError "Cannot convert object to primitive value")
      else Ok "[object Object]"
  | JError name msg =>
      Ok (if String.eqb msg "" then name
          else if String.eqb name "" then msg
          else name ++ ": " ++ msg)
  end.

(** [Array.prototype.indexOf] on an array of strings, for a string: the
    first index that holds it, [-1] when none does. *)
Fixpoint indexOf_from (x : string) (l : list string) (i : Z) : Z :=
  match l with
  | [] => -1
  | y :: rest => if String.eqb y x then i else indexOf_from x rest (i + 1)
  end.

Definition indexOf (x : string) (l : list string) : Z := indexOf_from x l 0.

(** [String.prototype.replace] with a string as pattern: the first
    occurrence of the pattern is replaced, and in the replacement [$$]
    stands for a dollar sign, [$&] for the matched text, [$`] and [$']
    for the text before and after it; there being no capture, any other
    dollar sign stands for itself. *)
Fixpoint starts_with (pat s : string) : bool :=
  match pat, s with
  | EmptyString, _ => true
  | String a pat', String b s' => Ascii.eqb a b && starts_with pat' s'
  | String _ _, EmptyString => false
  end.

Fixpoint drop (n : nat) (s : string) : string :=
  match n, s with
  | O, _ => s
  | S n', String _ s' => drop n' s'
  | S _, EmptyString => EmptyString
  end.

(** The text before and the text after the first occurrence. *)
Fixpoint split_first (pat s : string) : option (string * string) :=
  if starts_with pat s then Some (EmptyString, drop (String.length pat) s)
  else
    match s with
    | EmptyString => None
    | String c rest =>
        match split_first pat rest with
        | Some (before, after) => Some (String c before, after)
        | None => None
        end
    end.

Fixpoint get_substitution (matched before after repl : string) : string :=
  match repl with
  | EmptyString => EmptyString
  | String c rest =>
      if Ascii.eqb c "$" then
        match rest with
        | EmptyString => "$"
        | String d rest' =>
            if Ascii.eqb d "$" then
              "$" ++ get_substitution matched before after rest'
            else if Ascii.eqb d "&" then
              matched ++ get_substitution matched before after rest'
            else if Ascii.eqb d "`" then
              before ++ get_substitution matched before after rest'
            else if Ascii.eqb d "'" then
              after ++ get_substitution matched before after rest'
            else String c (get_substitution matched before after rest)
        end
      else String c (get_substitution matched before after rest)
  end.

Definition replace (s pat repl : string) : string :=
  match split_first pat s with
  | None => s
  | Some (before, after) =>
      before ++ get_substitution pat before after repl ++ after
  end.

(** What the class does to the outside. *)
Inductive ui_effect : Type :=
| ConsoleLog (text : string)
| ConsoleLogValue (v : jsval)
| RlPrompt
| RlQuestion (query : string)
| RlClose
| CmdCallback (cmd : jsval)
| CloseCallBack.

Definition _CMDPROMPT : string := "Cmd?".

Definition _CMD : list string := ["count"; "time"; "quit"].
Definition CMD_COUNT : Z := 0.
Definition CMD_TIME : Z := 1.
Definition CMD_QUIT : Z := 2.

Definition _MSG : list string :=
  ["Node.js Socket I/O Coding Challenge Client";
   "Logged in to server at %0";
   "Could not log in to server at %0";
   "Command list: count, time, quit";
   "Command " ++ dq ++ "%0" ++ dq ++ " not recognized";
   "Error Processing Command " ++ dq ++ "%0" ++ dq;
   "Retry(y or n)?";
   "Coding Challenge Client closed"].
Definition MSG_APPHEADER : nat := 0.
Definition MSG_CONNECTIONINFO : nat := 1.
Definition MSG_CONNECTIONERROR : nat := 2.
Definition MSG_COMMANDS : nat := 3.
Definition MSG_INVALIDCMD : nat := 4.
Definition MSG_CMDERROR : nat := 5.
Definition MSG_RETRY : nat := 6.
Definition MSG_CLOSEAPP : nat := 7.

(** The second argument of [_formatMsg]: nothing, one replacer string,
    or an array of them. *)
Inductive replacers : Type :=
| NoReplacer
| OneReplacer (s : string)
| Replacers (l : list string).

(** The [for] loop of [_formatMsg], from index [i]. *)
Fixpoint _formatMsg_from (msg : string) (i : nat) (replStrings : list string)
  : string :=
  match replStrings with
  | [] => msg
  | r :: rest =>
      _formatMsg_from (replace msg ("%" ++ toString (Z.of_nat i)) r) (S i) rest
  end.

Definition _formatMsg (msg : string) (replStrings : replacers) : string :=
  match replStrings with
  | NoReplacer => msg
  | OneReplacer r => _formatMsg_from msg 0 [r]
  | Replacers l => _formatMsg_from msg 0 l
  end.

(** [showMsg(msgNdx, ...subs)]; an index outside [_MSG] gives
    [undefined], which [console.log] prints and [replace] cannot be
    called on. *)
Definition showMsg (msgNdx : nat) (subs : list string) : result (list ui_effect) :=
  match nth_error _MSG msgNdx, subs with
  | Some msg, _ => Ok [ConsoleLog (_formatMsg msg (Replacers subs))]
  | None, [] => Ok [ConsoleLogValue JUndef]
  | None, _ :: _ => Throw (TypeError "Cannot read property 'replace' of undefined")
  end.

Definition nextCmd : list ui_effect := [RlPrompt].

Definition _rlLineCallback (line : string) : result (list ui_effect) :=
  let cmdNdx := indexOf (trim line) _CMD in
  if negb (cmdNdx =? -1) then Ok [CmdCallback (JObj [("type", JNum cmdNdx)])]
  else
    match showMsg MSG_INVALIDCMD [trim line] with
    | Ok shown => Ok (shown ++ nextCmd)%list
    | Throw e => Throw e
    end.

Definition _rlCloseCallBack : list ui_effect := [CloseCallBack].

(** The value [showRetryMsg] resolves its promise with, for the reply to
    the question. *)
Definition retry_answer (reply : string) : bool :=
  String.eqb (toLowerCase (substr0 1 reply)) "y".

Definition showLoginError (err : jsval) (connInfo : string) : list ui_effect :=
  [ConsoleLog (_formatMsg (nth MSG_CONNECTIONERROR _MSG "") (OneReplacer connInfo));
   ConsoleLogValue err].

(** [showCmdError(err, cmdNdx)]: [this._CMD[cmdNdx]] is [undefined]
    outside the table. *)
Definition showCmdError (err : jsval) (cmdNdx : nat) : list ui_effect :=
  [ConsoleLog (_formatMsg (nth MSG_CMDERROR _MSG "")
                 (match nth_error _CMD cmdNdx with
                  | Some c => OneReplacer c
                  | None => NoReplacer
                  end));
   ConsoleLogValue err].

(** ** The application (socketclientchallenge.js) *)

(** What a command handler of the application starts. *)
Inductive app_effect : Type :=
| CmdGetRequestCount
| CmdGetTime
| CmdQuit
| UI (e : ui_effect).

(** [v === n] for a number [n]. *)
Definition strict_eq_num (v : jsval) (n : Z) : bool :=
  match v with JNum m => Z.eqb m n | _ => false end.

Definition handleCmd (cmd : jsval) : result (list app_effect) :=
  match get_prop cmd "type" with
  | Throw e => Throw e
  | Ok type =>
      if strict_eq_num type CMD_COUNT then Ok [CmdGetRequestCount]
      else if strict_eq_num type CMD_TIME then Ok [CmdGetTime]
      else if strict_eq_num type CMD_QUIT then Ok [CmdQuit]
      else
        match js_String type with
        | Throw e => Throw e
        | Ok text =>
            match showMsg MSG_INVALIDCMD [("cmdType=" ++ text)%string] with
            | Ok shown => Ok (map UI (shown ++ nextCmd))
            | Throw e => Throw e
            end
        end
  end.

Definition handleUIClose : list app_effect := [CmdQuit].

(** The interface as the application wires it:
    [new ChallengeUI(handleCmd, handleUIClose)].  A callback that throws
    ends the things done there. *)
Fixpoint wired (effects : list ui_effect) : result (list app_effect) :=
  match effects with
  | [] => Ok []
  | e :: rest =>
      match (match e with
             | CmdCallback cmd => handleCmd cmd
             | CloseCallBack => Ok handleUIClose
             | _ => Ok [UI e]
             end) with
      | Throw err => Throw err
      | Ok done =>
          match wired rest with
          | Ok more => Ok (done ++ more)%list
          | Throw err => Throw err
          end
      end
  end.

(** A line entered at the console, and the interface being closed. *)
Definition on_line (line : string) : result (list app_effect) :=
  match _rlLineCallback line with
  | Ok effects => wired effects
  | Throw e => Throw e
  end.

Definition on_close : result (list app_effect) := wired _rlCloseCallBack.

(** How a promise of the connection was settled, as the reactions the
    application attached to it see it: by the first call of its
    [resolve] or [reject]. *)
Inductive settled : Type :=
| SettledResolve (v : jsval)
| SettledReject (v : jsval).

Fixpoint settlement (p : nat) (out : list effect) : option settled :=
  match out with
  | [] => None
  | Resolve q v :: rest =>
      if Nat.eqb q p then Some (SettledResolve v) else settlement p rest
  | Reject q v :: rest =>
      if Nat.eqb q p then Some (SettledReject v) else settlement p rest
  | _ :: rest => settlement p rest
  end.

(** [p.then(f).catch(g)] once [p] is settled: [g] also gets what [f]
    throws. *)
Definition then_catch (f : jsval -> result (list app_effect))
    (g : jsval -> list app_effect) (s : settled) : list app_effect :=
  match s with
  | SettledResolve v =>
      match f v with
      | Ok done => done
      | Throw e => g e
      end
  | SettledReject v => g v
  end.

(** The reactions of the application's [login()] to [conn.login()]; the
    connection text of the [catch] is made of the fields of [conn]. *)
Definition login_then (response : jsval) : result (list app_effect) :=
  match get_prop response "err" with
  | Throw e => Throw e
  | Ok err =>
      match get_prop response "results" with
      | Throw e => Throw e
      | Ok results =>
          match get_prop results "ip", get_prop results "port" with
          | Ok ip, Ok port =>
              match js_String ip, js_String port with
              | Ok ip_text, Ok port_text =>
                  let connInfo := (ip_text ++ ":" ++ port_text)%string in
                  if is_nullish err then
                    match showMsg MSG_CONNECTIONINFO [connInfo],
                          showMsg MSG_COMMANDS [] with
                    | Ok a, Ok b => Ok (map UI (a ++ b ++ nextCmd))
                    | Throw e, _ => Throw e
                    | _, Throw e => Throw e
                    end
                  else
                    Ok (map UI (showLoginError err connInfo
                                ++ [RlQuestion (nth MSG_RETRY _MSG "")]))
              | Throw e, _ => Throw e
              | _, Throw e => Throw e
              end
          | Throw e, _ => Throw e
          | _, Throw e => Throw e
          end
      end
  end.

Definition login_catch (ip : string) (port : Z) (err : jsval) : list app_effect :=
  map UI (showLoginError err (ip ++ ":" ++ Number_toString port)).

(** The reactions of [cmdGetRequestCount()] and [cmdGetTime()]. *)
Definition cmdGetRequestCount_then (response : jsval) : result (list app_effect) :=
  match get_prop response "count" with
  | Throw e => Throw e
  | Ok count =>
      match js_String count with
      | Throw e => Throw e
      | Ok text => Ok (map UI (ConsoleLog ("Message Count: " ++ text) :: nextCmd))
      end
  end.

Definition cmdGetRequestCount_catch (err : jsval) : list app_effect :=
  map UI (showCmdError err (Z.to_nat CMD_COUNT) ++ nextCmd).

(** [response.number <= 30] is left to the platform: [le30] is that
    comparison as a function of its left operand.  It is evaluated once
    the number has been converted to a string, and a value that converts
    to a string converts to a number as well, so that the comparison
    does not throw. *)
Definition cmdGetTime_then (le30 : jsval -> bool) (response : jsval)
  : result (list app_effect) :=
  match get_prop response "time", get_prop response "number" with
  | Ok time, Ok number =>
      match js_String time, js_String number with
      | Ok time_text, Ok number_text =>
          Ok (map UI
                (ConsoleLog ("Server time: " ++ time_text ++ ", number: "
                             ++ number_text ++ " is "
                             ++ (if le30 number then "not " else "")
                             ++ "greater than 30")
                 :: nextCmd))
      | Throw e, _ => Throw e
      | _, Throw e => Throw e
      end
  | Throw e, _ => Throw e
  | _, Throw e => Throw e
  end.

Definition cmdGetTime_catch (err : jsval) : list app_effect :=
  map UI (showCmdError err (Z.to_nat CMD_TIME) ++ nextCmd).

End Console.

(** ** The test server (testserver.js)

    The server keeps three variables, [testSocket], [timer] and
    [hbcount], shared by all connections.  Its handlers are embedded
    with the state passed explicitly; the state also holds the intervals
    that are armed, the clock and what the server did. *)

Module TestServer.

Section Server.

Variable JSON_parse : string -> option jsval.
Variable JSON_stringify : jsval -> string.
Variable Number_toString : Z -> string.

(** What the server does to the outside; [SWrite sock obj] is
    [sock.write(JSON.stringify(obj))]. *)
Inductive server_effect : Type :=
| SConsole (text : string)
| SConsoleValue (v : jsval)
| SWrite (sock : nat) (obj : jsval)
| SDestroy (sock : nat).

Record server : Type := mkServer {
  testSocket : option nat;
  timer : option nat;
  hbcount : Z;
  s_intervals : list nat;
  s_next : nat;
  s_clock : Z;
  s_output : list server_effect }.

Definition server_start : server := mkServer None None 10 [] 0 0 [].

Definition s_emit (e : server_effect) (st : server) : server :=
  mkServer (testSocket st) (timer st) (hbcount st) (s_intervals st) (s_next st)
    (s_clock st) (s_output st ++ [e]).

Definition s_set_clock (now : Z) (st : server) : server :=
  mkServer (testSocket st) (timer st) (hbcount st) (s_intervals st) (s_next st)
    now (s_output st).

Definition s_set_hbcount (n : Z) (st : server) : server :=
  mkServer (testSocket st) (timer st) n (s_intervals st) (s_next st)
    (s_clock st) (s_output st).

(** [clearInterval(timer)], [timer] being the variable. *)
Definition s_clearInterval (h : option nat) (st : server) : server :=
  match h with
  | Some t =>
      mkServer (testSocket st) (timer st) (hbcount st)
        (filter (fun i => negb (Nat.eqb i t)) (s_intervals st)) (s_next st)
        (s_clock st) (s_output st)
  | None => st
  end.

(** The objects the server writes. *)
Definition heartbeat_record : jsval := JObj [("type", JStr "heartbeat")].

Definition count_record (id : jsval) : jsval :=
  JObj [("type", JStr "count"); ("count", JNum 23); ("id", id)].

Definition time_record (now : Z) (id : jsval) : jsval :=
  JObj [("type", JStr "time"); ("time", JNum now); ("number", JNum 52); ("id", id)].

(** [testSocket.write(JSON.stringify(obj))]. *)
Definition testSocket_write (obj : jsval) (st : server) : result unit * server :=
  match testSocket st with
  | Some sock => (Ok tt, s_emit (SWrite sock obj) st)
  | None => (Throw (TypeError "Cannot read property 'write' of null"), st)
  end.

(** The listener of [data] on the socket of a connection. *)
Definition server_data (socket : nat) (buffer : string) (st : server)
  : result unit * server :=
  match JSON_parse buffer with
  | None => (Throw (SyntaxError "Unexpected token in JSON"), st)
  | Some req =>
      let st1 := s_emit (SConsoleValue req) st in
      match get_prop req "name" with
      | Throw e => (Throw e, st1)
      | Ok name =>
          if negb (is_undefined name) then
            match js_String Number_toString name with
            | Throw e => (Throw e, st1)
            | Ok text =>
                let st2 := s_emit (SConsole (dq ++ text ++ dq ++ " logged in")) st1 in
                (Ok tt,
                 mkServer (Some socket) (Some (s_next st2)) 10
                   (s_intervals st2 ++ [s_next st2]) (S (s_next st2))
                   (s_clock st2) (s_output st2))
            end
          else
            match get_prop req "request", get_prop req "id" with
            | Ok request, Ok id =>
                if negb (is_undefined request) then
                  if strict_eq_str request "count" then
                    match testSocket_write (count_record id) st1 with
                    | (Ok _, st2) =>
                        match js_String Number_toString id with
                        | Throw e => (Throw e, st2)
                        | Ok text =>
                            (Ok tt,
                             s_emit (SConsole ("Count response sent with id: "
                                               ++ text)) st2)
                        end
                    | (Throw e, st2) => (Throw e, st2)
                    end
                  else if strict_eq_str request "time" then
                    match testSocket_write (time_record (s_clock st1) id) st1 with
                    | (Ok _, st2) =>
                        match js_String Number_toString id with
                        | Throw e => (Throw e, st2)
                        | Ok text =>
                            (Ok tt,
                             s_emit (SConsole ("Time response sent with id: "
                                               ++ text)) st2)
                        end
                    | (Throw e, st2) => (Throw e, st2)
                    end
                  else
                    match js_String Number_toString request with
                    | Throw e => (Throw e, st1)
                    | Ok text =>
                        (Ok tt,
                         s_emit (SConsole ("Unknown request type encountered: "
                                           ++ text)) st1)
                    end
                else
                  (Ok tt,
                   s_emit (SConsole (dq ++ JSON_stringify req ++ dq
                                     ++ " can't be processed yet")) st1)
            | Throw e, _ => (Throw e, st1)
            | _, Throw e => (Throw e, st1)
            end
      end
  end.

(** The listener of [error] on the socket of a connection. *)
Definition server_error (socket : nat) (err : jsval) (st : server)
  : result unit * server :=
  match js_String Number_toString err with
  | Throw e => (Throw e, st)
  | Ok text =>
      let st1 := s_emit (SConsole ("socket error encountered " ++ text)) st in
      let st2 := s_emit (SDestroy socket) st1 in
      (Ok tt, s_clearInterval (timer st2) st2)
  end.

(** One run of the arrow function given to [setInterval]. *)
Definition server_tick (st : server) : result unit * server :=
  let st1 := s_set_hbcount (hbcount st - 1) st in
  if hbcount st >? 0 then
    match testSocket_write heartbeat_record st1 with
    | (Ok _, st2) =>
        (Ok tt, s_emit (SConsole ("heartbeat sent at " ++ toString (s_clock st2))) st2)
    | (Throw e, st2) => (Throw e, st2)
    end
  else
    let st2 := s_emit (SConsole "heartbeat timer terminated") st1 in
    (Ok tt, s_clearInterval (timer st2) st2).

Inductive server_event : Type :=
| SData (socket : nat) (buffer : string) (now : Z)
| SError (socket : nat) (err : jsval) (now : Z)
| SInterval (h : nat) (now : Z).

(** A callback of an interval runs only while the interval is armed. *)
Definition server_step (ev : server_event) (st : server) : result unit * server :=
  match ev with
  | SData socket buffer now => server_data socket buffer (s_set_clock now st)
  | SError socket err now => server_error socket err (s_set_clock now st)
  | SInterval h now =>
      if existsb (Nat.eqb h) (s_intervals st) then server_tick (s_set_clock now st)
      else (Ok tt, s_set_clock now st)
  end.

Fixpoint server_run (evs : list server_event) (st : server) : result unit * server :=
  match evs with
  | [] => (Ok tt, st)
  | ev :: rest =>
      match server_step ev st with
      | (Ok _, st') => server_run rest st'
      | (Throw e, st') => (Throw e, st')
      end
  end.

(** The heartbeats written so far. *)
Definition heartbeats (out : list server_effect) : nat :=
  List.length
    (filter (fun e => match e with
                      | SWrite _ (JObj [("type", JStr t)]) => String.eqb t "heartbeat"
                      | _ => false
                      end) out).

(** What the server may write. *)
Definition written_ok (e : server_effect) : Prop :=
  match e with
  | SWrite _ obj =>
      obj = heartbeat_record \/ (exists id, obj = count_record id)
      \/ (exists now id, obj = time_record now id)
  | _ => True
  end.

(** The events that are runs of the callback of interval [h]. *)
Definition ticks (h : nat) (times : list Z) : list server_event :=
  map (SInterval h) times.

End Server.

End TestServer.

(** ** Sample sessions

    The chunks a server sends and the macrotasks of a few sessions of a
    freshly constructed connection; handles are allocated from 0, so the
    first [login()] gets promise 0, socket 1 and timeout 2. *)

Definition node : world := constructor 3001 "127.0.0.1".

(** The rendering of the table in a log line, for sample runs. *)
Definition show_rows (tbl : list entry) : string :=
  String.concat "," (map (fun e => reqId e ++ "," ++ reqType e ++ ",<closure>,"
                                   ++ toString (reqTime e)) tbl).

Definition record_text (type : string) : string :=
  "{" ++ quoted "type" ++ ":" ++ quoted type ++ "}".

Definition welcome_text : string := record_text "welcome".
Definition heartbeat_text : string := record_text "heartbeat".

(** [{"type":"msg"}]: a response record without a payload. *)
Definition msg_without_payload_text : string := record_text "msg".

(** [{"type":"msg","msg":{"count":23,"reply":K}}]. *)
Definition count_reply_text (K : string) : string :=
  "{" ++ quoted "type" ++ ":" ++ quoted "msg" ++ "," ++ quoted "msg" ++ ":{"
  ++ quoted "count" ++ ":23," ++ quoted "reply" ++ ":" ++ quoted K ++ "}}".

(** Login, acknowledgment, then a heartbeat every 1500 ms. *)
Definition session_quiet : list event :=
  [CallLogin 0; SocketData 10 welcome_text;
   SocketData 1500 heartbeat_text; SocketData 3000 heartbeat_text;
   SocketData 4500 heartbeat_text; SocketData 6000 heartbeat_text].

(** The same with a count request at 100 ms that is never answered. *)
Definition session_unanswered : list event :=
  [CallLogin 0; SocketData 10 welcome_text; CallGetRequestCount 100;
   SocketData 1500 heartbeat_text; SocketData 3000 heartbeat_text;
   SocketData 4500 heartbeat_text; SocketData 6000 heartbeat_text].

(** Two requests, at 6100 and 6200 ms, with the login row already swept
    out, neither answered; heartbeats go on to 12000 ms. *)
Definition session_two_unanswered : list event :=
  session_quiet ++
  [CallGetRequestCount 6100; CallGetTime 6200;
   SocketData 7500 heartbeat_text; SocketData 9000 heartbeat_text;
   SocketData 10500 heartbeat_text; SocketData 12000 heartbeat_text].

(** Logged in, nothing pending but the login row. *)
Definition session_logged_in : list event :=
  [CallLogin 0; SocketData 10 welcome_text].

(** Logged in, a count and a time request pending. *)
Definition session_two_pending : list event :=
  [CallLogin 0; SocketData 10 welcome_text;
   CallGetRequestCount 100; CallGetTime 200].

(** Two requests made within the same millisecond. *)
Definition session_same_tick : list event :=
  [CallLogin 0; SocketData 10 welcome_text;
   CallGetRequestCount 100; CallGetTime 100].

(** No acknowledgment and no heartbeat for 2 s: the timeout fires, and a
    request is made while the reset is under way. *)
Definition session_resetting : list event :=
  [CallLogin 0; TimeoutFires 2 2000; CallGetRequestCount 2100].

(** A response without payload arrives while a request is pending. *)
Definition session_msg_without_payload : list event :=
  [CallLogin 0; SocketData 10 welcome_text; CallGetRequestCount 100;
   SocketData 200 msg_without_payload_text].

(** The same two requests in the other order. *)
Definition session_same_tick_time_first : list event :=
  [CallLogin 0; SocketData 10 welcome_text;
   CallGetTime 100; CallGetRequestCount 100].

(** Logged in, logged out, logged in again. *)
Definition session_relogin : list event :=
  [CallLogin 0; SocketData 10 welcome_text; CallLogout 100; CallLogin 200].

(** A session with a lapse of the heartbeat. *)
Definition session_with_lapse : list event :=
  [SocketData 10 welcome_text; SocketData 1500 heartbeat_text;
   CallGetRequestCount 1600; TimeoutFires 3 3500;
   SocketData 3510 welcome_text; SocketData 5000 heartbeat_text].

(** ** Observations and assertions *)

(** The calls of stored closures in an output, oldest first. *)
Fixpoint invocations (out : list effect) : list (callback * jsval) :=
  match out with
  | [] => []
  | Invoke cb arg :: rest => (cb, arg) :: invocations rest
  | _ :: rest => invocations rest
  end.

Definition is_login_row (e : entry) : bool :=
  String.eqb (reqType e) (msgType _typLogin).

Definition expired (timestamp : Z) (e : entry) : bool :=
  timestamp - reqTime e >? 5000.

(** The rows a sweep at [timestamp] leaves in a table: a row older than
    the timeout goes, and the row that follows a row that went stays
    without being looked at. *)
Fixpoint survivors (timestamp : Z) (tbl : list entry) : list entry :=
  match tbl with
  | [] => []
  | e :: rest =>
      if expired timestamp e then
        match rest with
        | [] => []
        | next :: rest' => next :: survivors timestamp rest'
        end
      else e :: survivors timestamp rest
  end.

(** The discriminators [_handleServerMsg] has a [case] for. *)
Definition recognized_type (type : jsval) : bool :=
  strict_eq_str type (msgType _typLogin)
  || strict_eq_str type (msgType _typHeartbeat)
  || strict_eq_str type (msgType _typMsg).

(** At most one armed heartbeat timeout, and the object holds its
    handle. *)
Definition one_deadline (w : world) : Prop :=
  timeouts w = [] \/
  exists h d, timeouts w = [(h, d)] /\ _heartbeatTimer w = Some h.

Definition no_deadline (w : world) : Prop := timeouts w = [].

(** The object holds the handle of some heartbeat timeout. *)
Definition holds_handle (w : world) : Prop := _heartbeatTimer w <> None.

(** [closure_is p cb]: [cb] is the closure that [getRequestCount] or
    [getTime] built around promise [p]. *)
Definition closure_is (p : nat) (cb : callback) : bool :=
  match cb with
  | CbLogin _ => false
  | CbCount q | CbTime q => Nat.eqb q p
  end.

Definition b2n (b : bool) : nat := if b then 1%nat else 0%nat.

(** Where the closure of promise [p] is: in rows of the table, in polls
    not yet settled, among the calls made so far. *)
Definition pending_count (p : nat) (l : list entry) : nat :=
  List.length (filter (fun e => closure_is p (reqCallback e)) l).

Definition polling_count (p : nat) (l : list (nat * poll)) : nat :=
  List.length
    (filter (fun t => negb (pollSettled (snd t))
                      && closure_is p (pollCallback (snd t))) l).

Definition called_count (p : nat) (out : list effect) : nat :=
  List.length (filter (fun c => closure_is p (fst c)) (invocations out)).

Definition uses (p : nat) (w : world) : nat :=
  (pending_count p (_pendingReq w) + polling_count p (intervals w)
   + called_count p (output w))%nat.

(** The closure of a request is in one place at most, counting a call
    as a place for ever, and promises not yet made are nowhere. *)
Definition counted (w : world) : Prop :=
  (forall p, (uses p w <= 1)%nat) /\
  (forall p, (next_handle w <= p)%nat -> uses p w = 0%nat).

(** Nothing of the login type, row or poll, holds a request closure. *)
Definition typed (w : world) : Prop :=
  (forall e, In e (_pendingReq w) -> is_login_row e = true ->
             forall p, closure_is p (reqCallback e) = false) /\
  (forall t, In t (intervals w) ->
             String.eqb (pollType (snd t)) (msgType _typLogin) = true ->
             forall p, closure_is p (pollCallback (snd t)) = false).

(** A socket is held whenever the object is logged in or a row is
    pending. *)
Definition connected (w : world) : Prop :=
  (loggedIn w = true -> _socket w <> None) /\
  (_pendingReq w <> [] -> _socket w <> None).

Definition at_most_once (w : world) : Prop :=
  counted w /\ typed w /\ connected w.

Definition is_not_call (e : effect) : bool :=
  match e with Invoke _ _ => false | _ => true end.

(** Whoever is logged in is logged in as [coder1]. *)
Definition named_when_logged_in (w : world) : Prop :=
  loggedIn w = true -> loginName w = "coder1".

Definition is_login_call (ev : event) : bool :=
  match ev with CallLogin _ => true | _ => false end.

Fixpoint no_newline (s : string) : bool :=
  match s with
  | EmptyString => true
  | String c rest => negb (Ascii.eqb c newline) && no_newline rest
  end.

(** The fields that no stored closure writes. *)
Definition frame_of (w : world) :=
  (_pendingReq w, _socket w, _heartbeatTimer w, clock w, timeouts w,
   intervals w, next_handle w, connPort w, connIp w).

(** [hoare P m Q]: from a world in [P], [m] ends in a world in [Q],
    whether it returns or throws. *)
Definition hoare {A : Type} (P : world -> Prop) (m : M A) (Q : world -> Prop)
  : Prop :=
  forall w, P w -> Q (exec m w).

Section ChallengeConnection.

Variable JSON_parse : string -> option jsval.
Variable JSON_stringify : jsval -> string.
Variable show_table : list entry -> string.

(** Calling a stored closure.  [resolve] and [reject] only queue
    reactions, so nothing of the object changes under a [CbCount] or a
    [CbTime]; a [CbLogin] writes the login fields.  Every call of
    [resolve] or [reject] is recorded, also one made on a promise that is
    already settled (the closure of [login()] goes on to [resolve] after
    it [reject]s).  The class stores no [null] closure, so the branches
    that test a stored closure against [null] are not taken. *)
Definition call (cb : callback) (response : jsval) : M unit :=
  emit (Invoke cb response) ;;
  match cb with
  | CbLogin p =>
      (if negb (is_nullish response) then emit (Reject p response) else ret tt) ;;
      ip <- read connIp ;;
      port <- read connPort ;;
      logMsg ("Logged in to server at IP: " ++ ip ++ ", Port: " ++ toString port) ;;
      update (set_loginName "coder1") ;;
      update (set_loggedIn true) ;;
      update (set_reset false) ;;
      info <- read connection_info ;;
      emit (Resolve p info)
  | CbCount p =>
      err <- lift (get_prop response "err") ;;
      if is_undefined err || is_null err then
        logMsg ("Count response received: " ++ JSON_stringify response) ;;
        count <- lift (get_prop response "count") ;;
        emit (Resolve p (JObj [("count", count)]))
      else
        logError err ;;
        emit (Reject p (JObj [("err", err)]))
  | CbTime p =>
      err <- lift (get_prop response "err") ;;
      if is_undefined err || is_null err then
        logMsg ("Time response received: " ++ JSON_stringify response) ;;
        time <- lift (get_prop response "time") ;;
        random <- lift (get_prop response "random") ;;
        emit (Resolve p (JObj [("time", time); ("number", random)]))
      else
        logError err ;;
        emit (Reject p (JObj [("err", err)]))
  end.

Definition _sendLoginReq (user : string) (callback : callback) : M unit :=
  now <- Date_now ;;
  push (mkEntry "" (msgType _typLogin) callback now) ;;
  logMsg ("Pending login request info pushed - user: " ++ user
          ++ ", callback provided: true") ;;
  socket_write (JSON_stringify (JObj [("name", JStr user)])) ;;
  logSent (JSON_stringify (JObj [("name", JStr user)])).

(** [login()]; the result is the promise it returns.  The reaction that
    [_resetConnection] attaches to that promise only logs and is left
    out.  [net.connect] is the call for a port from 0 to 65535, as the
    application (9432) and the test server (3001) use: it returns the
    socket and connects later.  For a port outside that range
    [net.connect] throws inside the executor of the promise, which this
    definition does not describe; a statement about [login()] on an
    object with any port assumes the range. *)
Definition login : M nat :=
  p <- new_handle ;;
  port <- read connPort ;;
  ip <- read connIp ;;
  sock <- new_handle ;;
  emit (Connect sock port ip) ;;
  update (set_socket (Some sock)) ;;
  logMsg ("Connected to server at IP: " ++ ip ++ ", Port: " ++ toString port) ;;
  update (set_pendingReq []) ;;
  _sendLoginReq "coder1" (CbLogin p) ;;
  timer <- setTimeout_resetConnection 2000 ;;
  update (set_heartbeatTimer (Some timer)) ;;
  ret p.

Definition logout : M nat :=
  p <- new_handle ;;
  s <- read _socket ;;
  match s with
  | Some sock => emit (Destroy sock) ;; update (set_socket None)
  | None => ret tt
  end ;;
  update (set_loginName "") ;;
  update (set_loggedIn false) ;;
  update (set_pendingReq []) ;;
  info <- read connection_info ;;
  emit (Resolve p info) ;;
  ret p.

(** The [then] reaction of [_sendServerReq]. *)
Definition _sendServerReq_then (req : jsval) (type : string) (callback : callback)
  : M unit :=
  msgId <- _nextMsgId ;;
  now <- Date_now ;;
  push (mkEntry msgId type callback now) ;;
  logMsg ("Pending request info pushed - msgId: " ++ msgId ++ ", type: " ++ type
          ++ ", callback provided: true") ;;
  socket_write (JSON_stringify (assign req "id" (JStr msgId))) ;;
  logSent (JSON_stringify (assign req "id" (JStr msgId))).

(** [.then(...).catch(err => callback(err))] once the promise of
    [_chkServerLogin] is settled. *)
Definition _sendServerReq_react (req : jsval) (type : string) (callback : callback)
    (st : promise_state) : M unit :=
  match st with
  | Fulfilled _ =>
      try_catch (_sendServerReq_then req type callback) (fun err => call callback err)
  | Rejected err => call callback err
  | Pending _ => ret tt
  end.

(** [_chkServerLogin()], for the caller whose reactions are [k]. *)
Definition _chkServerLogin (k : poll) : M promise_state :=
  li <- read loggedIn ;;
  if li then ret (Fulfilled (JObj [("err", JNull)]))
  else
    rs <- read reset ;;
    if rs then
      timer <- setInterval_poll k ;;
      ret (Pending timer)
    else ret (Rejected (JObj [("err", JStr "Not logged into server!")])).

Definition settle_poll (timer : nat) (k : poll) (st : promise_state) : M unit :=
  if pollSettled k then ret tt
  else
    update (fun w =>
      set_intervals
        (map (fun t => if Nat.eqb (fst t) timer
                       then (fst t, mkPoll (pollRetry k) true (pollReq k)
                                      (pollType k) (pollCallback k))
                       else t) (intervals w)) w) ;;
    _sendServerReq_react (pollReq k) (pollType k) (pollCallback k) st.

(** One run of the arrow function given to [setInterval]: the names in
    its scope that hold numbers are [retry] alone. *)
Definition _chkServerLogin_tick (timer : nat) : M unit :=
  ivs <- read intervals ;;
  match find_handle timer ivs with
  | None => ret tt
  | Some k =>
      li <- read loggedIn ;;
      if li then settle_poll timer k (Fulfilled (JObj [("err", JNull)]))
      else
        i <- lift (pre_decrement "i" [("retry", pollRetry k)]) ;;
        if i <=? 0 then
          clearInterval timer ;;
          settle_poll timer k (Rejected (JObj [("err", JStr "Server reset error!")]))
        else ret tt
  end.

Definition _sendServerReq (req : jsval) (type : string) (callback : callback)
  : M unit :=
  st <- _chkServerLogin (mkPoll 5 false req type callback) ;;
  _sendServerReq_react req type callback st.

Definition getRequestCount : M nat :=
  p <- new_handle ;;
  _sendServerReq (JObj [("request", JStr "count")]) (msgType _typCount) (CbCount p) ;;
  ret p.

Definition getTime : M nat :=
  p <- new_handle ;;
  _sendServerReq (JObj [("request", JStr "time")]) (msgType _typTime) (CbTime p) ;;
  ret p.

(** The body of the [for] loop of [_parseRcvBuffer], with its
    [try]/[catch]. *)
Definition _parseRcvBuffer_step (buffer : string) (msgArray : list jsval)
    (msg : string) : M (list jsval) :=
  try_catch
    (if trim_nonempty msg then
       match JSON_parse msg with
       | Some v => ret (msgArray ++ [v])%list
       | None => throw (SyntaxError "Unexpected token in JSON")
       end
     else ret msgArray)
    (fun err =>
       if is_SyntaxError err then
         logError (JStr ("Invalid non-JSON message format: " ++ buffer)) ;;
         ret msgArray
       else throw err).

Fixpoint _parseRcvBuffer_loop (buffer : string) (tmpArray : list string)
    (msgArray : list jsval) : M (list jsval) :=
  match tmpArray with
  | [] => ret msgArray
  | msg :: rest =>
      msgArray' <- _parseRcvBuffer_step buffer msgArray msg ;;
      _parseRcvBuffer_loop buffer rest msgArray'
  end.

Definition _parseRcvBuffer (buffer : string) : M (list jsval) :=
  _parseRcvBuffer_loop buffer (split_lines buffer) [].

Definition _handleLoginMsg (msg : jsval) : M unit :=
  tbl <- read _pendingReq ;;
  match tbl with
  | [e] =>
      if negb (String.eqb (reqType e) (msgType _typLogin)) then
        logError (JStr ("Invalid pending request table on login: " ++ show_table tbl)) ;;
        throw (Error ("Invalid pending request table on login: " ++ show_table tbl))
      else call (reqCallback e) JNull
  | _ =>
      logError (JStr ("Invalid pending request table on login: " ++ show_table tbl)) ;;
      throw (Error ("Invalid pending request table on login: " ++ show_table tbl))
  end.

(** [_chkPendingReq(timestamp)], and the arrow function it gives to
    [forEach]. *)
Definition _chkPendingReq_visit (timestamp : Z) (req : entry) (ndx : nat) : M unit :=
  if timestamp - reqTime req >? 5000 then
    reqInfo <- splice1 ndx ;;
    call (reqCallback reqInfo) (timeout_error reqInfo)
  else ret tt.

Definition _chkPendingReq (timestamp : Z) : M unit :=
  forEach (_chkPendingReq_visit timestamp).

Definition _handleHeartbeat (pulse : Z) : M unit :=
  hb <- read _heartbeatTimer ;;
  match hb with
  | None => ret tt
  | Some old =>
      clearTimeout old ;;
      timer <- setTimeout_resetConnection 2000 ;;
      update (set_heartbeatTimer (Some timer)) ;;
      _chkPendingReq pulse
  end.

Definition _getMsgId (msg : jsval) : M (option string) :=
  reply <- lift (get_prop msg "reply") ;;
  match reply with
  | JStr s =>
      if valid_reply reply then ret (Some s)
      else
        logError (JStr ("Message received with invalid or no message id: "
                        ++ JSON_stringify msg)) ;;
        ret None
  | _ =>
      logError (JStr ("Message received with invalid or no message id: "
                      ++ JSON_stringify msg)) ;;
      ret None
  end.

(** [_handleCountMsg] and [_handleTimeMsg] differ in the word they log. *)
Definition _handleResponseMsg (kind Kind : string) (msg : jsval) : M unit :=
  id <- _getMsgId msg ;;
  match id with
  | None =>
      logError (JStr (Kind ++ " message received with invalid or no message id: "
                      ++ JSON_stringify msg))
  | Some msgId =>
      req <- _getPendingReq msgId ;;
      match req with
      | Some f =>
          logMsg ("Pending request found for " ++ kind ++ " response with msgId: "
                  ++ msgId) ;;
          call f msg
      | None =>
          logError (JStr ("No matching " ++ kind
                          ++ " request found for response with msgId: " ++ msgId))
      end
  end.

Definition _handleCountMsg (msg : jsval) : M unit :=
  _handleResponseMsg "count" "Count" msg.

Definition _handleTimeMsg (msg : jsval) : M unit :=
  _handleResponseMsg "time" "Time" msg.

(** The body of the [for] loop of [_handleServerMsg]. *)
Definition _handleServerMsg_step (msg : jsval) : M unit :=
  type <- lift (get_prop msg "type") ;;
  (if is_undefined type || negb (is_string type) then
     logError (JStr ("Message received with invalid or no message type: "
                     ++ JSON_stringify msg))
   else ret tt) ;;
  if strict_eq_str type (msgType _typLogin) then _handleLoginMsg msg
  else if strict_eq_str type (msgType _typHeartbeat) then
    now <- Date_now ;;
    _handleHeartbeat now
  else if strict_eq_str type (msgType _typMsg) then
    response <- lift (get_prop msg "msg") ;;
    count <- lift (get_prop response "count") ;;
    if negb (is_undefined count) then _handleCountMsg response
    else
      time <- lift (get_prop response "time") ;;
      if negb (is_undefined time) then _handleTimeMsg response
      else logError (JStr ("Unrecognized message encountered: " ++ JSON_stringify msg))
  else logError (JStr ("Unrecognized message encountered: " ++ JSON_stringify msg)).

Fixpoint _handleServerMsg_loop (msgArray : list jsval) : M unit :=
  match msgArray with
  | [] => ret tt
  | msg :: rest => _handleServerMsg_step msg ;; _handleServerMsg_loop rest
  end.

Definition _handleServerMsg (buffer : string) : M unit :=
  logReceived buffer ;;
  msgArray <- _parseRcvBuffer buffer ;;
  _handleServerMsg_loop msgArray.

(** [_resetConnection()], and the arrow function it gives to
    [forEach]. *)
Definition _resetConnection_notify (req : entry) (ndx : nat) : M unit :=
  if negb (String.eqb (reqType req) (msgType _typLogin)) then
    call (reqCallback req) (reset_error req)
  else ret tt.

Definition _resetConnection : M unit :=
  logMsg "Resetting Server Connection" ;;
  update (set_loggedIn false) ;;
  update (set_reset true) ;;
  forEach _resetConnection_notify ;;
  s <- read _socket ;;
  match s with
  | Some sock => emit (Destroy sock)
  | None => throw (TypeError "Cannot read property 'destroy' of null")
  end ;;
  update (set_socket None) ;;
  login ;;
  ret tt.

(** ** Macrotasks

    A timer callback runs only while its handle is outstanding, and a
    timeout leaves the table when it fires. *)
Definition handler (ev : event) : M unit :=
  match ev with
  | CallLogin _ => login ;; ret tt
  | CallLogout _ => logout ;; ret tt
  | CallGetRequestCount _ => getRequestCount ;; ret tt
  | CallGetTime _ => getTime ;; ret tt
  | SocketData _ buffer => _handleServerMsg buffer
  | TimeoutFires timer _ =>
      ts <- read timeouts ;;
      match find_handle timer ts with
      | Some _ => clearTimeout timer ;; _resetConnection
      | None => ret tt
      end
  | IntervalFires timer _ => _chkServerLogin_tick timer
  end.

Definition event_time (ev : event) : Z :=
  match ev with
  | CallLogin now | CallLogout now | CallGetRequestCount now | CallGetTime now
  | SocketData now _ | TimeoutFires _ now | IntervalFires _ now => now
  end.

Definition step (ev : event) : M unit :=
  update (set_clock (event_time ev)) ;;
  handler ev.

(** An exception that leaves a macrotask is uncaught: the process ends
    there, with the remaining events never delivered. *)
Fixpoint run (evs : list event) : M unit :=
  match evs with
  | [] => ret tt
  | ev :: rest => step ev ;; run rest
  end.

(** The world after the closures of the rows [l] were told of a reset,
    one after the other. *)
Definition notify_all (l : list entry) (w : world) : world :=
  fold_left (fun w req => exec (_resetConnection_notify req 0%nat) w) l w.

(** What the decoder keeps of one piece of a chunk. *)
Definition record_of (msg : string) : list jsval :=
  if trim_nonempty msg then
    match JSON_parse msg with
    | Some v => [v]
    | None => []
    end
  else [].

(** The diagnostics the decoder logs for a list of pieces. *)
Definition diagnostics_of (buffer : string) (msg : string) : list effect :=
  if trim_nonempty msg then
    match JSON_parse msg with
    | Some _ => []
    | None => [Log LogError (JStr ("Invalid non-JSON message format: " ++ buffer))]
    end
  else [].

(** * Properties *)

(** ** Running a computation *)

Lemma bind_ok {A B : Type} (m : M A) (f : A -> M B) (w w' : world) (a : A) :
  m w = (Ok a, w') -> bind m f w = f a w'.
Proof. unfold bind; intros ->; reflexivity. Qed.

Lemma invocations_app (a b : list effect) :
  invocations (a ++ b) = (invocations a ++ invocations b)%list.
Proof.
  induction a as [|e a IH]; [reflexivity|].
  destruct e; cbn; rewrite ?IH; reflexivity.
Qed.

(** ** Rules for [hoare] *)

Lemma hoare_ret {A : Type} (P : world -> Prop) (a : A) : hoare P (ret a) P.
Proof. intros w H; exact H. Qed.

Lemma hoare_throw {A : Type} (P : world -> Prop) (e : jsval) :
  hoare P (@throw A e) P.
Proof. intros w H; exact H. Qed.

Lemma hoare_lift {A : Type} (P : world -> Prop) (r : result A) :
  hoare P (lift r) P.
Proof. intros w H; exact H. Qed.

Lemma hoare_read {A : Type} (P : world -> Prop) (f : world -> A) :
  hoare P (read f) P.
Proof. intros w H; exact H. Qed.

Lemma hoare_update (P Q : world -> Prop) (f : world -> world) :
  (forall w, P w -> Q (f w)) -> hoare P (update f) Q.
Proof. intros H w Hw; apply H, Hw. Qed.

Lemma hoare_bind {A B : Type} (P Q R : world -> Prop) (m : M A) (f : A -> M B) :
  hoare P m Q -> (forall w, Q w -> R w) -> (forall a, hoare Q (f a) R) ->
  hoare P (bind m f) R.
Proof.
  intros Hm HQR Hf w Hw. specialize (Hm w Hw).
  unfold exec, bind in *. destruct (m w) as [[a|e] w1]; cbn in *.
  - apply (Hf a w1 Hm).
  - apply HQR, Hm.
Qed.

Lemma hoare_seq {A B : Type} (I : world -> Prop) (m : M A) (f : A -> M B) :
  hoare I m I -> (forall a, hoare I (f a) I) -> hoare I (bind m f) I.
Proof. intros Hm Hf; apply hoare_bind with (Q := I); auto. Qed.

Lemma hoare_try_catch {A : Type} (I : world -> Prop) (m : M A)
    (handler : jsval -> M A) :
  hoare I m I -> (forall e, hoare I (handler e) I) -> hoare I (try_catch m handler) I.
Proof.
  intros Hm Hh w Hw. specialize (Hm w Hw).
  unfold exec, try_catch in *. destruct (m w) as [[a|e] w1]; cbn in *.
  - exact Hm.
  - apply (Hh e w1 Hm).
Qed.

(** The body of a [forEach] may rely on being handed the row that sits
    at its index. *)
Lemma hoare_forEach_from (I : world -> Prop) (body : entry -> nat -> M unit) :
  (forall x k,
      hoare (fun w => I w /\ nth_error (_pendingReq w) k = Some x) (body x k) I) ->
  forall n k, hoare I (forEach_from body n k) I.
Proof.
  intros Hbody n. induction n as [|n IH]; intros k w Hw; [exact Hw|].
  unfold exec; cbn [forEach_from]. unfold bind at 1, read at 1.
  destruct (nth_error (_pendingReq w) k) as [x|] eqn:Hx.
  - pose proof (Hbody x k w (conj Hw Hx)) as Hb.
    unfold exec, bind in *. destruct (body x k w) as [[a|e] w1]; cbn in *.
    + apply IH, Hb.
    + exact Hb.
  - apply IH, Hw.
Qed.

Lemma hoare_forEach (I : world -> Prop) (body : entry -> nat -> M unit) :
  (forall x k,
      hoare (fun w => I w /\ nth_error (_pendingReq w) k = Some x) (body x k) I) ->
  hoare I (forEach body) I.
Proof.
  intros Hbody w Hw. unfold exec, forEach, bind, read.
  apply (hoare_forEach_from I body Hbody), Hw.
Qed.

Lemma hoare_pre_and {A : Type} (I P Q : world -> Prop) (m : M A) :
  hoare I m Q -> hoare (fun w => I w /\ P w) m Q.
Proof. intros H w [Hw _]; apply H, Hw. Qed.

Create HintDb js.
Create HintDb hoare.

#[local] Hint Unfold emit logMsg logSent logReceived logError new_handle
  Date_now setInterval_poll clearInterval push splice1 socket_write
  _nextMsgId _getPendingReq _sendLoginReq _sendServerReq_then
  _sendServerReq_react _chkServerLogin settle_poll _chkServerLogin_tick
  _sendServerReq getRequestCount getTime _parseRcvBuffer_step _handleLoginMsg
  _chkPendingReq _chkPendingReq_visit _resetConnection_notify _getMsgId
  _handleResponseMsg _handleCountMsg _handleTimeMsg : js.

(** Steps through a computation whose every write leaves the assertion
    convertible to itself. *)
Ltac hoare_step :=
  match goal with
  | |- hoare _ (ret _) _ => apply hoare_ret
  | |- hoare _ (throw _) _ => apply hoare_throw
  | |- hoare _ (lift _) _ => apply hoare_lift
  | |- hoare _ (read _) _ => apply hoare_read
  | |- hoare _ (update _) _ =>
      apply hoare_update; intros ? ?;
      first [ assumption
            | cbn; rewrite invocations_app; cbn; rewrite app_nil_r; assumption
            | solve [ unfold named_when_logged_in in *; cbn in *;
                      intuition congruence ]
            | solve [ unfold holds_handle; cbn; discriminate ] ]
  | |- hoare _ (bind _ _) _ => apply hoare_seq; [ | intros ? ]
  | |- hoare _ (try_catch _ _) _ => apply hoare_try_catch; [ | intros ? ]
  | |- hoare _ (forEach _) _ =>
      apply hoare_forEach; intros ? ?; apply hoare_pre_and
  | |- hoare _ (match ?x with _ => _ end) _ => destruct x
  end.

Ltac hoare_auto :=
  repeat first
    [ solve [eauto with hoare]
    | hoare_step
    | progress autounfold with js
    | progress unfold call, logout ].

(** ** What the decoder does to the world *)

Lemma set_output_same (w : world) : set_output (output w) w = w.
Proof. destruct w; reflexivity. Qed.

Lemma _parseRcvBuffer_step_eq (buffer : string) (msgArray : list jsval)
    (msg : string) (w : world) :
  _parseRcvBuffer_step buffer msgArray msg w
  = (Ok (msgArray ++ record_of msg)%list,
     set_output (output w ++ diagnostics_of buffer msg) w).
Proof.
  unfold _parseRcvBuffer_step, record_of, diagnostics_of, try_catch.
  destruct (trim_nonempty msg); [destruct (JSON_parse msg)|]; cbn;
    rewrite ?app_nil_r, ?set_output_same; reflexivity.
Qed.

Lemma _parseRcvBuffer_loop_eq (buffer : string) (tmpArray : list string) :
  forall msgArray w,
    _parseRcvBuffer_loop buffer tmpArray msgArray w
    = (Ok (msgArray ++ flat_map record_of tmpArray)%list,
       set_output (output w ++ flat_map (diagnostics_of buffer) tmpArray) w).
Proof.
  induction tmpArray as [|msg rest IH]; intros msgArray w; cbn [_parseRcvBuffer_loop flat_map].
  - rewrite !app_nil_r, set_output_same. reflexivity.
  - rewrite (bind_ok _ _ _ _ _ (_parseRcvBuffer_step_eq buffer msgArray msg w)).
    rewrite IH. cbn [output set_output]. rewrite <- !app_assoc. reflexivity.
Qed.

(** ** Assertions kept by chunks and runs *)

Lemma diagnostics_are_logs (buffer : string) (l : list string) :
  forallb is_not_call (flat_map (diagnostics_of buffer) l) = true.
Proof.
  induction l as [|msg rest IH]; [reflexivity|].
  cbn [flat_map]. rewrite forallb_app, IH, andb_true_r.
  unfold diagnostics_of.
  destruct (trim_nonempty msg); [destruct (JSON_parse msg)|]; reflexivity.
Qed.

Lemma _handleServerMsg_hoare (I : world -> Prop) :
  (forall w logs, forallb is_not_call logs = true ->
                  I w -> I (set_output (output w ++ logs) w)) ->
  (forall msg, hoare I (_handleServerMsg_step msg) I) ->
  forall buffer, hoare I (_handleServerMsg buffer) I.
Proof.
  intros Hout Hstep buffer.
  assert (Hl : forall msgArray, hoare I (_handleServerMsg_loop msgArray) I).
  { induction msgArray as [|msg rest IH]; cbn [_handleServerMsg_loop].
    - apply hoare_ret.
    - apply hoare_seq; [apply Hstep | intros ?; apply IH]. }
  intros w Hw. unfold exec, _handleServerMsg, _parseRcvBuffer.
  erewrite bind_ok by reflexivity.
  rewrite (bind_ok _ _ _ _ _ (_parseRcvBuffer_loop_eq buffer (split_lines buffer) [] _)).
  apply Hl. apply Hout; [apply diagnostics_are_logs|].
  apply Hout; [reflexivity | exact Hw].
Qed.

Lemma run_hoare (I : world -> Prop) (evs : list event) :
  (forall ev, In ev evs -> hoare I (step ev) I) ->
  hoare I (run evs) I.
Proof.
  induction evs as [|ev rest IH]; cbn [run]; intros Hstep.
  - apply hoare_ret.
  - apply hoare_seq; [apply Hstep; left; reflexivity|].
    intros _. apply IH. intros ev' Hin. apply Hstep. right. exact Hin.
Qed.

Lemma call_one_deadline (cb : callback) (v : jsval) :
  hoare one_deadline (call cb v) one_deadline.
Proof. hoare_auto. Qed.

Lemma hoare_bind_ok {A B : Type} (P R : world -> Prop) (Q : A -> world -> Prop)
    (m : M A) (f : A -> M B) :
  (forall w, P w -> exists a w', m w = (Ok a, w') /\ Q a w') ->
  (forall a, hoare (Q a) (f a) R) ->
  hoare P (bind m f) R.
Proof.
  intros Hm Hf w Hw. destruct (Hm w Hw) as (a & w' & E & HQ).
  unfold exec. rewrite (bind_ok _ _ _ _ _ E). apply (Hf a w' HQ).
Qed.

Lemma _chkPendingReq_one_deadline (timestamp : Z) :
  hoare one_deadline (_chkPendingReq timestamp) one_deadline.
Proof. hoare_auto. Qed.

Lemma filter_other_single (h : nat) (d : Z) :
  filter (fun t : nat * Z => negb (Nat.eqb (fst t) h)) [(h, d)] = [].
Proof. cbn. rewrite Nat.eqb_refl. reflexivity. Qed.

Lemma _handleHeartbeat_one_deadline (pulse : Z) :
  hoare one_deadline (_handleHeartbeat pulse) one_deadline.
Proof.
  intros w Hw. unfold exec, _handleHeartbeat.
  rewrite (bind_ok _ _ w w (_heartbeatTimer w)) by reflexivity.
  destruct (_heartbeatTimer w) as [old|] eqn:Hhb; [|exact Hw].
  erewrite bind_ok by reflexivity.
  erewrite bind_ok by reflexivity.
  erewrite bind_ok by reflexivity.
  apply _chkPendingReq_one_deadline.
  right. cbn. destruct Hw as [E | (h & d & E & Hh)].
  - rewrite E. cbn. eauto.
  - assert (h = old) by congruence. subst h.
    rewrite E, filter_other_single. cbn. eauto.
Qed.

#[local] Hint Extern 1 (hoare one_deadline (_handleHeartbeat _) _) =>
  apply _handleHeartbeat_one_deadline : hoare.
#[local] Hint Extern 1 (hoare one_deadline (_chkPendingReq _) _) =>
  apply _chkPendingReq_one_deadline : hoare.

(** [login()] never throws; this is the world it leaves. *)
Lemma login_eq (w : world) :
  login w =
  (Ok (next_handle w),
   mkWorld (connPort w) (connIp w) (loggedIn w) (reset w) (loginName w)
     (Some (S (next_handle w)))
     (Some (S (S (next_handle w))))
     [mkEntry "" "welcome" (CbLogin (next_handle w)) (clock w)]
     (clock w)
     (timeouts w ++ [(S (S (next_handle w)), clock w + 2000)])
     (intervals w)
     (S (S (S (next_handle w))))
     (output w ++
      [Connect (S (next_handle w)) (connPort w) (connIp w);
       Log LogGeneral (JStr ("Connected to server at IP: " ++ connIp w
                             ++ ", Port: " ++ toString (connPort w)));
       Log LogGeneral (JStr "Pending login request info pushed - user: coder1, callback provided: true");
       Write (S (next_handle w)) (JSON_stringify (JObj [("name", JStr "coder1")]));
       Log LogSent (JStr (JSON_stringify (JObj [("name", JStr "coder1")])))])).
Proof.
  unfold login, _sendLoginReq, setTimeout_resetConnection, socket_write, push,
    new_handle, Date_now, logMsg, logSent, emit, bind, read, update, ret.
  cbn. repeat rewrite <- app_assoc. reflexivity.
Qed.

Lemma login_arms : hoare no_deadline login one_deadline.
Proof.
  intros w Hw. unfold exec. rewrite login_eq. cbn.
  right. red in Hw. rewrite Hw. cbn. eauto.
Qed.

Lemma no_deadline_one_deadline (w : world) : no_deadline w -> one_deadline w.
Proof. intros H; left; exact H. Qed.

Lemma _resetConnection_arms : hoare no_deadline _resetConnection one_deadline.
Proof.
  unfold _resetConnection.
  repeat (apply hoare_bind with (Q := no_deadline);
          [ solve [hoare_auto] | apply no_deadline_one_deadline | intros ? ]).
  apply hoare_bind with (Q := one_deadline);
    [ apply login_arms | auto | intros ?; apply hoare_ret ].
Qed.

Lemma _handleServerMsg_step_one_deadline (msg : jsval) :
  hoare one_deadline (_handleServerMsg_step msg) one_deadline.
Proof. unfold _handleServerMsg_step. hoare_auto. Qed.

Lemma _handleServerMsg_one_deadline (buffer : string) :
  hoare one_deadline (_handleServerMsg buffer) one_deadline.
Proof.
  apply _handleServerMsg_hoare.
  - intros w logs _ H. exact H.
  - apply _handleServerMsg_step_one_deadline.
Qed.

Lemma find_handle_single {A : Type} (timer h : nat) (d a : A) :
  find_handle timer [(h, d)] = Some a -> h = timer.
Proof.
  cbn. destruct (Nat.eqb h timer) eqn:E; [|discriminate].
  intros _. apply Nat.eqb_eq, E.
Qed.

Lemma handler_one_deadline (ev : event) :
  is_login_call ev = false -> hoare one_deadline (handler ev) one_deadline.
Proof.
  destruct ev; cbn [is_login_call handler]; intros Hev; try discriminate.
  - hoare_auto.
  - hoare_auto.
  - hoare_auto.
  - apply _handleServerMsg_one_deadline.
  - intros w Hw. unfold exec.
    rewrite (bind_ok _ _ w w (timeouts w)) by reflexivity.
    destruct (find_handle timer (timeouts w)) as [d|] eqn:Hf; [|exact Hw].
    erewrite bind_ok by reflexivity.
    apply _resetConnection_arms. red. cbn.
    destruct Hw as [E | (h & d' & E & _)].
    + rewrite E. reflexivity.
    + rewrite E in Hf |- *. apply find_handle_single in Hf. subst h.
      apply filter_other_single.
  - hoare_auto.
Qed.

Lemma step_one_deadline (ev : event) :
  is_login_call ev = false -> hoare one_deadline (step ev) one_deadline.
Proof.
  intros Hev. unfold step.
  apply hoare_seq; [hoare_auto | intros _; apply handler_one_deadline, Hev].
Qed.

Lemma run_one_deadline (evs : list event) :
  existsb is_login_call evs = false ->
  hoare one_deadline (run evs) one_deadline.
Proof.
  intros Hevs. apply run_hoare. intros ev Hin.
  apply step_one_deadline.
  destruct (is_login_call ev) eqn:E; [|reflexivity].
  rewrite <- Hevs. symmetry. apply existsb_exists. eauto.
Qed.

(** ** Stored closures *)

Lemma run_pair {A : Type} (m : M A) (w : world) : m w = (outcome m w, exec m w).
Proof. unfold outcome, exec. destruct (m w); reflexivity. Qed.

Lemma call_frame (cb : callback) (v : jsval) (X : _) :
  hoare (fun w => frame_of w = X) (call cb v) (fun w => frame_of w = X).
Proof. hoare_auto. Qed.

Lemma call_invocations (cb : callback) (v : jsval) (w : world) :
  invocations (output (exec (call cb v) w))
  = (invocations (output w) ++ [(cb, v)])%list.
Proof.
  unfold exec, call.
  rewrite (bind_ok _ _ w (set_output (output w ++ [Invoke cb v])%list w) tt)
    by reflexivity.
  match goal with
  | |- invocations (output (snd (?m ?w0))) = ?L =>
      assert (H : hoare (fun w => invocations (output w) = L) m
                        (fun w => invocations (output w) = L))
        by (destruct cb; hoare_auto);
      apply H
  end.
  cbn. rewrite invocations_app. reflexivity.
Qed.

(** A closure handed an object whose [err] is a string returns. *)
Lemma call_error_ok (cb : callback) (s : string) (w : world) :
  outcome (call cb (JObj [("err", JStr s)])) w = Ok tt.
Proof. destruct cb; reflexivity. Qed.

(** ** [forEach] over a table that its body leaves alone *)

Lemma nth_error_skipn_cons {A : Type} (l : list A) :
  forall k x, nth_error l k = Some x -> skipn k l = x :: skipn (S k) l.
Proof.
  induction l as [|y l IH]; intros [|k] x H; try discriminate.
  - injection H as ->. reflexivity.
  - cbn in H. apply (IH k x H).
Qed.

Lemma nth_error_skipn_nil {A : Type} (l : list A) :
  forall k, nth_error l k = None -> skipn k l = [].
Proof.
  induction l as [|y l IH]; intros [|k] H; try reflexivity; try discriminate.
  cbn in H. apply (IH k H).
Qed.

Lemma _resetConnection_notify_run (req : entry) (ndx : nat) (w : world) :
  _resetConnection_notify req ndx w
  = (Ok tt, exec (_resetConnection_notify req 0%nat) w).
Proof.
  rewrite (run_pair (_resetConnection_notify req ndx) w). f_equal.
  unfold outcome, _resetConnection_notify.
  destruct (negb (reqType req =? msgType _typLogin)%string); [|reflexivity].
  apply call_error_ok.
Qed.

Lemma _resetConnection_notify_frame (req : entry) (w : world) :
  frame_of (exec (_resetConnection_notify req 0%nat) w) = frame_of w.
Proof.
  unfold _resetConnection_notify.
  destruct (negb (reqType req =? msgType _typLogin)%string); [|reflexivity].
  apply (call_frame _ _ (frame_of w) w eq_refl).
Qed.

Lemma notify_all_frame (l : list entry) :
  forall w, frame_of (notify_all l w) = frame_of w.
Proof.
  induction l as [|req l IH]; intros w; [reflexivity|].
  unfold notify_all in *. cbn [fold_left]. rewrite IH.
  apply _resetConnection_notify_frame.
Qed.

Lemma frame_of_pendingReq (w w' : world) :
  frame_of w' = frame_of w -> _pendingReq w' = _pendingReq w.
Proof. unfold frame_of. congruence. Qed.

Lemma forEach_from_notify (n : nat) :
  forall k w,
    forEach_from _resetConnection_notify n k w
    = (Ok tt, notify_all (firstn n (skipn k (_pendingReq w))) w).
Proof.
  induction n as [|n IH]; intros k w; [reflexivity|].
  cbn [forEach_from]. rewrite (bind_ok _ _ w w (_pendingReq w)) by reflexivity.
  destruct (nth_error (_pendingReq w) k) as [x|] eqn:Hx.
  - rewrite (bind_ok _ _ _ _ _ (_resetConnection_notify_run x k w)).
    rewrite IH.
    rewrite (frame_of_pendingReq _ _ (_resetConnection_notify_frame x w)).
    rewrite (nth_error_skipn_cons _ _ _ Hx). reflexivity.
  - rewrite IH.
    rewrite (nth_error_skipn_nil _ _ Hx).
    assert (Hs : skipn (S k) (_pendingReq w) = []).
    { apply nth_error_skipn_nil, nth_error_None.
      apply nth_error_None in Hx. lia. }
    rewrite Hs. destruct n; reflexivity.
Qed.

Lemma forEach_notify (w : world) :
  forEach _resetConnection_notify w = (Ok tt, notify_all (_pendingReq w) w).
Proof.
  unfold forEach. rewrite (bind_ok _ _ w w (_pendingReq w)) by reflexivity.
  rewrite forEach_from_notify. cbn [skipn]. rewrite firstn_all. reflexivity.
Qed.

Lemma notify_all_invocations (l : list entry) :
  forall w,
    invocations (output (notify_all l w))
    = (invocations (output w)
       ++ map (fun e => (reqCallback e, reset_error e))
              (filter (fun e => negb (is_login_row e)) l))%list.
Proof.
  induction l as [|req l IH]; intros w; [cbn; rewrite app_nil_r; reflexivity|].
  unfold notify_all in *. cbn [fold_left filter]. rewrite IH.
  unfold exec at 1. unfold _resetConnection_notify at 1. unfold is_login_row at 2.
  destruct (negb (reqType req =? msgType _typLogin)%string).
  - fold (exec (call (reqCallback req) (reset_error req)) w).
    rewrite call_invocations. cbn [map]. rewrite <- app_assoc. reflexivity.
  - reflexivity.
Qed.

(** [_resetConnection()] while a socket is held: it returns, and this is
    the world it leaves. *)
Lemma _resetConnection_eq (w : world) (sock : nat) :
  _socket w = Some sock ->
  let w1 :=
    notify_all (_pendingReq w)
      (set_reset true
         (set_loggedIn false
            (set_output
               (output w ++ [Log LogGeneral (JStr "Resetting Server Connection")])
               w))) in
  _resetConnection w
  = (Ok tt,
     exec login (set_socket None (set_output (output w1 ++ [Destroy sock]) w1))).
Proof.
  intros Hsock w1. unfold _resetConnection.
  do 3 (erewrite bind_ok by reflexivity).
  erewrite bind_ok by apply forEach_notify.
  cbn [_pendingReq set_reset set_loggedIn set_output]. fold w1.
  assert (Hs1 : _socket w1 = Some sock).
  { pose proof (notify_all_frame (_pendingReq w)
      (set_reset true (set_loggedIn false
         (set_output (output w ++ [Log LogGeneral (JStr "Resetting Server Connection")]) w))))
      as F.
    fold w1 in F. unfold frame_of in F. cbn in F. congruence. }
  rewrite (bind_ok _ _ w1 w1 (_socket w1)) by reflexivity.
  rewrite Hs1.
  do 2 (erewrite bind_ok by reflexivity).
  rewrite (bind_ok _ _ _ _ _ (run_pair login _)).
  reflexivity.
Qed.

(** [_resetConnection()] while no socket is held: the rows are notified,
    then [this._socket.destroy()] throws. *)
Lemma _resetConnection_no_socket (w : world) :
  _socket w = None ->
  _resetConnection w
  = (Throw (TypeError "Cannot read property 'destroy' of null"),
     notify_all (_pendingReq w)
       (set_reset true
          (set_loggedIn false
             (set_output
                (output w ++ [Log LogGeneral (JStr "Resetting Server Connection")])
                w)))).
Proof.
  intros Hs. unfold _resetConnection.
  do 3 (erewrite bind_ok by reflexivity).
  erewrite bind_ok by apply forEach_notify.
  cbn [_pendingReq set_reset set_loggedIn set_output].
  match goal with
  | |- bind _ _ ?W = _ =>
      assert (Hs1 : _socket W = None);
      [ pose proof (notify_all_frame (_pendingReq w)
          (set_reset true (set_loggedIn false
             (set_output (output w ++ [Log LogGeneral (JStr "Resetting Server Connection")]) w))))
          as F; unfold frame_of in F; cbn in F; congruence
      | rewrite (bind_ok _ _ W W (_socket W)) by reflexivity; rewrite Hs1 ]
  end.
  reflexivity.
Qed.

(** ** Reset *)

(** C2, amended.  A reset that finds a socket returns; it calls the
    closure of every row whose type is not the login type exactly once, in
    table order, with the reset error naming that row, and calls no
    closure of a login row; then the table holds one fresh login row
    (new closure, submit time now), and the login request is written to
    the new socket. *)
Theorem C2_reset_notifies_then_relogs (w : world) (sock : nat) :
  _socket w = Some sock ->
  let w' := exec _resetConnection w in
  outcome _resetConnection w = Ok tt /\
  invocations (output w')
  = (invocations (output w)
     ++ map (fun e => (reqCallback e, reset_error e))
            (filter (fun e => negb (is_login_row e)) (_pendingReq w)))%list /\
  _pendingReq w' = [mkEntry "" "welcome" (CbLogin (next_handle w)) (clock w)] /\
  In (Write (S (next_handle w)) (JSON_stringify (JObj [("name", JStr "coder1")])))
     (output w').
Proof.
  intros Hsock. cbv zeta.
  pose proof (_resetConnection_eq w sock Hsock) as E. cbv zeta in E.
  unfold outcome.
  change (exec _resetConnection w) with (snd (_resetConnection w)).
  rewrite E. cbn [fst snd].
  set (w0 := set_reset true (set_loggedIn false
        (set_output (output w ++ [Log LogGeneral (JStr "Resetting Server Connection")]) w))) in *.
  pose proof (notify_all_frame (_pendingReq w) w0) as F.
  pose proof (notify_all_invocations (_pendingReq w) w0) as I.
  set (w1 := notify_all (_pendingReq w) w0) in *.
  unfold frame_of in F. cbn in F.
  injection F as F1 F2 F3 F4 F5 F6 F7 F8 F9.
  unfold exec. rewrite login_eq. cbn.
  rewrite F7, F4. repeat split.
  - rewrite !invocations_app, I. cbn. rewrite invocations_app. cbn.
    rewrite !app_nil_r. reflexivity.
  - apply in_or_app. right. cbn. auto.
Qed.

(** ** The heartbeat deadline *)

Lemma one_deadline_spelled (w : world) :
  one_deadline w ->
  (List.length (timeouts w) <= 1)%nat /\
  forall h d, In (h, d) (timeouts w) -> _heartbeatTimer w = Some h.
Proof.
  intros [E | (h & d & E & Hh)]; rewrite E; cbn; split; auto; try tauto.
  intros h' d' [H | []]. congruence.
Qed.

Lemma _chkPendingReq_keeps_timers (timestamp : Z) (T : list (nat * Z))
    (H : option nat) :
  hoare (fun w => timeouts w = T /\ _heartbeatTimer w = H)
    (_chkPendingReq timestamp)
    (fun w => timeouts w = T /\ _heartbeatTimer w = H).
Proof. hoare_auto. Qed.

(** Once [login()] has run the object always holds a timer handle, so
    no later heartbeat is ignored. *)
Lemma step_holds_handle (ev : event) :
  hoare holds_handle (step ev) holds_handle.
Proof.
  assert (Hs : forall msg, hoare holds_handle (_handleServerMsg_step msg) holds_handle).
  { intros msg.
    unfold _handleServerMsg_step, _handleHeartbeat, setTimeout_resetConnection,
      clearTimeout.
    hoare_auto. }
  unfold step. apply hoare_seq; [hoare_auto | intros _].
  destruct ev; cbn [handler];
    try (unfold _resetConnection; unfold login, setTimeout_resetConnection,
           clearTimeout; hoare_auto).
  apply _handleServerMsg_hoare; [intros w logs _ H; exact H | exact Hs].
Qed.

Lemma handle_held_after_login (port : Z) (ip : string) (now : Z)
    (evs : list event) :
  holds_handle (exec (run (CallLogin now :: evs)) (constructor port ip)).
Proof.
  unfold exec. cbn [run].
  assert (H1 : step (CallLogin now) (constructor port ip)
               = (Ok tt, exec login (set_clock now (constructor port ip)))).
  { unfold step. erewrite bind_ok by reflexivity. cbn [handler].
    rewrite (bind_ok _ _ _ _ _ (login_eq _)).
    unfold exec. rewrite login_eq. reflexivity. }
  rewrite (bind_ok _ _ _ _ _ H1).
  apply (run_hoare holds_handle evs).
  - intros ev _. apply step_holds_handle.
  - unfold exec. rewrite login_eq. discriminate.
Qed.

(** A heartbeat received while a handle is held cancels that timeout,
    then arms one 2000 ms ahead and holds its handle. *)
Lemma _handleHeartbeat_rearms (pulse : Z) (w : world) (old : nat) :
  _heartbeatTimer w = Some old ->
  let w' := exec (_handleHeartbeat pulse) w in
  timeouts w'
  = (filter (fun t => negb (Nat.eqb (fst t) old)) (timeouts w)
     ++ [(next_handle w, clock w + 2000)])%list /\
  _heartbeatTimer w' = Some (next_handle w).
Proof.
  intros Hhb. cbv zeta. unfold exec, _handleHeartbeat.
  rewrite (bind_ok _ _ w w (_heartbeatTimer w)) by reflexivity. rewrite Hhb.
  do 3 (erewrite bind_ok by reflexivity).
  apply (_chkPendingReq_keeps_timers pulse). split; reflexivity.
Qed.

(** A heartbeat timeout that fires while it is the armed one and a
    socket is held runs one reset, which leaves one timeout armed,
    2000 ms ahead. *)
Lemma timeout_fires_one_reset (w : world) (timer sock : nat) (now d : Z) :
  one_deadline w ->
  find_handle timer (timeouts w) = Some d ->
  _socket w = Some sock ->
  let w' := exec (step (TimeoutFires timer now)) w in
  outcome (step (TimeoutFires timer now)) w = Ok tt /\
  timeouts w' = [(S (S (next_handle w)), now + 2000)] /\
  _heartbeatTimer w' = Some (S (S (next_handle w))).
Proof.
  intros Hw Hf Hsock. cbv zeta.
  assert (Ht : filter (fun t : nat * Z => negb (Nat.eqb (fst t) timer)) (timeouts w) = []).
  { destruct Hw as [E | (h & d' & E & _)]; rewrite E in *; [reflexivity|].
    apply find_handle_single in Hf. subst h. apply filter_other_single. }
  assert (E : step (TimeoutFires timer now) w
              = _resetConnection (set_timeouts [] (set_clock now w))).
  { unfold step. erewrite bind_ok by reflexivity. cbn [handler].
    erewrite bind_ok by reflexivity. cbn [timeouts set_clock]. rewrite Hf.
    erewrite bind_ok by reflexivity. cbn [timeouts set_clock]. rewrite Ht.
    reflexivity. }
  unfold outcome, exec. rewrite E.
  pose proof (_resetConnection_eq (set_timeouts [] (set_clock now w)) sock Hsock) as R.
  cbv zeta in R. rewrite R. cbn [fst snd].
  match type of R with
  | context [notify_all ?l ?w0] =>
      pose proof (notify_all_frame l w0) as F; set (w1 := notify_all l w0) in *
  end.
  unfold frame_of in F. cbn in F.
  injection F as F1 F2 F3 F4 F5 F6 F7 F8 F9.
  unfold exec. rewrite login_eq. cbn. rewrite F4, F5, F7. auto.
Qed.

(** ** The frame decoder *)

Lemma append_assoc (a b c : string) : ((a ++ b) ++ c = a ++ (b ++ c))%string.
Proof. induction a as [|x a IH]; cbn; [reflexivity | rewrite IH; reflexivity]. Qed.

Lemma append_nil_r (a : string) : (a ++ "" = a)%string.
Proof. induction a as [|x a IH]; cbn; [reflexivity | rewrite IH; reflexivity]. Qed.

Lemma split_lines_aux_no_newline (a : string) :
  forall cur, no_newline a = true -> split_lines_aux cur a = [(cur ++ a)%string].
Proof.
  induction a as [|c a IH]; intros cur H; cbn in *.
  - rewrite append_nil_r. reflexivity.
  - apply andb_true_iff in H. destruct H as [Hc Ha].
    apply negb_true_iff in Hc. rewrite Hc, (IH _ Ha), append_assoc. reflexivity.
Qed.

Lemma split_lines_aux_newline (a b : string) :
  forall cur,
    no_newline a = true ->
    split_lines_aux cur (a ++ String newline b)
    = (cur ++ a)%string :: split_lines_aux "" b.
Proof.
  induction a as [|c a IH]; intros cur H; cbn in *.
  - rewrite append_nil_r. reflexivity.
  - apply andb_true_iff in H. destruct H as [Hc Ha].
    apply negb_true_iff in Hc. rewrite Hc, (IH _ Ha), append_assoc. reflexivity.
Qed.

(** A chunk of two pieces. *)
Lemma split_lines_two (a b : string) :
  no_newline a = true -> no_newline b = true ->
  split_lines (a ++ String newline b) = [a; b].
Proof.
  intros Ha Hb. unfold split_lines.
  rewrite (split_lines_aux_newline a b "" Ha), (split_lines_aux_no_newline b "" Hb).
  reflexivity.
Qed.

Lemma split_lines_one (a : string) : no_newline a = true -> split_lines a = [a].
Proof. intros Ha. apply (split_lines_aux_no_newline a "" Ha). Qed.

(** ** The timeout sweep never throws *)

Lemma forEach_from_returns (body : entry -> nat -> M unit) :
  (forall x k w, nth_error (_pendingReq w) k = Some x ->
                 outcome (body x k) w = Ok tt) ->
  forall n k w, outcome (forEach_from body n k) w = Ok tt.
Proof.
  intros Hbody n. induction n as [|n IH]; intros k w; [reflexivity|].
  unfold outcome. cbn [forEach_from].
  rewrite (bind_ok _ _ w w (_pendingReq w)) by reflexivity.
  destruct (nth_error (_pendingReq w) k) as [x|] eqn:Hx.
  - pose proof (run_pair (body x k) w) as Hb. rewrite (Hbody x k w Hx) in Hb.
    rewrite (bind_ok _ _ _ _ _ Hb). apply IH.
  - apply IH.
Qed.

Lemma splice1_eq (ndx : nat) (x : entry) (w : world) :
  nth_error (_pendingReq w) ndx = Some x ->
  splice1 ndx w = (Ok x, set_pendingReq (remove_at ndx (_pendingReq w)) w).
Proof.
  intros Hx. unfold splice1.
  rewrite (bind_ok _ _ w w (_pendingReq w)) by reflexivity.
  erewrite bind_ok by reflexivity. rewrite Hx. reflexivity.
Qed.

Lemma _chkPendingReq_returns (timestamp : Z) (w : world) :
  outcome (_chkPendingReq timestamp) w = Ok tt.
Proof.
  unfold outcome, _chkPendingReq, forEach.
  rewrite (bind_ok _ _ w w (_pendingReq w)) by reflexivity.
  apply forEach_from_returns. clear w. intros x k w Hx.
  unfold outcome, _chkPendingReq_visit.
  destruct (timestamp - reqTime x >? 5000); [|reflexivity].
  rewrite (bind_ok _ _ _ _ _ (splice1_eq k x w Hx)). apply call_error_ok.
Qed.

Lemma _handleHeartbeat_returns (pulse : Z) (w : world) :
  outcome (_handleHeartbeat pulse) w = Ok tt.
Proof.
  unfold outcome, _handleHeartbeat.
  rewrite (bind_ok _ _ w w (_heartbeatTimer w)) by reflexivity.
  destruct (_heartbeatTimer w); [|reflexivity].
  do 3 (erewrite bind_ok by reflexivity).
  apply _chkPendingReq_returns.
Qed.

(** A heartbeat handled by an object that holds a handle and has at
    most the timeout of that handle armed. *)
Lemma heartbeat_leaves_one_deadline (w : world) (pulse : Z) :
  one_deadline w ->
  holds_handle w ->
  let w' := exec (_handleHeartbeat pulse) w in
  outcome (_handleHeartbeat pulse) w = Ok tt /\
  timeouts w' = [(next_handle w, clock w + 2000)] /\
  _heartbeatTimer w' = Some (next_handle w).
Proof.
  intros Hone Hheld. cbv zeta.
  split; [apply _handleHeartbeat_returns|].
  red in Hheld. destruct (_heartbeatTimer w) as [old|] eqn:Hold;
    [|contradiction Hheld; reflexivity].
  destruct (_handleHeartbeat_rearms pulse w old Hold) as (Ht & Hh).
  cbv zeta in Ht, Hh. rewrite Ht, Hh. split; [|reflexivity].
  destruct Hone as [E | (h & d & E & Hh')]; rewrite E; [reflexivity|].
  assert (h = old) by congruence. subst h.
  rewrite filter_other_single. reflexivity.
Qed.

(** The armed timeout that fires while no socket is held: the reset
    throws at [this._socket.destroy()] and arms nothing. *)
Lemma timeout_fires_no_socket (w : world) (timer : nat) (now d : Z) :
  one_deadline w ->
  find_handle timer (timeouts w) = Some d ->
  _socket w = None ->
  let w' := exec (step (TimeoutFires timer now)) w in
  outcome (step (TimeoutFires timer now)) w
  = Throw (TypeError "Cannot read property 'destroy' of null") /\
  timeouts w' = [].
Proof.
  intros Hw Hf Hsock. cbv zeta.
  assert (Ht : filter (fun t : nat * Z => negb (Nat.eqb (fst t) timer)) (timeouts w) = []).
  { destruct Hw as [E | (h & d' & E & _)]; rewrite E in *; [reflexivity|].
    apply find_handle_single in Hf. subst h. apply filter_other_single. }
  assert (E : step (TimeoutFires timer now) w
              = _resetConnection (set_timeouts [] (set_clock now w))).
  { unfold step. erewrite bind_ok by reflexivity. cbn [handler].
    erewrite bind_ok by reflexivity. cbn [timeouts set_clock]. rewrite Hf.
    erewrite bind_ok by reflexivity. cbn [timeouts set_clock]. rewrite Ht.
    reflexivity. }
  unfold outcome, exec. rewrite E.
  pose proof (_resetConnection_no_socket (set_timeouts [] (set_clock now w)) Hsock) as R.
  rewrite R. cbn [fst snd]. split; [reflexivity|].
  match type of R with
  | context [notify_all ?l ?w0] =>
      pose proof (notify_all_frame l w0) as F; set (w1 := notify_all l w0) in *
  end.
  unfold frame_of in F. cbn in F.
  injection F as F1 F2 F3 F4 F5 F6 F7 F8 F9.
  assumption.
Qed.

Lemma _handleServerMsg_step_heartbeat (w : world) :
  _handleServerMsg_step (JObj [("type", JStr "heartbeat")]) w
  = _handleHeartbeat (clock w) w.
Proof. reflexivity. Qed.

(** C8.  The decoder returns for every chunk: it keeps, in order, the
    parse of every non-blank piece between newlines that parses, and logs
    one diagnostic for every non-blank piece that does not; what one piece
    yields does not depend on the others.  So a chunk made of a piece that
    does not parse, a newline and a heartbeat record is handled without an
    exception, the diagnostic is logged, and the heartbeat cancels the
    armed timeout and arms one 2000 ms ahead. *)
Theorem C8_decoder_drops_and_continues (buffer : string) (w : world) :
  _parseRcvBuffer buffer w
  = (Ok (flat_map record_of (split_lines buffer)),
     set_output (output w ++ flat_map (diagnostics_of buffer) (split_lines buffer)) w)
  /\
  forall (bad hb : string) (old : nat) (now : Z),
    no_newline bad = true -> trim_nonempty bad = true -> JSON_parse bad = None ->
    no_newline hb = true -> trim_nonempty hb = true ->
    JSON_parse hb = Some (JObj [("type", JStr "heartbeat")]) ->
    _heartbeatTimer w = Some old ->
    let chunk := (bad ++ String newline hb)%string in
    let w' := exec (step (SocketData now chunk)) w in
    outcome (step (SocketData now chunk)) w = Ok tt /\
    In (Log LogError (JStr ("Invalid non-JSON message format: " ++ chunk))) (output w') /\
    timeouts w'
    = (filter (fun t => negb (Nat.eqb (fst t) old)) (timeouts w)
       ++ [(next_handle w, now + 2000)])%list /\
    _heartbeatTimer w' = Some (next_handle w).
Proof.
  split; [apply (_parseRcvBuffer_loop_eq buffer (split_lines buffer) [] w)|].
  intros bad hb old now Hbad1 Hbad2 Hbad3 Hhb1 Hhb2 Hhb3 Hold.
  cbv zeta.
  set (chunk := (bad ++ String newline hb)%string).
  set (w0 := set_output (output w ++ [Log LogReceived (JStr chunk);
                Log LogError (JStr ("Invalid non-JSON message format: " ++ chunk))])
               (set_clock now w)).
  assert (E : step (SocketData now chunk) w
              = bind (_handleHeartbeat now) (fun _ => ret tt) w0).
  { unfold step. erewrite bind_ok by reflexivity. cbn [handler].
    unfold _handleServerMsg. erewrite bind_ok by reflexivity.
    unfold _parseRcvBuffer.
    rewrite (bind_ok _ _ _ _ _ (_parseRcvBuffer_loop_eq chunk (split_lines chunk) [] _)).
    assert (Hsplit : split_lines chunk = [bad; hb])
      by apply (split_lines_two bad hb Hbad1 Hhb1).
    rewrite Hsplit.
    cbn [flat_map]. unfold record_of, diagnostics_of.
    rewrite Hbad2, Hbad3, Hhb2, Hhb3. cbn [app _handleServerMsg_loop].
    cbn [output set_output set_clock event_time]. rewrite <- app_assoc. cbn [app].
    unfold bind. rewrite _handleServerMsg_step_heartbeat. reflexivity. }
  assert (Hold0 : _heartbeatTimer w0 = Some old) by exact Hold.
  pose proof (_handleHeartbeat_rearms now w0 old Hold0) as R. cbv zeta in R.
  pose proof (_handleHeartbeat_returns now w0) as O.
  assert (Hout : hoare (fun w => In (Log LogError (JStr ("Invalid non-JSON message format: " ++ chunk))) (output w))
                   (_handleHeartbeat now)
                   (fun w => In (Log LogError (JStr ("Invalid non-JSON message format: " ++ chunk))) (output w))).
  { unfold _handleHeartbeat, setTimeout_resetConnection, clearTimeout.
    repeat first
      [ hoare_step
      | progress autounfold with js
      | progress unfold call
      | apply hoare_update; intros ? ?; cbn; apply in_or_app; left; assumption ]. }
  pose proof (run_pair (_handleHeartbeat now) w0) as P. rewrite O in P.
  assert (E2 : step (SocketData now chunk) w
               = (Ok tt, exec (_handleHeartbeat now) w0))
    by (rewrite E, (bind_ok _ _ _ _ _ P); reflexivity).
  unfold outcome.
  change (exec (step (SocketData now chunk)) w)
    with (snd (step (SocketData now chunk) w)).
  rewrite E2. cbn [fst snd].
  split; [reflexivity|]. split; [|exact R].
  apply (Hout w0). unfold w0. cbn. apply in_or_app. right. cbn. auto.
Qed.

(** ** How a promise is settled *)

Lemma settlement_app_none (p : nat) (a b : list effect) :
  settlement p a = None -> settlement p (a ++ b) = settlement p b.
Proof.
  induction a as [|e a IH]; [reflexivity|]. cbn [settlement app].
  destruct e; try exact IH; destruct (Nat.eqb _ p); try discriminate; exact IH.
Qed.

Lemma settlement_app_some (p : nat) (a b : list effect) (s : settled) :
  settlement p a = Some s -> settlement p (a ++ b) = Some s.
Proof.
  induction a as [|e a IH]; [discriminate|]. cbn [settlement app].
  destruct e; try exact IH; destruct (Nat.eqb _ p); auto.
Qed.

Lemma call_appends (cb : callback) (v : jsval) (w : world) :
  exists more, output (exec (call cb v) w) = (output w ++ more)%list.
Proof.
  unfold exec, call. destruct cb as [q|q|q].
  - unfold logMsg, emit, bind, read, update, ret.
    destruct (negb (is_nullish v)); cbn; rewrite <- !app_assoc; eauto.
  - unfold logMsg, logError, emit, bind, read, update, lift, ret.
    cbn. destruct (get_prop v "err") as [err|err]; cbn;
      [destruct (is_undefined err || is_null err); cbn;
       [destruct (get_prop v "count"); cbn|]|];
      rewrite <- ?app_assoc; eauto.
  - unfold logMsg, logError, emit, bind, read, update, lift, ret.
    cbn. destruct (get_prop v "err") as [err|err]; cbn;
      [destruct (is_undefined err || is_null err); cbn;
       [destruct (get_prop v "time"); cbn;
        [destruct (get_prop v "random"); cbn|]|]|];
      rewrite <- ?app_assoc; eauto.
Qed.

(** ** Correlating a response *)

Lemma find_index_app (id : string) (pre : list entry) (e : entry)
    (post : list entry) :
  forall i,
    find_index id pre i = None ->
    reqId e = id ->
    find_index id (pre ++ e :: post) i = Some (i + List.length pre)%nat.
Proof.
  induction pre as [|x pre IH]; intros i Hpre He; cbn in *.
  - rewrite He, String.eqb_refl. f_equal. lia.
  - destruct (reqId x =? id)%string; [discriminate|].
    rewrite (IH (S i) Hpre He). f_equal. lia.
Qed.

Lemma nth_error_middle (pre : list entry) (e : entry) (post : list entry) :
  nth_error (pre ++ e :: post) (List.length pre) = Some e.
Proof. induction pre as [|x pre IH]; cbn; auto. Qed.

Lemma remove_at_middle (pre : list entry) (e : entry) (post : list entry) :
  remove_at (List.length pre) (pre ++ e :: post) = (pre ++ post)%list.
Proof.
  unfold remove_at. induction pre as [|x pre IH]; cbn in *; [reflexivity|].
  f_equal. exact IH.
Qed.

Lemma _getPendingReq_found (id : string) (w : world) (pre : list entry)
    (e : entry) (post : list entry) :
  _pendingReq w = (pre ++ e :: post)%list ->
  find_index id pre 0 = None ->
  reqId e = id ->
  _getPendingReq id w = (Ok (Some (reqCallback e)), set_pendingReq (pre ++ post) w).
Proof.
  intros Htbl Hpre He. unfold _getPendingReq.
  rewrite (bind_ok _ _ w w (_pendingReq w)) by reflexivity.
  rewrite Htbl, (find_index_app id pre e post 0 Hpre He). cbn [Nat.add].
  assert (Hn : nth_error (_pendingReq w) (List.length pre) = Some e)
    by (rewrite Htbl; apply nth_error_middle).
  rewrite (bind_ok _ _ _ _ _ (splice1_eq _ _ _ Hn)).
  rewrite Htbl, remove_at_middle. reflexivity.
Qed.

Lemma _getMsgId_valid (fs : list (string * jsval)) (K : string) (w : world) :
  assoc "reply" fs = JStr K ->
  valid_reply (JStr K) = true ->
  _getMsgId (JObj fs) w = (Ok (Some K), w).
Proof.
  intros Hreply Hvalid. unfold _getMsgId.
  erewrite bind_ok by reflexivity. cbn [fst]. rewrite Hreply, Hvalid. reflexivity.
Qed.

(** A response whose [reply] is the id of a pending row: the first such
    row leaves the table and its closure is called with the response. *)
Lemma _handleResponseMsg_delivers (kind Kind : string)
    (fs : list (string * jsval)) (K : string) (w : world)
    (pre : list entry) (e : entry) (post : list entry) :
  assoc "reply" fs = JStr K ->
  valid_reply (JStr K) = true ->
  _pendingReq w = (pre ++ e :: post)%list ->
  find_index K pre 0 = None ->
  reqId e = K ->
  _handleResponseMsg kind Kind (JObj fs) w
  = call (reqCallback e) (JObj fs)
      (set_output
         (output w ++
          [Log LogGeneral (JStr ("Pending request found for " ++ kind
                                 ++ " response with msgId: " ++ K))])
         (set_pendingReq (pre ++ post) w)).
Proof.
  intros Hreply Hvalid Htbl Hpre He. unfold _handleResponseMsg.
  rewrite (bind_ok _ _ _ _ _ (_getMsgId_valid fs K w Hreply Hvalid)).
  rewrite (bind_ok _ _ _ _ _ (_getPendingReq_found K w pre e post Htbl Hpre He)).
  erewrite bind_ok by reflexivity. reflexivity.
Qed.

(** The prefix test of [_getMsgId] accepts every id made by
    [_nextMsgId]. *)
Lemma valid_reply_msgId_of (name : string) (now : Z) :
  valid_reply (JStr (msgId_of name now)) = true.
Proof.
  unfold valid_reply, msgId_of, substr0. cbn.
  destruct (name ++ toString now)%string; reflexivity.
Qed.

(** A request made while logged in with a socket held: the row pushed
    and the text written. *)
Lemma _sendServerReq_logged_in (req : jsval) (type : string) (cb : callback)
    (w : world) (sock : nat) :
  loggedIn w = true ->
  _socket w = Some sock ->
  let K := msgId_of (loginName w) (clock w) in
  _sendServerReq req type cb w
  = (Ok tt,
     set_output
       (output w ++
        [Log LogGeneral (JStr ("Pending request info pushed - msgId: " ++ K
                               ++ ", type: " ++ type ++ ", callback provided: true"));
         Write sock (JSON_stringify (assign req "id" (JStr K)));
         Log LogSent (JStr (JSON_stringify (assign req "id" (JStr K))))])
       (set_pendingReq (_pendingReq w ++ [mkEntry K type cb (clock w)]) w)).
Proof.
  intros Hli Hsock. cbv zeta.
  unfold _sendServerReq, _chkServerLogin.
  rewrite (bind_ok _ _ w w (Fulfilled (JObj [("err", JNull)]))).
  2:{ rewrite (bind_ok _ _ w w (loggedIn w)) by reflexivity. rewrite Hli. reflexivity. }
  unfold _sendServerReq_react, try_catch, _sendServerReq_then.
  do 4 (erewrite bind_ok by reflexivity).
  unfold socket_write.
  erewrite (bind_ok (bind (read _socket) _)).
  2:{ erewrite bind_ok by reflexivity. cbn [_socket set_output set_pendingReq].
      rewrite Hsock. reflexivity. }
  cbn. rewrite <- !app_assoc. reflexivity.
Qed.

(** The closures of [getRequestCount] and [getTime] on a response object. *)
Lemma call_CbCount_valid (p : nat) (fs : list (string * jsval)) (w : world) :
  is_undefined (assoc "err" fs) || is_null (assoc "err" fs) = true ->
  call (CbCount p) (JObj fs) w
  = (Ok tt,
     set_output
       (output w ++
        [Invoke (CbCount p) (JObj fs);
         Log LogGeneral (JStr ("Count response received: " ++ JSON_stringify (JObj fs)));
         Resolve p (JObj [("count", assoc "count" fs)])]) w).
Proof.
  intros Herr. unfold call. erewrite bind_ok by reflexivity.
  erewrite bind_ok by reflexivity. cbn beta. rewrite Herr.
  unfold logMsg, emit, bind, update, lift, get_prop. cbn.
  rewrite <- !app_assoc. reflexivity.
Qed.

Lemma call_CbTime_valid (p : nat) (fs : list (string * jsval)) (w : world) :
  is_undefined (assoc "err" fs) || is_null (assoc "err" fs) = true ->
  call (CbTime p) (JObj fs) w
  = (Ok tt,
     set_output
       (output w ++
        [Invoke (CbTime p) (JObj fs);
         Log LogGeneral (JStr ("Time response received: " ++ JSON_stringify (JObj fs)));
         Resolve p (JObj [("time", assoc "time" fs); ("number", assoc "random" fs)])])
       w).
Proof.
  intros Herr. unfold call. erewrite bind_ok by reflexivity.
  erewrite bind_ok by reflexivity. cbn beta. rewrite Herr.
  unfold logMsg, emit, bind, update, lift, get_prop. cbn.
  rewrite <- !app_assoc. reflexivity.
Qed.

Lemma call_CbTime_err (p : nat) (fs : list (string * jsval)) (w : world) :
  is_undefined (assoc "err" fs) || is_null (assoc "err" fs) = false ->
  call (CbTime p) (JObj fs) w
  = (Ok tt,
     set_output
       (output w ++
        [Invoke (CbTime p) (JObj fs);
         Log LogError (assoc "err" fs);
         Reject p (JObj [("err", assoc "err" fs)])]) w).
Proof.
  intros Herr. unfold call. erewrite bind_ok by reflexivity.
  erewrite bind_ok by reflexivity. cbn beta. rewrite Herr.
  unfold logError, emit, bind, update, lift, get_prop. cbn.
  rewrite <- !app_assoc. reflexivity.
Qed.

(** A chunk that is one record. *)
Lemma _handleServerMsg_one_record (buffer : string) (msg : jsval) (w : world) :
  no_newline buffer = true ->
  trim_nonempty buffer = true ->
  JSON_parse buffer = Some msg ->
  _handleServerMsg buffer w
  = bind (_handleServerMsg_step msg) (fun _ => ret tt)
      (set_output (output w ++ [Log LogReceived (JStr buffer)]) w).
Proof.
  intros Hnl Hne Hparse. unfold _handleServerMsg.
  erewrite bind_ok by reflexivity. unfold _parseRcvBuffer.
  rewrite (bind_ok _ _ _ _ _ (_parseRcvBuffer_loop_eq buffer (split_lines buffer) [] _)).
  rewrite (split_lines_one buffer Hnl). cbn [flat_map].
  unfold record_of, diagnostics_of. rewrite Hne, Hparse.
  cbn [app output set_output _handleServerMsg_loop]. rewrite app_nil_r.
  reflexivity.
Qed.

Lemma getRequestCount_logged_in (w : world) (sock : nat) :
  loggedIn w = true ->
  _socket w = Some sock ->
  let K := msgId_of (loginName w) (clock w) in
  let req := JObj [("request", JStr "count"); ("id", JStr K)] in
  getRequestCount w
  = (Ok (next_handle w),
     set_output
       (output w ++
        [Log LogGeneral (JStr ("Pending request info pushed - msgId: " ++ K
                               ++ ", type: count, callback provided: true"));
         Write sock (JSON_stringify req);
         Log LogSent (JStr (JSON_stringify req))])
       (set_pendingReq
          (_pendingReq w ++ [mkEntry K "count" (CbCount (next_handle w)) (clock w)])
          (set_next_handle (S (next_handle w)) w))).
Proof.
  intros Hli Hsock. cbv zeta. unfold getRequestCount.
  erewrite bind_ok by reflexivity.
  erewrite bind_ok
    by (apply (_sendServerReq_logged_in _ _ _ _ sock); assumption).
  reflexivity.
Qed.

Lemma step_getRequestCount_logged_in (w : world) (sock : nat) (now : Z) :
  loggedIn w = true ->
  _socket w = Some sock ->
  let K := msgId_of (loginName w) now in
  let req := JObj [("request", JStr "count"); ("id", JStr K)] in
  step (CallGetRequestCount now) w
  = (Ok tt,
     set_output
       (output w ++
        [Log LogGeneral (JStr ("Pending request info pushed - msgId: " ++ K
                               ++ ", type: count, callback provided: true"));
         Write sock (JSON_stringify req);
         Log LogSent (JStr (JSON_stringify req))])
       (set_pendingReq
          (_pendingReq w ++ [mkEntry K "count" (CbCount (next_handle w)) now])
          (set_next_handle (S (next_handle w)) (set_clock now w)))).
Proof.
  intros Hli Hsock. cbv zeta. unfold step.
  erewrite bind_ok by reflexivity. cbn [handler event_time].
  erewrite bind_ok
    by (apply (getRequestCount_logged_in _ sock); assumption).
  reflexivity.
Qed.

(** How a [msg] record whose payload is an object is routed. *)
Lemma _handleServerMsg_step_msg (fs : list (string * jsval)) (w : world) :
  let msg := JObj [("type", JStr "msg"); ("msg", JObj fs)] in
  _handleServerMsg_step msg w
  = (if negb (is_undefined (assoc "count" fs)) then _handleCountMsg (JObj fs)
     else if negb (is_undefined (assoc "time" fs)) then _handleTimeMsg (JObj fs)
     else logError (JStr ("Unrecognized message encountered: "
                          ++ JSON_stringify msg))) w.
Proof. reflexivity. Qed.

(** A record whose [type] is [heartbeat], whatever else it holds. *)
Lemma _handleServerMsg_step_heartbeat_record (msg : jsval) (w : world) :
  get_prop msg "type" = Ok (JStr "heartbeat") ->
  _handleServerMsg_step msg w = _handleHeartbeat (clock w) w.
Proof.
  intros Htype. unfold _handleServerMsg_step.
  rewrite (bind_ok _ _ w w (JStr "heartbeat")) by (unfold lift; rewrite Htype; reflexivity).
  reflexivity.
Qed.

(** A chunk that is one heartbeat record, received by an object that
    holds a handle and has at most the timeout of that handle armed. *)
Lemma heartbeat_chunk_leaves_one_deadline (w : world) (now' : Z)
    (buffer : string) (msg : jsval) :
  one_deadline w ->
  holds_handle w ->
  no_newline buffer = true ->
  trim_nonempty buffer = true ->
  JSON_parse buffer = Some msg ->
  get_prop msg "type" = Ok (JStr "heartbeat") ->
  let w' := exec (step (SocketData now' buffer)) w in
  outcome (step (SocketData now' buffer)) w = Ok tt /\
  timeouts w' = [(next_handle w, now' + 2000)] /\
  _heartbeatTimer w' = Some (next_handle w).
Proof.
  intros Hone Hheld Hnl Hne Hparse Htype. cbv zeta.
  set (W := set_output (output w ++ [Log LogReceived (JStr buffer)])
              (set_clock now' w)).
  assert (HoneW : one_deadline W).
  { destruct Hone as [E | (h & d & E & Hh)]; [left; exact E | right].
    exists h, d. split; [exact E | exact Hh]. }
  assert (HheldW : holds_handle W) by exact Hheld.
  destruct (heartbeat_leaves_one_deadline W now' HoneW HheldW) as (Hok & Ht & Hh).
  assert (E : step (SocketData now' buffer) w
              = (Ok tt, exec (_handleHeartbeat now') W)).
  { unfold step. erewrite bind_ok by reflexivity. cbn [handler event_time].
    rewrite (_handleServerMsg_one_record buffer _ _ Hnl Hne Hparse). fold W.
    assert (Em : _handleServerMsg_step msg W
                 = (Ok tt, exec (_handleHeartbeat now') W)).
    { rewrite (_handleServerMsg_step_heartbeat_record msg W Htype).
      change (clock W) with now'.
      rewrite (run_pair (_handleHeartbeat now') W), Hok. reflexivity. }
    rewrite (bind_ok _ _ _ _ _ Em). reflexivity. }
  unfold outcome, exec in *. rewrite E. cbn [fst snd].
  split; [reflexivity|]. split; [exact Ht | exact Hh].
Qed.

(** C5, amended.  [login()] arms a heartbeat timeout and cancels none.
    On a new object, with a port from 0 to 65535, started by one
    [login()] and run on any events other than a further call of
    [login()] (chunks, firing timers, requests, [logout()]):
    at most one heartbeat timeout is armed, and an armed one is the one
    whose handle the object holds; a chunk that is one heartbeat record
    is then handled without exception and leaves exactly one timeout
    armed, 2000 ms ahead, whose handle the object holds; the armed
    timeout, when it fires while a socket is held, runs a reset that
    returns and leaves exactly one timeout armed, 2000 ms ahead, whose
    handle the object holds; when it fires while no socket is held, as
    after [logout()], the reset throws a [TypeError] and no timeout is
    left armed. *)
Theorem C5_one_deadline_outstanding (port : Z) (ip : string) (now : Z)
    (evs : list event) :
  0 <= port <= 65535 ->
  existsb is_login_call evs = false ->
  let w := exec (run (CallLogin now :: evs)) (constructor port ip) in
  ((List.length (timeouts w) <= 1)%nat /\
   forall h d, In (h, d) (timeouts w) -> _heartbeatTimer w = Some h) /\
  (forall now' buffer msg,
     no_newline buffer = true ->
     trim_nonempty buffer = true ->
     JSON_parse buffer = Some msg ->
     get_prop msg "type" = Ok (JStr "heartbeat") ->
     let beat := step (SocketData now' buffer) in
     let w' := exec beat w in
     outcome beat w = Ok tt /\
     timeouts w' = [(next_handle w, now' + 2000)] /\
     _heartbeatTimer w' = Some (next_handle w)) /\
  (forall timer d now',
     find_handle timer (timeouts w) = Some d ->
     let fired := step (TimeoutFires timer now') in
     let w' := exec fired w in
     match _socket w with
     | Some sock =>
         outcome fired w = Ok tt /\
         timeouts w' = [(S (S (next_handle w)), now' + 2000)] /\
         _heartbeatTimer w' = Some (S (S (next_handle w)))
     | None =>
         outcome fired w
         = Throw (TypeError "Cannot read property 'destroy' of null") /\
         timeouts w' = []
     end).
Proof.
  intros _ Hevs w.
  assert (Hone : one_deadline w).
  { unfold w, exec. cbn [run].
    assert (H1 : step (CallLogin now) (constructor port ip)
                 = (Ok tt, exec login (set_clock now (constructor port ip)))).
    { unfold step. erewrite bind_ok by reflexivity. cbn [handler].
      rewrite (bind_ok _ _ _ _ _ (login_eq _)).
      unfold exec. rewrite login_eq. reflexivity. }
    rewrite (bind_ok _ _ _ _ _ H1).
    apply (run_one_deadline evs Hevs).
    apply login_arms. reflexivity. }
  assert (Hheld : holds_handle w) by apply handle_held_after_login.
  clearbody w.
  split; [apply one_deadline_spelled; exact Hone|]. split.
  - intros now' buffer msg Hnl Hne Hparse Htype.
    exact (heartbeat_chunk_leaves_one_deadline w now' buffer msg Hone Hheld
             Hnl Hne Hparse Htype).
  - intros timer d now' Hf. cbv zeta. destruct (_socket w) as [sock|] eqn:Hs.
    + exact (timeout_fires_one_reset w timer sock now' d Hone Hf Hs).
    + exact (timeout_fires_no_socket w timer now' d Hone Hf Hs).
Qed.

(** The count reply at any later moment: as long as the row made by
    [getRequestCount] is the first pending one under its id, the reply
    takes it out and resolves the promise with [{count: 23}]. *)
Lemma count_reply_reaches_pending_row (w : world) (K : string) (p : nat) (t : Z)
    (pre post : list entry) :
  _pendingReq w = (pre ++ mkEntry K "count" (CbCount p) t :: post)%list ->
  find_index K pre 0 = None ->
  valid_reply (JStr K) = true ->
  let payload := JObj [("count", JNum 23); ("reply", JStr K)] in
  let msg := JObj [("type", JStr "msg"); ("msg", payload)] in
  _handleServerMsg_step msg w
  = (Ok tt,
     set_output
       (output w ++
        [Log LogGeneral (JStr ("Pending request found for count response with msgId: " ++ K));
         Invoke (CbCount p) payload;
         Log LogGeneral (JStr ("Count response received: " ++ JSON_stringify payload));
         Resolve p (JObj [("count", JNum 23)])])
       (set_pendingReq (pre ++ post) w)).
Proof.
  intros Htbl Hpre Hvalid. cbv zeta.
  rewrite (_handleServerMsg_step_msg _ w). cbv zeta. cbn [assoc String.eqb Ascii.eqb Bool.eqb is_undefined negb].
  unfold _handleCountMsg.
  rewrite (_handleResponseMsg_delivers "count" "Count"
             [("count", JNum 23); ("reply", JStr K)] K w pre
             (mkEntry K "count" (CbCount p) t) post
             eq_refl Hvalid Htbl Hpre eq_refl).
  cbn [reqCallback]. rewrite call_CbCount_valid by reflexivity.
  cbn. rewrite <- !app_assoc. reflexivity.
Qed.

(** A count reply whose key no pending row has: nothing but a log. *)
Lemma _handleResponseMsg_unmatched (kind Kind : string)
    (fs : list (string * jsval)) (K : string) (w : world) :
  assoc "reply" fs = JStr K ->
  valid_reply (JStr K) = true ->
  find_index K (_pendingReq w) 0 = None ->
  _handleResponseMsg kind Kind (JObj fs) w
  = (Ok tt,
     set_output
       (output w ++
        [Log LogError (JStr ("No matching " ++ kind
                             ++ " request found for response with msgId: " ++ K))])
       w).
Proof.
  intros Hreply Hvalid Hnone. unfold _handleResponseMsg.
  rewrite (bind_ok _ _ _ _ _ (_getMsgId_valid fs K w Hreply Hvalid)).
  assert (E : _getPendingReq K w = (Ok None, w)).
  { unfold _getPendingReq.
    rewrite (bind_ok _ _ w w (_pendingReq w)) by reflexivity.
    rewrite Hnone. reflexivity. }
  rewrite (bind_ok _ _ _ _ _ E). reflexivity.
Qed.

(** C7, amended.  A reply is matched by its key alone, and the key is
    made of the login name and the millisecond of the request.  The
    chunk is the single record [{type:'msg', msg:{count:23, reply:K1}}],
    with [K1] a key as the client makes them (it begins with
    [challenge]).  When the first pending row under [K1] is that of a
    count request, wherever it stands in the table, the chunk is handled
    without exception, that row and no other leaves the table, only its
    closure is called, and its promise, when not yet settled, is
    resolved with [{count: 23}].  When no pending row has the key [K1]
    the record calls no closure and leaves the table as it is. *)
Theorem C7_count_reply_delivered (w : world) (K1 : string) (now' : Z)
    (buffer : string) :
  valid_reply (JStr K1) = true ->
  let payload := JObj [("count", JNum 23); ("reply", JStr K1)] in
  no_newline buffer = true ->
  trim_nonempty buffer = true ->
  JSON_parse buffer = Some (JObj [("type", JStr "msg"); ("msg", payload)]) ->
  let w' := exec (step (SocketData now' buffer)) w in
  (forall (p : nat) (t : Z) (pre post : list entry),
     _pendingReq w = (pre ++ mkEntry K1 "count" (CbCount p) t :: post)%list ->
     find_index K1 pre 0 = None ->
     outcome (step (SocketData now' buffer)) w = Ok tt /\
     _pendingReq w' = (pre ++ post)%list /\
     output w'
     = (output w ++
        [Log LogReceived (JStr buffer);
         Log LogGeneral
           (JStr ("Pending request found for count response with msgId: " ++ K1));
         Invoke (CbCount p) payload;
         Log LogGeneral (JStr ("Count response received: " ++ JSON_stringify payload));
         Resolve p (JObj [("count", JNum 23)])])%list /\
     (settlement p (output w) = None ->
      settlement p (output w') = Some (SettledResolve (JObj [("count", JNum 23)])))) /\
  (find_index K1 (_pendingReq w) 0 = None ->
   outcome (step (SocketData now' buffer)) w = Ok tt /\
   _pendingReq w' = _pendingReq w /\
   invocations (output w') = invocations (output w) /\
   forall q, settlement q (output w') = settlement q (output w)).
Proof.
  intros Hvalid payload Hnl Hne Hparse w'.
  assert (E0 : step (SocketData now' buffer) w
               = bind (_handleServerMsg_step
                         (JObj [("type", JStr "msg"); ("msg", payload)]))
                   (fun _ => ret tt)
                   (set_output (output w ++ [Log LogReceived (JStr buffer)])
                      (set_clock now' w))).
  { unfold step. erewrite bind_ok by reflexivity. cbn [handler event_time].
    rewrite (_handleServerMsg_one_record buffer _ _ Hnl Hne Hparse). reflexivity. }
  split.
  - intros p t pre post Htbl Hpre.
    assert (E : step (SocketData now' buffer) w
                = (Ok tt,
                   set_output
                     (output w ++
                      [Log LogReceived (JStr buffer);
                       Log LogGeneral
                         (JStr ("Pending request found for count response with msgId: "
                                ++ K1));
                       Invoke (CbCount p) payload;
                       Log LogGeneral
                         (JStr ("Count response received: " ++ JSON_stringify payload));
                       Resolve p (JObj [("count", JNum 23)])])
                     (set_pendingReq (pre ++ post) (set_clock now' w)))).
    { rewrite E0.
      erewrite bind_ok
        by (apply (count_reply_reaches_pending_row _ K1 p t pre post);
            [exact Htbl | exact Hpre | exact Hvalid]).
      cbn [output set_output set_pendingReq set_clock]. rewrite <- !app_assoc.
      reflexivity. }
    unfold outcome, w', exec. rewrite E. cbn [fst snd].
    split; [reflexivity|]. split; [reflexivity|]. split; [reflexivity|].
    intros Hnew. cbn [output set_output set_pendingReq set_clock].
    rewrite (settlement_app_none p _ _ Hnew).
    cbn [settlement]. rewrite Nat.eqb_refl. reflexivity.
  - intros Hnone.
    assert (E : step (SocketData now' buffer) w
                = (Ok tt,
                   set_output
                     (output w ++
                      [Log LogReceived (JStr buffer);
                       Log LogError
                         (JStr ("No matching count request found for response with msgId: "
                                ++ K1))])
                     (set_clock now' w))).
    { rewrite E0.
      assert (Hstep : forall w0,
                 _handleServerMsg_step (JObj [("type", JStr "msg"); ("msg", payload)]) w0
                 = _handleResponseMsg "count" "Count" payload w0) by reflexivity.
      erewrite bind_ok
        by (rewrite Hstep;
            apply (_handleResponseMsg_unmatched "count" "Count" _ K1);
            [reflexivity | exact Hvalid | exact Hnone]).
      cbn [output set_output set_pendingReq set_clock]. rewrite <- !app_assoc.
      reflexivity. }
    unfold outcome, w', exec. rewrite E. cbn [fst snd].
    split; [reflexivity|]. split; [reflexivity|].
    cbn [output set_output set_clock]. split.
    + rewrite invocations_app. cbn. apply app_nil_r.
    + intros q. destruct (settlement q (output w)) as [s0|] eqn:Hq.
      * apply settlement_app_some. exact Hq.
      * rewrite (settlement_app_none q _ _ Hq). reflexivity.
Qed.


(** ** Readiness *)

Lemma _chkServerLogin_logged_in (k : poll) (w : world) :
  loggedIn w = true ->
  _chkServerLogin k w = (Ok (Fulfilled (JObj [("err", JNull)])), w).
Proof.
  intros H. unfold _chkServerLogin.
  rewrite (bind_ok _ _ w w (loggedIn w)) by reflexivity. rewrite H. reflexivity.
Qed.

Lemma _chkServerLogin_not_ready (k : poll) (w : world) :
  loggedIn w = false -> reset w = false ->
  _chkServerLogin k w
  = (Ok (Rejected (JObj [("err", JStr "Not logged into server!")])), w).
Proof.
  intros H1 H2. unfold _chkServerLogin.
  rewrite (bind_ok _ _ w w (loggedIn w)) by reflexivity. rewrite H1.
  rewrite (bind_ok _ _ w w (reset w)) by reflexivity. rewrite H2. reflexivity.
Qed.

Lemma _chkServerLogin_resetting (k : poll) (w : world) :
  loggedIn w = false -> reset w = true ->
  _chkServerLogin k w
  = (Ok (Pending (next_handle w)),
     set_intervals (intervals w ++ [(next_handle w, k)])
       (set_next_handle (S (next_handle w)) w)).
Proof.
  intros H1 H2. unfold _chkServerLogin.
  rewrite (bind_ok _ _ w w (loggedIn w)) by reflexivity. rewrite H1.
  rewrite (bind_ok _ _ w w (reset w)) by reflexivity. rewrite H2. reflexivity.
Qed.

(** The interval firing while logged in with a socket held: the request
    is sent, and the interval stays armed (nothing clears it). *)
Lemma poll_tick_sends_when_logged_in (w : world) (timer sock : nat) (k : poll) :
  find_handle timer (intervals w) = Some k ->
  pollSettled k = false ->
  loggedIn w = true ->
  _socket w = Some sock ->
  let w' := exec (_chkServerLogin_tick timer) w in
  outcome (_chkServerLogin_tick timer) w = Ok tt /\
  _pendingReq w'
  = (_pendingReq w
     ++ [mkEntry (msgId_of (loginName w) (clock w)) (pollType k) (pollCallback k)
           (clock w)])%list /\
  List.length (intervals w') = List.length (intervals w).
Proof.
  intros Hk Hset Hli Hsock. cbv zeta.
  unfold outcome, exec, _chkServerLogin_tick.
  rewrite (bind_ok _ _ w w (intervals w)) by reflexivity. rewrite Hk.
  rewrite (bind_ok _ _ w w (loggedIn w)) by reflexivity. rewrite Hli.
  unfold settle_poll. rewrite Hset.
  erewrite bind_ok by reflexivity.
  unfold _sendServerReq_react, try_catch, _sendServerReq_then.
  do 4 (erewrite bind_ok by reflexivity).
  unfold socket_write.
  erewrite (bind_ok (bind (read _socket) _)).
  2:{ erewrite bind_ok by reflexivity.
      cbn [_socket set_output set_pendingReq set_intervals].
      rewrite Hsock. reflexivity. }
  cbn. rewrite length_map. auto.
Qed.

(** C4, what the code does.  Whenever the interval set up by
    [_chkServerLogin] fires while [loggedIn] is false, the callback
    throws a [ReferenceError] at [--i]: nothing is rejected, the interval
    stays armed, the world is unchanged.  This holds at the first firing
    as at any later one, so no retry budget is ever counted down. *)
Theorem C4_poll_throws_when_not_logged_in (w : world) (timer : nat) (k : poll) :
  find_handle timer (intervals w) = Some k ->
  loggedIn w = false ->
  _chkServerLogin_tick timer w = (Throw (ReferenceError "i is not defined"), w).
Proof.
  intros Hk Hli. unfold _chkServerLogin_tick.
  rewrite (bind_ok _ _ w w (intervals w)) by reflexivity. rewrite Hk.
  rewrite (bind_ok _ _ w w (loggedIn w)) by reflexivity. rewrite Hli.
  reflexivity.
Qed.

(** ** Correlation keys *)

Lemma to_int_not_nil (n : Z) :
  Z.to_int n <> Decimal.Pos Decimal.Nil /\ Z.to_int n <> Decimal.Neg Decimal.Nil.
Proof.
  destruct n as [|q|q]; cbn; split; try discriminate.
  - intros H. injection H as H. apply (DecimalPos.Unsigned.to_uint_nonnil q H).
  - intros H. injection H as H. apply (DecimalPos.Unsigned.to_uint_nonnil q H).
Qed.

Lemma toString_inj (a b : Z) : toString a = toString b -> a = b.
Proof.
  unfold toString. intros H.
  destruct (to_int_not_nil a) as [Ha1 Ha2], (to_int_not_nil b) as [Hb1 Hb2].
  pose proof (NilZero.isi _ Ha1 Ha2) as Ia.
  pose proof (NilZero.isi _ Hb1 Hb2) as Ib.
  rewrite H in Ia. rewrite Ia in Ib. injection Ib as Ib.
  apply DecimalZ.to_int_inj, Ib.
Qed.

Lemma append_inj_l (a b c : string) : (a ++ b = a ++ c)%string -> b = c.
Proof.
  induction a as [|x a IH]; cbn; intros H; [exact H|].
  injection H as H. apply IH, H.
Qed.

Lemma msgId_of_inj (name : string) (t1 t2 : Z) :
  msgId_of name t1 = msgId_of name t2 -> t1 = t2.
Proof.
  unfold msgId_of. intros H.
  apply toString_inj, (append_inj_l name), (append_inj_l "challenge"), H.
Qed.

(** *** Who is logged in is [coder1] *)

Lemma call_named (cb : callback) (v : jsval) :
  hoare named_when_logged_in (call cb v) named_when_logged_in.
Proof.
  destruct cb; [|hoare_auto|hoare_auto].
  intros w _. unfold exec, call.
  destruct (is_nullish v); intros _; reflexivity.
Qed.

Lemma login_named : hoare named_when_logged_in login named_when_logged_in.
Proof. intros w H. unfold exec. rewrite login_eq. exact H. Qed.

Lemma logout_named : hoare named_when_logged_in logout named_when_logged_in.
Proof.
  intros w _. unfold exec, logout.
  erewrite bind_ok by reflexivity.
  rewrite (bind_ok _ _ _ _ (_socket w)) by reflexivity.
  destruct (_socket w); intros H; discriminate H.
Qed.

#[local] Hint Extern 1 (hoare named_when_logged_in (call _ _) _) =>
  apply call_named : hoare.
#[local] Hint Extern 1 (hoare named_when_logged_in login _) =>
  apply login_named : hoare.
#[local] Hint Extern 1 (hoare named_when_logged_in logout _) =>
  apply logout_named : hoare.

Lemma _handleServerMsg_step_named (msg : jsval) :
  hoare named_when_logged_in (_handleServerMsg_step msg) named_when_logged_in.
Proof.
  unfold _handleServerMsg_step, _handleHeartbeat, setTimeout_resetConnection,
    clearTimeout.
  hoare_auto.
Qed.

Lemma _handleServerMsg_named (buffer : string) :
  hoare named_when_logged_in (_handleServerMsg buffer) named_when_logged_in.
Proof.
  apply _handleServerMsg_hoare.
  - intros w logs _ H. exact H.
  - apply _handleServerMsg_step_named.
Qed.

Lemma _resetConnection_named :
  hoare named_when_logged_in _resetConnection named_when_logged_in.
Proof. unfold _resetConnection. hoare_auto. Qed.

#[local] Hint Extern 1 (hoare named_when_logged_in (_handleServerMsg _) _) =>
  apply _handleServerMsg_named : hoare.
#[local] Hint Extern 1 (hoare named_when_logged_in _resetConnection _) =>
  apply _resetConnection_named : hoare.

Lemma step_named (ev : event) :
  hoare named_when_logged_in (step ev) named_when_logged_in.
Proof. unfold step. destruct ev; cbn [handler]; unfold clearTimeout; hoare_auto. Qed.

Lemma run_named (evs : list event) :
  hoare named_when_logged_in (run evs) named_when_logged_in.
Proof. apply run_hoare. intros ev _. apply step_named. Qed.

(** C9, amended.  In any two worlds that a connection reaches, both
    logged in, whose clocks read different times, [_nextMsgId()] makes
    different ids. *)
Theorem C9_keys_differ_across_ticks (port : Z) (ip : string)
    (evs1 evs2 : list event) :
  let w1 := exec (run evs1) (constructor port ip) in
  let w2 := exec (run evs2) (constructor port ip) in
  loggedIn w1 = true ->
  loggedIn w2 = true ->
  clock w1 <> clock w2 ->
  outcome _nextMsgId w1 <> outcome _nextMsgId w2.
Proof.
  intros w1 w2 H1 H2 Hclock.
  assert (N1 : loginName w1 = "coder1")
    by (apply (run_named evs1 (constructor port ip)); [discriminate | exact H1]).
  assert (N2 : loginName w2 = "coder1")
    by (apply (run_named evs2 (constructor port ip)); [discriminate | exact H2]).
  assert (O : forall w, outcome _nextMsgId w = Ok (msgId_of (loginName w) (clock w)))
    by reflexivity.
  rewrite !O, N1, N2. intros E.
  apply Hclock, (msgId_of_inj "coder1"). congruence.
Qed.

(** ** Records that are dropped *)

(** A record that is not [null] and whose [type] is none of [welcome],
    [heartbeat], [msg] (absent and non-string included) is logged as an
    error and changes nothing else. *)
Lemma unrecognized_record_discarded (msg type : jsval) (w : world) :
  get_prop msg "type" = Ok type ->
  recognized_type type = false ->
  let w' := exec (_handleServerMsg_step msg) w in
  outcome (_handleServerMsg_step msg) w = Ok tt /\
  _pendingReq w' = _pendingReq w /\
  invocations (output w') = invocations (output w) /\
  In (Log LogError (JStr ("Unrecognized message encountered: " ++ JSON_stringify msg)))
     (output w').
Proof.
  intros Hty Hrec. unfold recognized_type in Hrec.
  apply orb_false_iff in Hrec. destruct Hrec as [Hrec H3].
  apply orb_false_iff in Hrec. destruct Hrec as [H1 H2].
  cbv zeta. unfold outcome, exec, _handleServerMsg_step.
  rewrite (bind_ok _ _ w w type) by (unfold lift; rewrite Hty; reflexivity).
  rewrite H1, H2, H3.
  destruct (is_undefined type || negb (is_string type)); cbn;
    rewrite !invocations_app; cbn; rewrite ?app_nil_r;
    repeat split; apply in_or_app; right; cbn; auto.
Qed.

Lemma _getMsgId_invalid (gs : list (string * jsval)) (w : world) :
  valid_reply (assoc "reply" gs) = false ->
  _getMsgId (JObj gs) w
  = (Ok None,
     set_output
       (output w ++
        [Log LogError (JStr ("Message received with invalid or no message id: "
                             ++ JSON_stringify (JObj gs)))]) w).
Proof.
  intros Hinv. unfold _getMsgId.
  erewrite bind_ok by reflexivity. cbn [fst].
  destruct (assoc "reply" gs); try reflexivity.
  rewrite Hinv. reflexivity.
Qed.

(** A [msg] record whose payload is an object with [reply] absent, not a
    string or not starting with [challenge] is logged as an error and
    changes nothing else. *)
Lemma invalid_reply_discarded (gs : list (string * jsval)) (w : world) :
  valid_reply (assoc "reply" gs) = false ->
  let msg := JObj [("type", JStr "msg"); ("msg", JObj gs)] in
  let w' := exec (_handleServerMsg_step msg) w in
  outcome (_handleServerMsg_step msg) w = Ok tt /\
  _pendingReq w' = _pendingReq w /\
  invocations (output w') = invocations (output w) /\
  exists text rest, output w' = (output w ++ Log LogError text :: rest)%list.
Proof.
  intros Hinv msg. cbv zeta. unfold outcome, exec, msg.
  rewrite (_handleServerMsg_step_msg gs w). cbv zeta.
  assert (R : forall kind Kind,
             _handleResponseMsg kind Kind (JObj gs) w
             = (Ok tt,
                set_output
                  (output w ++
                   [Log LogError (JStr ("Message received with invalid or no message id: "
                                        ++ JSON_stringify (JObj gs)));
                    Log LogError (JStr (Kind ++ " message received with invalid or no message id: "
                                        ++ JSON_stringify (JObj gs)))]) w)).
  { intros kind Kind. unfold _handleResponseMsg.
    rewrite (bind_ok _ _ _ _ _ (_getMsgId_invalid gs w Hinv)).
    unfold logError, emit, update. cbn [output set_output].
    rewrite <- app_assoc. reflexivity. }
  destruct (is_undefined (assoc "count" gs)); cbn [negb];
    [destruct (is_undefined (assoc "time" gs)); cbn [negb]|].
  - cbn. rewrite invocations_app. cbn. rewrite app_nil_r. eauto 6.
  - unfold _handleTimeMsg. rewrite R. cbn.
    rewrite invocations_app. cbn. rewrite app_nil_r. eauto 6.
  - unfold _handleCountMsg. rewrite R. cbn.
    rewrite invocations_app. cbn. rewrite app_nil_r. eauto 6.
Qed.

Lemma find_index_spec (id : string) (tbl : list entry) :
  forall i j, find_index id tbl i = Some j ->
    exists e, nth_error tbl (j - i) = Some e /\ reqId e = id /\ (i <= j)%nat.
Proof.
  induction tbl as [|x tbl IH]; intros i j H; cbn in H; [discriminate|].
  destruct (reqId x =? id)%string eqn:E.
  - injection H as <-. exists x. rewrite Nat.sub_diag.
    apply String.eqb_eq in E. auto.
  - destruct (IH (S i) j H) as (e & Hn & He & Hle).
    exists e. replace (j - i)%nat with (S (j - S i)) by lia. cbn. auto with arith.
Qed.

(** A response reaches at most one closure, that of a row whose id is
    the response's [reply]. *)
Lemma _handleResponseMsg_only_matching (kind Kind : string) (msg : jsval)
    (w : world) :
  let w' := exec (_handleResponseMsg kind Kind msg) w in
  invocations (output w') = invocations (output w) \/
  exists e, In e (_pendingReq w) /\
            get_prop msg "reply" = Ok (JStr (reqId e)) /\
            invocations (output w')
            = (invocations (output w) ++ [(reqCallback e, msg)])%list.
Proof.
  cbv zeta. unfold exec, _handleResponseMsg, _getMsgId.
  destruct (get_prop msg "reply") as [reply|err] eqn:Hreply.
  2:{ left. unfold bind, lift. reflexivity. }
  rewrite (bind_ok (bind (lift (Ok reply)) _) _ w
             (if valid_reply reply then w
              else set_output (output w ++
                     [Log LogError (JStr ("Message received with invalid or no message id: "
                                          ++ JSON_stringify msg))]) w)
             (if valid_reply reply
              then match reply with JStr s => Some s | _ => None end
              else None)).
  2:{ destruct reply; try reflexivity.
      unfold bind at 1, lift. destruct (valid_reply (JStr s)); reflexivity. }
  destruct (valid_reply reply) eqn:Hvalid.
  2:{ left. cbn. rewrite !invocations_app. cbn. rewrite !app_nil_r. reflexivity. }
  destruct reply as [| | | |s| | |]; try discriminate Hvalid.
  unfold _getPendingReq.
  rewrite (bind_ok (bind (read _pendingReq) _) _ w
             (match find_index s (_pendingReq w) 0 with
              | Some i => set_pendingReq (remove_at i (_pendingReq w)) w
              | None => w
              end)
             (match find_index s (_pendingReq w) 0 with
              | Some i => option_map reqCallback (nth_error (_pendingReq w) i)
              | None => None
              end)).
  2:{ rewrite (bind_ok _ _ w w (_pendingReq w)) by reflexivity.
      destruct (find_index s (_pendingReq w) 0) as [i|] eqn:Hf; [|reflexivity].
      destruct (find_index_spec _ _ _ _ Hf) as (e & Hn & _ & _).
      rewrite Nat.sub_0_r in Hn.
      rewrite (bind_ok _ _ _ _ _ (splice1_eq _ _ _ Hn)), Hn. reflexivity. }
  destruct (find_index s (_pendingReq w) 0) as [i|] eqn:Hf.
  - destruct (find_index_spec _ _ _ _ Hf) as (e & Hn & He & _).
    rewrite Nat.sub_0_r in Hn. rewrite Hn. cbn [option_map].
    right. exists e. split; [apply (nth_error_In _ _ Hn)|].
    split; [rewrite He; reflexivity|].
    erewrite bind_ok by reflexivity.
    match goal with
    | |- invocations (output (snd (call ?cb ?v ?w0))) = _ =>
        change (snd (call cb v w0)) with (exec (call cb v) w0)
    end.
    rewrite call_invocations. cbn. rewrite invocations_app. cbn.
    rewrite app_nil_r. reflexivity.
  - left. cbn. rewrite invocations_app. cbn. rewrite app_nil_r. reflexivity.
Qed.

(** ** The login row *)

(** The acknowledgment of a login calls the closure of the login row and
    leaves the row in the table. *)
Lemma _handleLoginMsg_keeps_row (msg : jsval) (w : world) (e : entry) :
  _pendingReq w = [e] ->
  is_login_row e = true ->
  let w' := exec (_handleLoginMsg msg) w in
  _pendingReq w' = [e] /\
  invocations (output w') = (invocations (output w) ++ [(reqCallback e, JNull)])%list.
Proof.
  intros Htbl Hrow. cbv zeta. unfold exec, _handleLoginMsg.
  rewrite (bind_ok _ _ w w (_pendingReq w)) by reflexivity. rewrite Htbl.
  unfold is_login_row in Hrow. rewrite Hrow. cbn [negb].
  fold (exec (call (reqCallback e) JNull) w).
  split; [|apply call_invocations].
  pose proof (call_frame (reqCallback e) JNull (frame_of w) w eq_refl) as F.
  apply frame_of_pendingReq in F. rewrite F. exact Htbl.
Qed.

(** ** The timeout sweep *)

Lemma In_remove_at (e x : entry) (l : list entry) :
  forall k, In e l -> nth_error l k = Some x -> e <> x -> In e (remove_at k l).
Proof.
  unfold remove_at. induction l as [|y l IH]; intros k Hin Hn Hne; [destruct Hin|].
  destruct k as [|k]; cbn in *.
  - injection Hn as ->. destruct Hin as [->|Hin]; [congruence | exact Hin].
  - destruct Hin as [->|Hin]; [left; reflexivity | right; apply IH; assumption].
Qed.

(** A row that has not timed out survives a sweep. *)
Lemma sweep_keeps_young (timestamp : Z) (e : entry) :
  expired timestamp e = false ->
  hoare (fun w => In e (_pendingReq w)) (_chkPendingReq timestamp)
        (fun w => In e (_pendingReq w)).
Proof.
  intros Hyoung. unfold _chkPendingReq.
  apply hoare_forEach. intros x k. unfold _chkPendingReq_visit.
  destruct (timestamp - reqTime x >? 5000) eqn:Hx.
  - intros w [Hin Hn]. unfold exec.
    rewrite (bind_ok _ _ _ _ _ (splice1_eq k x w Hn)).
    match goal with
    | |- In e (_pendingReq (snd (call ?cb ?v ?w0))) =>
        pose proof (call_frame cb v (frame_of w0) w0 eq_refl) as F;
        apply frame_of_pendingReq in F; unfold exec in F; rewrite F
    end.
    cbn. apply (In_remove_at e x _ k Hin Hn).
    intros ->. unfold expired in Hyoung. congruence.
  - intros w [Hin _]. exact Hin.
Qed.

(** ** A request closure is called at most once *)

Lemma called_count_app (p : nat) (a b : list effect) :
  called_count p (a ++ b) = (called_count p a + called_count p b)%nat.
Proof.
  unfold called_count. rewrite invocations_app, filter_app, length_app. reflexivity.
Qed.

Lemma invocations_logs (l : list effect) :
  forallb is_not_call l = true -> invocations l = [].
Proof.
  induction l as [|e l IH]; [reflexivity|]. cbn. intros H.
  apply andb_true_iff in H. destruct H as [He Hl].
  destruct e; try discriminate He; apply IH, Hl.
Qed.

Lemma called_count_logs (p : nat) (l : list effect) :
  forallb is_not_call l = true -> called_count p l = 0%nat.
Proof. intros H. unfold called_count. rewrite (invocations_logs l H). reflexivity. Qed.

Lemma pending_count_app (p : nat) (a b : list entry) :
  pending_count p (a ++ b) = (pending_count p a + pending_count p b)%nat.
Proof. unfold pending_count. rewrite filter_app, length_app. reflexivity. Qed.

Lemma pending_count_one (p : nat) (e : entry) :
  pending_count p [e] = b2n (closure_is p (reqCallback e)).
Proof. unfold pending_count. cbn. destruct (closure_is p (reqCallback e)); reflexivity. Qed.

Lemma pending_count_remove_at (p : nat) (l : list entry) :
  forall k x, nth_error l k = Some x ->
    pending_count p l
    = (b2n (closure_is p (reqCallback x)) + pending_count p (remove_at k l))%nat.
Proof.
  induction l as [|y l IH]; intros [|k] x H; try discriminate.
  - injection H as ->. change (remove_at 0 (x :: l)) with l.
    change (x :: l) with ([x] ++ l)%list.
    rewrite pending_count_app, pending_count_one. reflexivity.
  - cbn in H. change (remove_at (S k) (y :: l)) with ([y] ++ remove_at k l)%list.
    change (y :: l) with ([y] ++ l)%list.
    rewrite !pending_count_app, (IH k x H). lia.
Qed.

Lemma In_remove_at_incl (e : entry) (l : list entry) (k : nat) :
  In e (remove_at k l) -> In e l.
Proof.
  unfold remove_at. intros H. apply in_app_or in H. destruct H as [H | H].
  - rewrite <- (firstn_skipn k l). apply in_or_app. left. exact H.
  - rewrite <- (firstn_skipn (S k) l). apply in_or_app. right. exact H.
Qed.

Lemma call_called_count (cb : callback) (v : jsval) (w : world) (p : nat) :
  called_count p (output (exec (call cb v) w))
  = (called_count p (output w) + b2n (closure_is p cb))%nat.
Proof.
  unfold called_count. rewrite call_invocations, filter_app, length_app.
  cbn. destruct (closure_is p cb); reflexivity.
Qed.

Lemma call_request_loggedIn (cb : callback) (v : jsval) (b : bool) :
  (forall p, cb <> CbLogin p) ->
  hoare (fun w => loggedIn w = b) (call cb v) (fun w => loggedIn w = b).
Proof.
  intros Hcb. destruct cb as [p|p|p]; [destruct (Hcb p eq_refl)| |]; hoare_auto.
Qed.

Lemma frame_of_fields (w w' : world) :
  frame_of w' = frame_of w ->
  _pendingReq w' = _pendingReq w /\ _socket w' = _socket w /\
  intervals w' = intervals w /\ next_handle w' = next_handle w.
Proof. unfold frame_of. intros H. injection H as -> -> _ _ _ -> -> _ _. auto. Qed.

(** Calling a closure that is counted nowhere else keeps the
    invariant. *)
Lemma call_at_most_once (cb : callback) (v : jsval) (w : world) :
  (forall p, (uses p w + b2n (closure_is p cb) <= 1)%nat) ->
  (forall p, (next_handle w <= p)%nat ->
             (uses p w + b2n (closure_is p cb))%nat = 0%nat) ->
  typed w ->
  (_socket w <> None \/ ((forall p, cb <> CbLogin p) /\ connected w)) ->
  at_most_once (exec (call cb v) w).
Proof.
  intros H1 H2 H3 H4.
  pose proof (call_frame cb v (frame_of w) w eq_refl) as F.
  apply frame_of_fields in F. destruct F as (Ft & Fs & Fi & Fn).
  assert (U : forall p, uses p (exec (call cb v) w)
                        = (uses p w + b2n (closure_is p cb))%nat).
  { intros p. unfold uses. rewrite Ft, Fi, call_called_count. lia. }
  unfold at_most_once, counted, typed, connected. rewrite Ft, Fs, Fn, Fi.
  split; [split; intros p; [|intros Hp]; rewrite U; auto|].
  split; [exact H3|].
  destruct H4 as [Hs | (Hcb & Hl & Ht)].
  - split; intros _; exact Hs.
  - split; [|exact Ht]. intros Hli. apply Hl.
    rewrite <- Hli. symmetry.
    apply (call_request_loggedIn cb v (loggedIn w) Hcb w eq_refl).
Qed.

Lemma at_most_once_logs (w : world) (logs : list effect) :
  forallb is_not_call logs = true ->
  at_most_once w -> at_most_once (set_output (output w ++ logs) w).
Proof.
  intros Hlogs ((H1 & H2) & H3 & H4).
  assert (U : forall p, uses p (set_output (output w ++ logs) w) = uses p w).
  { intros p. unfold uses. cbn [output set_output _pendingReq intervals].
    rewrite called_count_app, (called_count_logs p logs Hlogs). lia. }
  split; [|split; assumption].
  split; intros p; [|intros Hp]; rewrite U; auto.
Qed.

(** A step that makes the promises [fresh] and puts each of their
    closures in one place at most. *)
Lemma at_most_once_step (w w' : world) (fresh : nat -> bool) :
  at_most_once w ->
  (next_handle w <= next_handle w')%nat ->
  (forall q, fresh q = true -> (next_handle w <= q < next_handle w')%nat) ->
  (forall q, (uses q w' <= uses q w + b2n (fresh q))%nat) ->
  typed w' -> connected w' ->
  at_most_once w'.
Proof.
  intros ((H1 & H2) & _ & _) Hn Hfresh Hu Ht Hc.
  split; [|split; assumption].
  split.
  - intros q. specialize (Hu q). destruct (fresh q) eqn:Hq; cbn in Hu.
    + rewrite (H2 q) in Hu by (apply Hfresh, Hq). lia.
    + specialize (H1 q). lia.
  - intros q Hq. specialize (Hu q). destruct (fresh q) eqn:Hf; cbn in Hu.
    + apply Hfresh in Hf. lia.
    + rewrite (H2 q) in Hu by lia. lia.
Qed.

(** A row taken out of the table and its closure called: the way of the
    sweep and of a matched response. *)
Lemma take_and_call (w : world) (k : nat) (x : entry) (v : jsval)
    (logs : list effect) :
  at_most_once w ->
  nth_error (_pendingReq w) k = Some x ->
  forallb is_not_call logs = true ->
  at_most_once
    (exec (call (reqCallback x) v)
       (set_output (output w ++ logs)
          (set_pendingReq (remove_at k (_pendingReq w)) w))).
Proof.
  intros ((H1 & H2) & (H3 & H3') & (H4 & H5)) Hx Hlogs.
  assert (Hne : _pendingReq w <> []) by (intros E; rewrite E in Hx; destruct k; discriminate).
  assert (U : forall p,
             (uses p (set_output (output w ++ logs)
                        (set_pendingReq (remove_at k (_pendingReq w)) w))
              + b2n (closure_is p (reqCallback x)))%nat = uses p w).
  { intros p. unfold uses. cbn [output set_output _pendingReq set_pendingReq intervals].
    rewrite called_count_app, (called_count_logs p logs Hlogs).
    rewrite (pending_count_remove_at p _ k x Hx). lia. }
  apply call_at_most_once.
  - intros p. rewrite U. apply H1.
  - intros p Hp. rewrite U. apply H2, Hp.
  - split; [|exact H3'].
    cbn [_pendingReq set_output set_pendingReq]. intros e He.
    apply H3, (In_remove_at_incl e _ k He).
  - left. apply H5, Hne.
Qed.

Lemma take_and_call_quiet (w : world) (k : nat) (x : entry) (v : jsval) :
  at_most_once w ->
  nth_error (_pendingReq w) k = Some x ->
  at_most_once
    (exec (call (reqCallback x) v) (set_pendingReq (remove_at k (_pendingReq w)) w)).
Proof.
  intros Hw Hx.
  pose proof (take_and_call w k x v [] Hw Hx eq_refl) as H.
  rewrite app_nil_r in H.
  change (output w) with (output (set_pendingReq (remove_at k (_pendingReq w)) w)) in H.
  rewrite set_output_same in H. exact H.
Qed.

(** Peels the effects that are no calls off the world of the goal. *)
Ltac peel_logs :=
  unfold logError, logMsg, logSent, logReceived, emit, bind, update, throw, ret;
  cbn [fst snd];
  repeat match goal with
         | |- at_most_once (set_output (?o ++ ?l) ?w0) =>
             apply (at_most_once_logs w0 l); [reflexivity|]
         end.

Lemma _chkPendingReq_at_most_once (timestamp : Z) :
  hoare at_most_once (_chkPendingReq timestamp) at_most_once.
Proof.
  unfold _chkPendingReq. apply hoare_forEach. intros x k.
  unfold _chkPendingReq_visit.
  destruct (timestamp - reqTime x >? 5000).
  - intros w [Hw Hx]. unfold exec.
    rewrite (bind_ok _ _ _ _ _ (splice1_eq k x w Hx)).
    apply (take_and_call_quiet w k x _ Hw Hx).
  - intros w [Hw _]. exact Hw.
Qed.

Lemma _handleResponseMsg_at_most_once (kind Kind : string) (msg : jsval) :
  hoare at_most_once (_handleResponseMsg kind Kind msg) at_most_once.
Proof.
  intros w Hw. unfold exec, _handleResponseMsg, _getMsgId.
  destruct (get_prop msg "reply") as [reply|err] eqn:Hreply; [|exact Hw].
  rewrite (bind_ok (bind (lift (Ok reply)) _) _ w
             (if valid_reply reply then w
              else set_output (output w ++
                     [Log LogError (JStr ("Message received with invalid or no message id: "
                                          ++ JSON_stringify msg))]) w)
             (if valid_reply reply
              then match reply with JStr s => Some s | _ => None end
              else None)).
  2:{ destruct reply; try reflexivity.
      unfold bind at 1, lift. destruct (valid_reply (JStr s)); reflexivity. }
  destruct (valid_reply reply) eqn:Hvalid.
  2:{ peel_logs. exact Hw. }
  destruct reply as [| | | |s| | |]; try discriminate Hvalid.
  unfold _getPendingReq.
  rewrite (bind_ok (bind (read _pendingReq) _) _ w
             (match find_index s (_pendingReq w) 0 with
              | Some i => set_pendingReq (remove_at i (_pendingReq w)) w
              | None => w
              end)
             (match find_index s (_pendingReq w) 0 with
              | Some i => option_map reqCallback (nth_error (_pendingReq w) i)
              | None => None
              end)).
  2:{ rewrite (bind_ok _ _ w w (_pendingReq w)) by reflexivity.
      destruct (find_index s (_pendingReq w) 0) as [i|] eqn:Hf; [|reflexivity].
      destruct (find_index_spec _ _ _ _ Hf) as (e & Hn & _ & _).
      rewrite Nat.sub_0_r in Hn.
      rewrite (bind_ok _ _ _ _ _ (splice1_eq _ _ _ Hn)), Hn. reflexivity. }
  destruct (find_index s (_pendingReq w) 0) as [i|] eqn:Hf.
  - destruct (find_index_spec _ _ _ _ Hf) as (e & Hn & _ & _).
    rewrite Nat.sub_0_r in Hn. rewrite Hn. cbn [option_map].
    erewrite bind_ok by reflexivity.
    apply (take_and_call w i e msg
             [Log LogGeneral (JStr ("Pending request found for " ++ kind
                                    ++ " response with msgId: " ++ s))]
             Hw Hn eq_refl).
  - peel_logs. exact Hw.
Qed.

Lemma _handleLoginMsg_at_most_once (msg : jsval) :
  hoare at_most_once (_handleLoginMsg msg) at_most_once.
Proof.
  intros w Hw. unfold exec, _handleLoginMsg.
  rewrite (bind_ok _ _ w w (_pendingReq w)) by reflexivity.
  destruct (_pendingReq w) as [|e [|e' rest]] eqn:Htbl;
    try (peel_logs; exact Hw).
  destruct (negb (reqType e =? msgType _typLogin)%string) eqn:Hty;
    [peel_logs; exact Hw|].
  apply negb_false_iff in Hty.
  destruct Hw as ((H1 & H2) & (H3 & H3') & (H4 & H5)).
  assert (Hc : forall p, closure_is p (reqCallback e) = false).
  { apply H3; [rewrite Htbl; left; reflexivity | exact Hty]. }
  apply call_at_most_once.
  - intros p. rewrite Hc. cbn. rewrite Nat.add_0_r. apply H1.
  - intros p Hp. rewrite Hc. cbn. rewrite Nat.add_0_r. apply H2, Hp.
  - split; assumption.
  - left. apply H5. rewrite Htbl. discriminate.
Qed.

Ltac count_logs :=
  rewrite ?called_count_app;
  repeat match goal with
         | |- context [called_count ?q (?a :: ?l)] =>
             rewrite (called_count_logs q (a :: l)) by reflexivity
         end.

(** [login()], [logout()] and a reset keep the invariant. *)
Lemma login_at_most_once : hoare at_most_once login at_most_once.
Proof.
  intros w Hw. unfold exec. rewrite login_eq. cbn [snd].
  apply (at_most_once_step w _ (fun _ => false) Hw).
  - cbn [next_handle]. lia.
  - discriminate.
  - intros q. unfold uses. cbn [_pendingReq intervals output].
    count_logs.
    cbn. lia.
  - split.
    + cbn [_pendingReq]. intros e [<-|[]] _ p. reflexivity.
    + cbn [intervals]. apply Hw.
  - split; intros _; cbn [_socket]; discriminate.
Qed.

Lemma logout_at_most_once : hoare at_most_once logout at_most_once.
Proof.
  intros w Hw. unfold exec, logout, new_handle, emit, bind, read, update, ret.
  cbn.
  destruct (_socket w); cbn [snd];
    apply (at_most_once_step w _ (fun _ => false) Hw);
    try (cbn; lia); try discriminate;
    try (intros q; unfold uses; cbn [_pendingReq intervals output set_output
           set_pendingReq set_loggedIn set_loginName set_socket set_next_handle];
         count_logs; cbn; lia);
    try (split; [intros e [] | apply Hw]);
    split; intros H; cbn in H; congruence.
Qed.

Lemma filter_map_count (q : nat) (f : entry -> jsval) (g : entry -> bool)
    (l : list entry) :
  (List.length
     (filter (fun c : callback * jsval => closure_is q (fst c))
        (map (fun e => (reqCallback e, f e)) (filter g l)))
   <= pending_count q l)%nat.
Proof.
  unfold pending_count. induction l as [|e l IH]; [apply le_n|].
  cbn [filter]. destruct (g e); cbn [map filter fst];
    destruct (closure_is q (reqCallback e)); cbn [List.length]; lia.
Qed.

Lemma _resetConnection_at_most_once :
  hoare at_most_once _resetConnection at_most_once.
Proof.
  intros w Hw. destruct (_socket w) as [sock|] eqn:Hs.
  - unfold exec at 1. rewrite (_resetConnection_eq w sock Hs). cbn [snd].
    unfold exec. rewrite login_eq. cbn [snd].
    set (w0 := set_reset true (set_loggedIn false (set_output
           (output w ++ [Log LogGeneral (JStr "Resetting Server Connection")]) w))).
    pose proof (notify_all_frame (_pendingReq w) w0) as F.
    apply frame_of_fields in F. destruct F as (Ft & Fs & Fi & Fn).
    pose proof (notify_all_invocations (_pendingReq w) w0) as Hinv.
    apply (at_most_once_step w _ (fun _ => false) Hw).
    + cbn [next_handle set_socket set_output]. rewrite Fn. cbn. lia.
    + discriminate.
    + intros q. unfold uses.
      cbn [_pendingReq intervals output set_socket set_output].
      match goal with
      | |- context [pending_count q [?e]] =>
          change (pending_count q [e]) with 0%nat
      end.
      rewrite Fi. count_logs.
      unfold called_count at 1. rewrite Hinv, filter_app, length_app.
      fold (called_count q (output w0)).
      pose proof (filter_map_count q reset_error (fun e => negb (is_login_row e))
                    (_pendingReq w)) as Hle.
      unfold w0. cbn [intervals output set_reset set_loggedIn set_output].
      count_logs. lia.
    + split.
      * cbn [_pendingReq]. intros e [<-|[]] _ p. reflexivity.
      * cbn [intervals set_socket set_output]. rewrite Fi. apply Hw.
    + split; intros _; cbn [_socket]; discriminate.
  - assert (Ht : _pendingReq w = []).
    { destruct (_pendingReq w) eqn:E; [reflexivity|].
      destruct Hw as (_ & _ & _ & H5). exfalso.
      apply H5; [rewrite E; discriminate | exact Hs]. }
    unfold exec, _resetConnection.
    do 3 (erewrite bind_ok by reflexivity).
    erewrite bind_ok by apply forEach_notify.
    cbn [_pendingReq set_reset set_loggedIn set_output]. rewrite Ht.
    unfold notify_all. cbn [fold_left].
    unfold bind, read. cbn [_socket set_reset set_loggedIn set_output fst snd].
    rewrite Hs. unfold throw. cbn [snd].
    apply (at_most_once_step w _ (fun _ => false) Hw).
    + apply le_n.
    + discriminate.
    + intros q. unfold uses.
      cbn [_pendingReq intervals output set_reset set_loggedIn set_output].
      count_logs. lia.
    + exact (proj1 (proj2 Hw)).
    + split; intros H; cbn in H; [discriminate | congruence].
Qed.


(** The reaction to a passed readiness check while a socket is held. *)
Lemma _sendServerReq_react_fulfilled (req : jsval) (type : string)
    (cb : callback) (v : jsval) (w : world) (sock : nat) :
  _socket w = Some sock ->
  let K := msgId_of (loginName w) (clock w) in
  _sendServerReq_react req type cb (Fulfilled v) w
  = (Ok tt,
     set_output
       (output w ++
        [Log LogGeneral (JStr ("Pending request info pushed - msgId: " ++ K
                               ++ ", type: " ++ type ++ ", callback provided: true"));
         Write sock (JSON_stringify (assign req "id" (JStr K)));
         Log LogSent (JStr (JSON_stringify (assign req "id" (JStr K))))])
       (set_pendingReq (_pendingReq w ++ [mkEntry K type cb (clock w)]) w)).
Proof.
  intros Hsock. cbv zeta.
  unfold _sendServerReq_react, try_catch, _sendServerReq_then.
  do 4 (erewrite bind_ok by reflexivity).
  unfold socket_write.
  erewrite (bind_ok (bind (read _socket) _)).
  2:{ erewrite bind_ok by reflexivity. cbn [_socket set_output set_pendingReq].
      rewrite Hsock. reflexivity. }
  cbn. rewrite <- !app_assoc. reflexivity.
Qed.

Lemma some_socket (w : world) :
  _socket w <> None -> exists sock, _socket w = Some sock.
Proof. destruct (_socket w) as [sock|]; [eauto | congruence]. Qed.

Lemma typed_push (w : world) (e : entry) (out : list effect) :
  typed w ->
  (is_login_row e = true -> forall p, closure_is p (reqCallback e) = false) ->
  typed (set_output out (set_pendingReq (_pendingReq w ++ [e]) w)).
Proof.
  intros (H3 & H3') He. split; [|exact H3'].
  cbn [_pendingReq set_output set_pendingReq]. intros x Hx Hty.
  apply in_app_or in Hx. destruct Hx as [Hx|[<-|[]]]; [apply H3|apply He]; assumption.
Qed.

(** A request of a type other than the login type, made with the closure
    of a promise just created. *)
Lemma _sendServerReq_at_most_once (req : jsval) (type : string)
    (cb : callback) (w : world) :
  String.eqb type (msgType _typLogin) = false ->
  (forall q, closure_is q cb = Nat.eqb (next_handle w) q) ->
  (forall q, cb <> CbLogin q) ->
  at_most_once w ->
  at_most_once
    (exec (_sendServerReq req type cb) (set_next_handle (S (next_handle w)) w)).
Proof.
  intros Hty Hcb Hreq Hw.
  set (W := set_next_handle (S (next_handle w)) w).
  assert (Hfresh : forall q, Nat.eqb (next_handle w) q = true ->
                     (next_handle w <= q < S (next_handle w))%nat).
  { intros q Hq. apply Nat.eqb_eq in Hq. lia. }
  destruct (loggedIn w) eqn:Hli.
  - destruct (some_socket w (proj1 (proj2 (proj2 Hw)) Hli)) as (sock & Hs).
    unfold exec. rewrite (_sendServerReq_logged_in req type cb W sock Hli Hs).
    cbn [snd].
    apply (at_most_once_step w _ (Nat.eqb (next_handle w)) Hw).
    + cbn. lia.
    + exact Hfresh.
    + intros q. unfold uses, W.
      cbn [_pendingReq intervals output set_output set_pendingReq set_next_handle].
      count_logs. rewrite pending_count_app, pending_count_one.
      cbn [reqCallback]. rewrite Hcb. lia.
    + apply typed_push; [exact (proj1 (proj2 Hw))|].
      unfold is_login_row. cbn [reqType]. congruence.
    + split; intros _; cbn; congruence.
  - unfold exec, _sendServerReq. destruct (reset w) eqn:Hrs.
    + rewrite (bind_ok _ _ _ _ _ (_chkServerLogin_resetting _ W Hli Hrs)).
      cbn [_sendServerReq_react ret snd].
      apply (at_most_once_step w _ (Nat.eqb (next_handle w)) Hw).
      * cbn. lia.
      * intros q Hq. apply Hfresh in Hq. cbn. lia.
      * intros q. unfold uses, W.
        cbn [_pendingReq intervals output set_intervals set_next_handle].
        unfold polling_count. rewrite filter_app, length_app.
        cbn [filter snd pollSettled pollCallback negb andb].
        rewrite Hcb. destruct (Nat.eqb (next_handle w) q); cbn; lia.
      * destruct Hw as (_ & (H3 & H3') & _). split; [exact H3|].
        cbn [intervals set_intervals set_next_handle]. intros t Ht.
        apply in_app_or in Ht. destruct Ht as [Ht|[<-|[]]]; [apply H3', Ht|].
        cbn [snd pollType]. congruence.
      * exact (proj2 (proj2 Hw)).
    + rewrite (bind_ok _ _ _ _ _ (_chkServerLogin_not_ready _ W Hli Hrs)).
      cbn [_sendServerReq_react].
      destruct Hw as ((H1 & H2) & Ht & Hc).
      apply call_at_most_once.
      * intros q. rewrite Hcb.
        destruct (Nat.eqb (next_handle w) q) eqn:E; cbn [b2n].
        -- apply Nat.eqb_eq in E.
           change (uses q W) with (uses q w). rewrite (H2 q) by lia. lia.
        -- change (uses q W) with (uses q w). specialize (H1 q). lia.
      * intros q Hq. cbn in Hq. rewrite Hcb.
        change (uses q W) with (uses q w). rewrite (H2 q) by lia.
        destruct (Nat.eqb_spec (next_handle w) q); [lia | reflexivity].
      * exact Ht.
      * right. split; [exact Hreq | exact Hc].
Qed.

Lemma getRequestCount_at_most_once :
  hoare at_most_once getRequestCount at_most_once.
Proof.
  intros w Hw. unfold exec, getRequestCount.
  erewrite bind_ok by reflexivity.
  pose proof (_sendServerReq_at_most_once (JObj [("request", JStr "count")])
                (msgType _typCount) (CbCount (next_handle w)) w eq_refl
                (fun q => eq_refl) (fun q => ltac:(discriminate)) Hw) as H.
  unfold exec in H.
  destruct (_sendServerReq _ _ _ _) as [[u|e] w'] eqn:E.
  - rewrite (bind_ok _ _ _ _ _ E). exact H.
  - unfold bind. rewrite E. exact H.
Qed.

Lemma getTime_at_most_once : hoare at_most_once getTime at_most_once.
Proof.
  intros w Hw. unfold exec, getTime.
  erewrite bind_ok by reflexivity.
  pose proof (_sendServerReq_at_most_once (JObj [("request", JStr "time")])
                (msgType _typTime) (CbTime (next_handle w)) w eq_refl
                (fun q => eq_refl) (fun q => ltac:(discriminate)) Hw) as H.
  unfold exec in H.
  destruct (_sendServerReq _ _ _ _) as [[u|e] w'] eqn:E.
  - rewrite (bind_ok _ _ _ _ _ E). exact H.
  - unfold bind. rewrite E. exact H.
Qed.

(** Writes that touch neither the table, the polls, the socket, the login
    flag nor the calls made. *)
Lemma at_most_once_same (w w' : world) :
  at_most_once w ->
  _pendingReq w' = _pendingReq w -> intervals w' = intervals w ->
  _socket w' = _socket w -> loggedIn w' = loggedIn w ->
  invocations (output w') = invocations (output w) ->
  (next_handle w <= next_handle w')%nat ->
  at_most_once w'.
Proof.
  intros Hw Et Ei Es El Eo Hn.
  apply (at_most_once_step w w' (fun _ => false) Hw Hn); [discriminate| | |].
  - intros q. unfold uses, called_count. rewrite Et, Ei, Eo. cbn. lia.
  - unfold typed. rewrite Et, Ei. exact (proj1 (proj2 Hw)).
  - unfold connected. rewrite Et, Es, El. exact (proj2 (proj2 Hw)).
Qed.

Lemma logError_at_most_once (msg : jsval) :
  hoare at_most_once (logError msg) at_most_once.
Proof.
  intros w Hw. apply (at_most_once_logs w [Log LogError msg] eq_refl Hw).
Qed.

Lemma _handleHeartbeat_at_most_once (pulse : Z) :
  hoare at_most_once (_handleHeartbeat pulse) at_most_once.
Proof.
  intros w Hw. unfold exec, _handleHeartbeat.
  rewrite (bind_ok _ _ w w (_heartbeatTimer w)) by reflexivity.
  destruct (_heartbeatTimer w) as [old|] eqn:Hhb; [|exact Hw].
  do 3 (erewrite bind_ok by reflexivity).
  apply _chkPendingReq_at_most_once.
  eapply at_most_once_same; [exact Hw | reflexivity .. | cbn; lia].
Qed.

Lemma _handleServerMsg_step_at_most_once (msg : jsval) :
  hoare at_most_once (_handleServerMsg_step msg) at_most_once.
Proof.
  unfold _handleServerMsg_step.
  apply hoare_seq; [apply hoare_lift | intros type].
  apply hoare_seq.
  { destruct (is_undefined type || negb (is_string type));
      [apply logError_at_most_once | apply hoare_ret]. }
  intros _.
  destruct (strict_eq_str type (msgType _typLogin));
    [apply _handleLoginMsg_at_most_once|].
  destruct (strict_eq_str type (msgType _typHeartbeat)).
  { apply hoare_seq; [apply hoare_read | intros now].
    apply _handleHeartbeat_at_most_once. }
  destruct (strict_eq_str type (msgType _typMsg));
    [|apply logError_at_most_once].
  apply hoare_seq; [apply hoare_lift | intros response].
  apply hoare_seq; [apply hoare_lift | intros count].
  destruct (negb (is_undefined count));
    [apply _handleResponseMsg_at_most_once|].
  apply hoare_seq; [apply hoare_lift | intros time].
  destruct (negb (is_undefined time));
    [apply _handleResponseMsg_at_most_once | apply logError_at_most_once].
Qed.

Lemma _handleServerMsg_at_most_once (buffer : string) :
  hoare at_most_once (_handleServerMsg buffer) at_most_once.
Proof.
  apply _handleServerMsg_hoare.
  - intros w logs Hlogs Hw. apply at_most_once_logs; assumption.
  - apply _handleServerMsg_step_at_most_once.
Qed.

(** Marking the polls of a handle as settled. *)
Lemma polling_count_mark_le (q timer : nat) (k : poll) (l : list (nat * poll)) :
  (polling_count q
     (map (fun t => if Nat.eqb (fst t) timer
                    then (fst t, mkPoll (pollRetry k) true (pollReq k)
                                   (pollType k) (pollCallback k))
                    else t) l)
   <= polling_count q l)%nat.
Proof.
  unfold polling_count. induction l as [|[h a] l IH]; [apply le_n|].
  cbn [map fst]. destruct (Nat.eqb h timer); cbn [filter snd pollSettled negb andb].
  - destruct (negb (pollSettled a) && closure_is q (pollCallback a));
      cbn [List.length]; lia.
  - destruct (negb (pollSettled a) && closure_is q (pollCallback a));
      cbn [List.length]; lia.
Qed.

Lemma polling_count_mark (q timer : nat) (k : poll) (l : list (nat * poll)) :
  find_handle timer l = Some k -> pollSettled k = false ->
  (polling_count q
     (map (fun t => if Nat.eqb (fst t) timer
                    then (fst t, mkPoll (pollRetry k) true (pollReq k)
                                   (pollType k) (pollCallback k))
                    else t) l)
   + b2n (closure_is q (pollCallback k))
   <= polling_count q l)%nat.
Proof.
  intros Hk Hset. induction l as [|[h a] l IH]; [discriminate|].
  cbn [find_handle] in Hk. cbn [map fst].
  destruct (Nat.eqb h timer) eqn:E.
  - injection Hk as ->.
    pose proof (polling_count_mark_le q timer k l) as Hle.
    unfold polling_count in *.
    cbn [filter snd pollSettled pollCallback negb andb]. rewrite Hset.
    cbn [negb andb]. destruct (closure_is q (pollCallback k));
      cbn [List.length b2n]; lia.
  - specialize (IH Hk). unfold polling_count in *.
    cbn [filter]. destruct (negb (pollSettled (snd (h, a))) && _);
      cbn [List.length]; lia.
Qed.

Lemma find_handle_In {A : Type} (timer : nat) (l : list (nat * A)) (a : A) :
  find_handle timer l = Some a -> exists h, In (h, a) l.
Proof.
  induction l as [|[h x] l IH]; [discriminate|]. cbn [find_handle].
  destruct (Nat.eqb h timer).
  - intros [= ->]. exists h. left. reflexivity.
  - intros H. destruct (IH H) as (h' & Hin). exists h'. right. exact Hin.
Qed.

Lemma _chkServerLogin_tick_at_most_once (timer : nat) :
  hoare at_most_once (_chkServerLogin_tick timer) at_most_once.
Proof.
  intros w Hw. unfold exec, _chkServerLogin_tick.
  rewrite (bind_ok _ _ w w (intervals w)) by reflexivity.
  destruct (find_handle timer (intervals w)) as [k|] eqn:Hk; [|exact Hw].
  rewrite (bind_ok _ _ w w (loggedIn w)) by reflexivity.
  destruct (loggedIn w) eqn:Hli; [|exact Hw].
  unfold settle_poll. destruct (pollSettled k) eqn:Hset; [exact Hw|].
  erewrite bind_ok by reflexivity.
  destruct (some_socket w (proj1 (proj2 (proj2 Hw)) Hli)) as (sock & Hs).
  rewrite (_sendServerReq_react_fulfilled _ _ _ _ (set_intervals _ w) sock Hs).
  cbn [snd].
  destruct (find_handle_In _ _ _ Hk) as (h & Hin).
  pose proof (proj2 (proj1 (proj2 Hw)) (h, k) Hin) as Hkt. cbn [snd] in Hkt.
  apply (at_most_once_step w _ (fun _ => false) Hw).
  - apply le_n.
  - discriminate.
  - intros q. unfold uses.
    cbn [_pendingReq intervals output set_output set_pendingReq set_intervals].
    count_logs. rewrite pending_count_app, pending_count_one. cbn [reqCallback].
    pose proof (polling_count_mark q timer k (intervals w) Hk Hset). cbn [b2n]. lia.
  - apply typed_push.
    + destruct Hw as (_ & (H3 & H3') & _). split; [exact H3|].
      cbn [intervals set_intervals]. intros t Ht Hty.
      apply in_map_iff in Ht. destruct Ht as (t0 & <- & Ht0).
      destruct (Nat.eqb (fst t0) timer).
      * cbn [snd pollType pollCallback] in *. apply Hkt, Hty.
      * apply (H3' t0 Ht0 Hty).
    + unfold is_login_row. cbn [reqType reqCallback]. exact Hkt.
  - split; intros _; cbn; congruence.
Qed.

(** Every macrotask keeps the invariant, and so does every run. *)
Lemma handler_at_most_once (ev : event) :
  hoare at_most_once (handler ev) at_most_once.
Proof.
  destruct ev; cbn [handler].
  - apply hoare_seq; [apply login_at_most_once | intros ?; apply hoare_ret].
  - apply hoare_seq; [apply logout_at_most_once | intros ?; apply hoare_ret].
  - apply hoare_seq; [apply getRequestCount_at_most_once | intros ?; apply hoare_ret].
  - apply hoare_seq; [apply getTime_at_most_once | intros ?; apply hoare_ret].
  - apply _handleServerMsg_at_most_once.
  - apply hoare_seq; [apply hoare_read | intros ts].
    destruct (find_handle _ ts); [|apply hoare_ret].
    apply hoare_seq; [|intros _; apply _resetConnection_at_most_once].
    intros w Hw. eapply at_most_once_same; [exact Hw | reflexivity .. | apply le_n].
  - apply _chkServerLogin_tick_at_most_once.
Qed.

Lemma step_at_most_once (ev : event) :
  hoare at_most_once (step ev) at_most_once.
Proof.
  unfold step. apply hoare_seq; [|intros _; apply handler_at_most_once].
  intros w Hw. eapply at_most_once_same; [exact Hw | reflexivity .. | apply le_n].
Qed.

Lemma run_at_most_once (evs : list event) :
  hoare at_most_once (run evs) at_most_once.
Proof. apply run_hoare. intros ev _. apply step_at_most_once. Qed.

(** X12.  Whatever the macrotasks delivered to a
    new object are, and wherever the run ends, the closure that
    [getRequestCount] or [getTime] made for a promise has been called at
    most once: by the matching response, by the sweep, by a reset or by
    the failed readiness check, never by two of them. *)
Lemma request_closure_called_at_most_once (port : Z) (ip : string)
    (evs : list event) (p : nat) :
  (called_count p (output (exec (run evs) (constructor port ip))) <= 1)%nat.
Proof.
  assert (H0 : at_most_once (constructor port ip)).
  { split; [split; intros q; [|intros _]; cbn; lia|].
    split; split; cbn; intros; try contradiction; congruence. }
  pose proof (run_at_most_once evs _ H0) as ((H1 & _) & _).
  specialize (H1 p). unfold uses in H1. lia.
Qed.


(** ** Further properties of the class *)

(** *** Logging in and out *)

(** X1.  On an object whose port is from 0 to 65535, [login()] does not
    throw, whatever else the state of the object.  It empties the table:
    the rows that were pending are dropped without [login()] calling any
    stored closure or settling any promise.  The table then holds
    exactly the new login row, a new socket is held and the login
    request is written to it.  [loggedIn] is left as it was. *)
Theorem X1_login_drops_pending_rows (w : world) :
  0 <= connPort w <= 65535 ->
  let w' := exec login w in
  outcome login w = Ok (next_handle w) /\
  _pendingReq w' = [mkEntry "" "welcome" (CbLogin (next_handle w)) (clock w)] /\
  invocations (output w') = invocations (output w) /\
  (forall q, settlement q (output w') = settlement q (output w)) /\
  _socket w' = Some (S (next_handle w)) /\
  loggedIn w' = loggedIn w /\
  In (Write (S (next_handle w)) (JSON_stringify (JObj [("name", JStr "coder1")])))
     (output w').
Proof.
  intros _. cbv zeta. unfold outcome, exec. rewrite login_eq. cbn [fst snd].
  split; [reflexivity|]. split; [reflexivity|].
  split; [cbn [output]; rewrite invocations_app; cbn; apply app_nil_r|].
  split.
  { intros q. cbn [output]. destruct (settlement q (output w)) as [s0|] eqn:Hq.
    - apply settlement_app_some. exact Hq.
    - rewrite (settlement_app_none q _ _ Hq). reflexivity. }
  repeat split.
  cbn [output]. apply in_or_app. right. cbn. auto 6.
Qed.

(** [logout()] never throws; this is the world it leaves. *)
Lemma logout_eq (w : world) :
  logout w
  = (Ok (next_handle w),
     mkWorld (connPort w) (connIp w) false (reset w) "" None (_heartbeatTimer w)
       [] (clock w) (timeouts w) (intervals w) (S (next_handle w))
       (output w
        ++ match _socket w with Some sock => [Destroy sock] | None => [] end
        ++ [Resolve (next_handle w)
              (JObj [("err", JNull);
                     ("results", JObj [("ip", JStr (connIp w));
                                       ("port", JNum (connPort w));
                                       ("loggedIn", JBool false)])])])).
Proof.
  unfold logout, new_handle, emit, bind, read, update, ret.
  destruct w as [port ip li rs name [sock|] hb tbl now ts ivs h out]; cbn;
    rewrite <- ?app_assoc; reflexivity.
Qed.

(** X2.  [logout()] never throws and resolves its promise with
    [{err: null, results: {ip, port, loggedIn: false}}].  The socket is
    given up, the pending rows are dropped without their closures being
    called, and no timer is cleared: the heartbeat timeout and the
    intervals of [_chkServerLogin] stay armed. *)
Theorem X2_logout_keeps_timers_armed (w : world) :
  let p := next_handle w in
  let w' := exec logout w in
  outcome logout w = Ok p /\
  _socket w' = None /\ loggedIn w' = false /\ loginName w' = "" /\
  _pendingReq w' = [] /\
  invocations (output w') = invocations (output w) /\
  In (Resolve p
        (JObj [("err", JNull);
               ("results", JObj [("ip", JStr (connIp w));
                                 ("port", JNum (connPort w));
                                 ("loggedIn", JBool false)])]))
     (output w') /\
  timeouts w' = timeouts w /\
  _heartbeatTimer w' = _heartbeatTimer w /\
  intervals w' = intervals w.
Proof.
  cbv zeta. unfold outcome, exec. rewrite logout_eq. cbn [fst snd].
  split; [reflexivity|]. do 4 (split; [reflexivity|]).
  split.
  { cbn [output]. rewrite !invocations_app.
    destruct (_socket w); cbn; rewrite ?app_nil_r; reflexivity. }
  split; [|repeat split].
  cbn [output]. apply in_or_app. right. apply in_or_app. right. left. reflexivity.
Qed.

(** X3.  After [logout()] the heartbeat timeout that was armed still
    fires, and [_resetConnection] then throws a [TypeError] at
    [this._socket.destroy()], the socket being [null]: the exception is
    uncaught.  By then the object is marked as being reset. *)
Theorem X3_deadline_after_logout_throws (w : world) (timer : nat)
    (d now1 now2 : Z) :
  find_handle timer (timeouts w) = Some d ->
  let evs := [CallLogout now1; TimeoutFires timer now2] in
  let w' := exec (run evs) w in
  (exists text, outcome (run evs) w = Throw (TypeError text)) /\
  loggedIn w' = false /\ reset w' = true /\
  invocations (output w') = invocations (output w).
Proof.
  intros Hd. cbv zeta.
  destruct (step (CallLogout now1) w) as [r1 W1] eqn:E1.
  assert (H1 : r1 = Ok tt /\ _socket W1 = None /\ _pendingReq W1 = [] /\
               timeouts W1 = timeouts w /\
               invocations (output W1) = invocations (output w)).
  { unfold step in E1. cbn [handler event_time] in E1.
    rewrite (bind_ok _ _ w (set_clock now1 w) tt) in E1 by reflexivity.
    rewrite (bind_ok _ _ _ _ _ (logout_eq _)) in E1.
    injection E1 as <- <-. cbn [_socket _pendingReq timeouts output set_clock].
    rewrite !invocations_app. destruct (_socket w); cbn; rewrite ?app_nil_r; auto. }
  destruct H1 as (-> & Hs1 & Ht1 & Hto1 & Hinv1).
  assert (E2 : step (TimeoutFires timer now2) W1
               = (Throw (TypeError "Cannot read property 'destroy' of null"),
                  set_reset true
                    (set_loggedIn false
                       (set_output
                          (output W1
                           ++ [Log LogGeneral (JStr "Resetting Server Connection")])
                          (set_timeouts
                             (filter (fun t => negb (Nat.eqb (fst t) timer))
                                (timeouts W1))
                             (set_clock now2 W1)))))).
  { unfold step. cbn [handler event_time].
    rewrite (bind_ok _ _ W1 (set_clock now2 W1) tt) by reflexivity.
    rewrite (bind_ok _ _ (set_clock now2 W1) (set_clock now2 W1) (timeouts W1))
      by reflexivity.
    rewrite Hto1, Hd. unfold clearTimeout.
    erewrite bind_ok by reflexivity.
    rewrite _resetConnection_no_socket by exact Hs1.
    cbn [_pendingReq set_timeouts set_clock timeouts]. rewrite Ht1, Hto1.
    reflexivity. }
  assert (E : run [CallLogout now1; TimeoutFires timer now2] w
              = (Throw (TypeError "Cannot read property 'destroy' of null"),
                 snd (step (TimeoutFires timer now2) W1))).
  { cbn [run]. rewrite (bind_ok _ _ _ _ _ E1). unfold bind. rewrite E2.
    reflexivity. }
  unfold outcome, exec. rewrite E, E2. cbn [fst snd].
  split; [eauto|]. split; [reflexivity|]. split; [reflexivity|].
  cbn [output set_reset set_loggedIn set_output]. rewrite invocations_app, Hinv1.
  apply app_nil_r.
Qed.

(** X4.  A request made while the object is neither logged in nor being
    reset returns at once: nothing is written and no row is pushed; the
    closure of the request is called with
    [{err: 'Not logged into server!'}], which logs the text and rejects
    the promise with that object. *)
Theorem X4_request_rejected_when_not_logged_in (w : world) :
  loggedIn w = false -> reset w = false ->
  let p := next_handle w in
  let e := JObj [("err", JStr "Not logged into server!")] in
  getRequestCount w
  = (Ok p,
     set_output
       (output w ++ [Invoke (CbCount p) e;
                     Log LogError (JStr "Not logged into server!");
                     Reject p e])
       (set_next_handle (S p) w)) /\
  getTime w
  = (Ok p,
     set_output
       (output w ++ [Invoke (CbTime p) e;
                     Log LogError (JStr "Not logged into server!");
                     Reject p e])
       (set_next_handle (S p) w)).
Proof.
  intros Hli Hrs. cbv zeta.
  unfold getRequestCount, getTime, _sendServerReq.
  split.
  - erewrite bind_ok by reflexivity.
    rewrite (bind_ok _ _ _ _ _
               (bind_ok _ _ _ _ _
                  (_chkServerLogin_not_ready _ (set_next_handle _ w) Hli Hrs))).
    cbn [_sendServerReq_react].
    unfold call, logError, emit, bind, update, lift, ret. cbn.
    rewrite <- !app_assoc. reflexivity.
  - erewrite bind_ok by reflexivity.
    rewrite (bind_ok _ _ _ _ _
               (bind_ok _ _ _ _ _
                  (_chkServerLogin_not_ready _ (set_next_handle _ w) Hli Hrs))).
    cbn [_sendServerReq_react].
    unfold call, logError, emit, bind, update, lift, ret. cbn.
    rewrite <- !app_assoc. reflexivity.
Qed.

(** X5.  A request made during a reset waits on an interval.  The first
    run of the interval's callback that finds the object logged in, with
    a socket, sends the request under a key made at that moment and
    calls no closure.  That run clears no interval: the same handles
    stay armed, that of the request among them, now marked as settled,
    and the object is still logged in.  From then on a firing of that
    interval in any state that is logged in changes nothing but the
    clock, so the interval stays armed for good. *)
Theorem X5_poll_sends_once (w : world) (timer sock : nat) (k : poll) (now' : Z) :
  find_handle timer (intervals w) = Some k ->
  pollSettled k = false ->
  loggedIn w = true ->
  _socket w = Some sock ->
  let K := msgId_of (loginName w) (clock w) in
  let w1 := exec (_chkServerLogin_tick timer) w in
  outcome (_chkServerLogin_tick timer) w = Ok tt /\
  _pendingReq w1
  = (_pendingReq w ++ [mkEntry K (pollType k) (pollCallback k) (clock w)])%list /\
  In (Write sock (JSON_stringify (assign (pollReq k) "id" (JStr K)))) (output w1) /\
  invocations (output w1) = invocations (output w) /\
  map fst (intervals w1) = map fst (intervals w) /\
  find_handle timer (intervals w1)
  = Some (mkPoll (pollRetry k) true (pollReq k) (pollType k) (pollCallback k)) /\
  loggedIn w1 = true /\
  forall w2,
    find_handle timer (intervals w2)
    = Some (mkPoll (pollRetry k) true (pollReq k) (pollType k) (pollCallback k)) ->
    loggedIn w2 = true ->
    step (IntervalFires timer now') w2 = (Ok tt, set_clock now' w2).
Proof.
  intros Hk Hset Hli Hsock. cbv zeta.
  assert (Hk' : find_handle timer
                  (map (fun t => if Nat.eqb (fst t) timer
                                 then (fst t, mkPoll (pollRetry k) true (pollReq k)
                                                (pollType k) (pollCallback k))
                                 else t) (intervals w))
                = Some (mkPoll (pollRetry k) true (pollReq k) (pollType k)
                          (pollCallback k))).
  { induction (intervals w) as [|[h a] l IH]; [discriminate|].
    cbn [find_handle map fst] in *. destruct (Nat.eqb h timer) eqn:Eh.
    - cbn [find_handle]. rewrite Eh. reflexivity.
    - cbn [find_handle]. rewrite Eh. apply IH, Hk. }
  assert (Hfst : map fst
                   (map (fun t => if Nat.eqb (fst t) timer
                                  then (fst t, mkPoll (pollRetry k) true (pollReq k)
                                                 (pollType k) (pollCallback k))
                                  else t) (intervals w))
                 = map fst (intervals w)).
  { rewrite map_map. apply map_ext. intros [h a]. cbn [fst].
    destruct (Nat.eqb h timer); reflexivity. }
  assert (E : _chkServerLogin_tick timer w
              = _sendServerReq_react (pollReq k) (pollType k) (pollCallback k)
                  (Fulfilled (JObj [("err", JNull)]))
                  (set_intervals
                     (map (fun t => if Nat.eqb (fst t) timer
                                    then (fst t, mkPoll (pollRetry k) true (pollReq k)
                                                   (pollType k) (pollCallback k))
                                    else t) (intervals w)) w)).
  { unfold _chkServerLogin_tick.
    rewrite (bind_ok _ _ w w (intervals w)) by reflexivity. rewrite Hk.
    rewrite (bind_ok _ _ w w (loggedIn w)) by reflexivity. rewrite Hli.
    unfold settle_poll. rewrite Hset.
    erewrite bind_ok by reflexivity. reflexivity. }
  unfold outcome, exec. rewrite E.
  rewrite (_sendServerReq_react_fulfilled _ _ _ _ (set_intervals _ w) sock Hsock).
  cbn [fst snd]. split; [reflexivity|]. split; [reflexivity|].
  split; [apply in_or_app; right; cbn; auto|].
  split; [cbn [output set_output set_pendingReq set_intervals];
          rewrite invocations_app; cbn; apply app_nil_r|].
  split; [cbn [intervals set_output set_pendingReq set_intervals]; exact Hfst|].
  split; [cbn [intervals set_output set_pendingReq set_intervals]; exact Hk'|].
  split; [cbn [loggedIn set_output set_pendingReq set_intervals]; exact Hli|].
  intros w2 Hk2 Hli2.
  unfold step, handler, event_time, _chkServerLogin_tick.
  erewrite bind_ok by reflexivity.
  erewrite bind_ok by reflexivity.
  cbn [intervals set_clock]. rewrite Hk2.
  erewrite bind_ok by reflexivity.
  cbn [loggedIn set_clock]. rewrite Hli2.
  reflexivity.
Qed.

(** X6.  The closure of [login()] does not return after [reject(err)]:
    when the sweep finds the login row at the head of the table older
    than five seconds, its promise not yet settled, the promise of that
    [login()] is rejected with the timeout error of the row, and stays
    so, and the object is nevertheless marked as logged in as
    [coder1]. *)
Theorem X6_timed_out_login_marks_logged_in (timestamp : Z) (w : world)
    (e : entry) (rest : list entry) (p : nat) :
  _pendingReq w = e :: rest ->
  reqCallback e = CbLogin p ->
  timestamp - reqTime e > 5000 ->
  settlement p (output w) = None ->
  let w' := exec (_chkPendingReq timestamp) w in
  settlement p (output w') = Some (SettledReject (timeout_error e)) /\
  loggedIn w' = true /\ loginName w' = "coder1".
Proof.
  intros Htbl Hcb Hold Hnew. cbv zeta.
  set (I := fun w0 : world =>
              settlement p (output w0) = Some (SettledReject (timeout_error e)) /\
              loggedIn w0 = true /\ loginName w0 = "coder1").
  assert (Hcall : forall cb v, hoare I (call cb v) I).
  { intros cb v w0 (H1 & H2 & H3). unfold I.
    destruct (call_appends cb v w0) as (more & Hmore). rewrite Hmore.
    split; [apply settlement_app_some; exact H1|].
    unfold exec, call. destruct cb as [q|q|q].
    - unfold logMsg, emit, bind, read, update, ret.
      destruct (negb (is_nullish v)); cbn; auto.
    - unfold logMsg, logError, emit, bind, read, update, lift, ret.
      cbn. destruct (get_prop v "err") as [err|err]; cbn;
        [destruct (is_undefined err || is_null err); cbn;
         [destruct (get_prop v "count"); cbn|]|]; auto.
    - unfold logMsg, logError, emit, bind, read, update, lift, ret.
      cbn. destruct (get_prop v "err") as [err|err]; cbn;
        [destruct (is_undefined err || is_null err); cbn;
         [destruct (get_prop v "time"); cbn;
          [destruct (get_prop v "random"); cbn|]|]|]; auto. }
  assert (Hvisit : forall x k,
             hoare (fun w0 => I w0 /\ nth_error (_pendingReq w0) k = Some x)
               (_chkPendingReq_visit timestamp x k) I).
  { intros x k w0 [HI Hn]. unfold exec, _chkPendingReq_visit.
    destruct (timestamp - reqTime x >? 5000); [|exact HI].
    rewrite (bind_ok _ _ _ _ _ (splice1_eq k x w0 Hn)).
    apply Hcall. exact HI. }
  unfold exec, _chkPendingReq, forEach.
  rewrite (bind_ok _ _ w w (_pendingReq w)) by reflexivity.
  rewrite Htbl. cbn [List.length forEach_from].
  rewrite (bind_ok _ _ w w (_pendingReq w)) by reflexivity.
  rewrite Htbl. cbn [nth_error].
  assert (Hfirst : exists w1,
             _chkPendingReq_visit timestamp e 0 w = (Ok tt, w1) /\ I w1).
  { unfold _chkPendingReq_visit.
    replace (timestamp - reqTime e >? 5000) with true
      by (symmetry; apply Z.gtb_lt; lia).
    rewrite (bind_ok _ _ _ _ _ (splice1_eq 0 e w ltac:(rewrite Htbl; reflexivity))).
    rewrite Hcb. unfold call, logMsg, emit, bind, read, update, ret. cbn.
    eexists. split; [reflexivity|]. unfold I.
    cbn [output set_output set_pendingReq loggedIn loginName].
    split; [|auto].
    rewrite <- !app_assoc, (settlement_app_none p _ _ Hnew).
    cbn [app settlement]. rewrite Nat.eqb_refl. reflexivity. }
  destruct Hfirst as (w1 & E1 & HI1).
  rewrite (bind_ok _ _ _ _ _ E1).
  apply (hoare_forEach_from I _ Hvisit (List.length rest) 1%nat w1 HI1).
Qed.

(** *** The acknowledgment of a login *)

(** X7.  A record of type [welcome] that arrives while the table does not
    hold exactly one row of the login type (it is empty, or a request is
    pending as well) makes [_handleServerMsg] throw an [Error], after
    logging it; nothing else is touched. *)
Theorem X7_welcome_with_other_table_throws (msg : jsval) (w : world) :
  get_prop msg "type" = Ok (JStr "welcome") ->
  (List.length (_pendingReq w) <> 1%nat \/
   exists e, _pendingReq w = [e] /\ is_login_row e = false) ->
  let text := ("Invalid pending request table on login: "
               ++ show_table (_pendingReq w))%string in
  _handleServerMsg_step msg w
  = (Throw (Error text), set_output (output w ++ [Log LogError (JStr text)]) w).
Proof.
  intros Hty Htbl. cbv zeta. unfold _handleServerMsg_step. rewrite Hty.
  cbn [lift bind is_undefined is_string orb negb ret strict_eq_str msgType nth
       _msgType _typLogin String.eqb Ascii.eqb Bool.eqb andb].
  unfold _handleLoginMsg.
  rewrite (bind_ok _ _ w w (_pendingReq w)) by reflexivity.
  destruct (_pendingReq w) as [|e [|e' l]] eqn:E.
  - reflexivity.
  - destruct Htbl as [H | (x & Hx & Hrow)]; [cbn in H; congruence|].
    injection Hx as <-. unfold is_login_row in Hrow. rewrite Hrow. reflexivity.
  - reflexivity.
Qed.

(** X8.  [login()] followed by a record of type [welcome], whatever the
    state before: the record is accepted, the object becomes logged in as
    [coder1] with [reset] cleared, and the promise of that [login()] is
    resolved with [{err: null, results: {ip, port, loggedIn: true}}]. *)
Theorem X8_login_then_welcome (msg : jsval) (w : world) :
  get_prop msg "type" = Ok (JStr "welcome") ->
  let p := next_handle w in
  let w1 := exec login w in
  let w2 := exec (_handleServerMsg_step msg) w1 in
  outcome (_handleServerMsg_step msg) w1 = Ok tt /\
  loggedIn w2 = true /\ loginName w2 = "coder1" /\ reset w2 = false /\
  output w2
  = (output w1 ++
     [Invoke (CbLogin p) JNull;
      Log LogGeneral (JStr ("Logged in to server at IP: " ++ connIp w
                            ++ ", Port: " ++ toString (connPort w)));
      Resolve p (JObj [("err", JNull);
                       ("results", JObj [("ip", JStr (connIp w));
                                         ("port", JNum (connPort w));
                                         ("loggedIn", JBool true)])])])%list.
Proof.
  intros Hty. cbv zeta. unfold outcome, exec at 1 2 3.
  unfold _handleServerMsg_step. rewrite Hty.
  cbn [lift bind is_undefined is_string orb negb ret strict_eq_str msgType nth
       _msgType _typLogin String.eqb Ascii.eqb Bool.eqb andb].
  unfold exec. rewrite login_eq. cbn [snd].
  unfold _handleLoginMsg, call, logMsg, emit, bind, read, update, ret. cbn.
  rewrite <- !app_assoc. cbn. repeat split.
Qed.

(** *** Responses and the sweep *)

(** X9.  A response is matched to a pending row by its key alone; the
    type stored in the row is not looked at.  A response that carries a
    [count] and the key of a pending [time] request is taken through
    [_handleCountMsg] to the closure of [getTime()], whose promise is
    resolved with the [time] and [random] fields of that response,
    [undefined] when it has none. *)
Theorem X9_reply_matched_by_key_alone (w : world) (fs : list (string * jsval))
    (K : string) (p : nat) (t : Z) (pre post : list entry) :
  _pendingReq w = (pre ++ mkEntry K "time" (CbTime p) t :: post)%list ->
  find_index K pre 0 = None ->
  assoc "reply" fs = JStr K ->
  valid_reply (JStr K) = true ->
  is_undefined (assoc "count" fs) = false ->
  is_undefined (assoc "err" fs) || is_null (assoc "err" fs) = true ->
  let msg := JObj [("type", JStr "msg"); ("msg", JObj fs)] in
  let w' := exec (_handleServerMsg_step msg) w in
  outcome (_handleServerMsg_step msg) w = Ok tt /\
  _pendingReq w' = (pre ++ post)%list /\
  output w'
  = (output w ++
     [Log LogGeneral (JStr ("Pending request found for count response with msgId: "
                            ++ K));
      Invoke (CbTime p) (JObj fs);
      Log LogGeneral (JStr ("Time response received: " ++ JSON_stringify (JObj fs)));
      Resolve p (JObj [("time", assoc "time" fs);
                       ("number", assoc "random" fs)])])%list.
Proof.
  intros Htbl Hpre Hreply Hvalid Hcount Herr msg w'.
  assert (E : _handleServerMsg_step msg w = _handleResponseMsg "count" "Count" (JObj fs) w).
  { unfold msg. rewrite (_handleServerMsg_step_msg fs w). cbv zeta.
    rewrite Hcount. reflexivity. }
  rewrite (_handleResponseMsg_delivers "count" "Count" fs K w pre _ post
             Hreply Hvalid Htbl Hpre eq_refl) in E.
  cbn [reqCallback] in E. rewrite (call_CbTime_valid _ _ _ Herr) in E.
  unfold outcome, w', exec. rewrite E. cbn [fst snd _pendingReq output set_output
                                            set_pendingReq].
  split; [reflexivity|]. split; [reflexivity|].
  rewrite <- !app_assoc. reflexivity.
Qed.

Lemma forEach_from_young (timestamp : Z) (w : world) :
  (forall e, In e (_pendingReq w) -> timestamp - reqTime e <= 5000) ->
  forall n k, forEach_from (_chkPendingReq_visit timestamp) n k w = (Ok tt, w).
Proof.
  intros Hyoung. induction n as [|n IH]; intros k; [reflexivity|].
  cbn [forEach_from]. rewrite (bind_ok _ _ w w (_pendingReq w)) by reflexivity.
  destruct (nth_error (_pendingReq w) k) as [x|] eqn:Hx; [|apply IH].
  assert (E : _chkPendingReq_visit timestamp x k w = (Ok tt, w)).
  { unfold _chkPendingReq_visit.
    replace (timestamp - reqTime x >? 5000) with false; [reflexivity|].
    symmetry. rewrite Z.gtb_ltb. apply Z.ltb_ge, Hyoung, (nth_error_In _ _ Hx). }
  rewrite (bind_ok _ _ _ _ _ E). apply IH.
Qed.

(** X10.  The timeout of a request is strict: a sweep at a time when no
    pending row is more than 5000 ms old (a row exactly 5000 ms old
    counts as young) changes nothing at all, calls no closure and
    returns. *)
Theorem X10_sweep_of_young_rows_is_idle (timestamp : Z) (w : world) :
  (forall e, In e (_pendingReq w) -> timestamp - reqTime e <= 5000) ->
  _chkPendingReq timestamp w = (Ok tt, w).
Proof.
  intros Hyoung. unfold _chkPendingReq, forEach.
  rewrite (bind_ok _ _ w w (_pendingReq w)) by reflexivity.
  apply forEach_from_young, Hyoung.
Qed.

Lemma remove_at_perm (l : list entry) (k : nat) (x : entry) :
  nth_error l k = Some x -> Permutation (x :: remove_at k l) l.
Proof.
  intros Hx. unfold remove_at.
  rewrite <- (firstn_skipn k l) at 3. rewrite (nth_error_skipn_cons l k x Hx).
  apply Permutation_middle.
Qed.

(** X11.  The sweep never throws, and it splits the table in two: every
    row that was pending is afterwards either still pending or has had
    its closure called, exactly once and with the timeout error that
    names the type and the submit time of that row, never both; and every
    row so called was more than 5000 ms old. *)
Theorem X11_sweep_partitions_table (timestamp : Z) (w : world) :
  let w' := exec (_chkPendingReq timestamp) w in
  outcome (_chkPendingReq timestamp) w = Ok tt /\
  exists called,
    Permutation (called ++ _pendingReq w') (_pendingReq w) /\
    invocations (output w')
    = (invocations (output w)
       ++ map (fun e => (reqCallback e, timeout_error e)) called)%list /\
    Forall (fun e => timestamp - reqTime e > 5000) called.
Proof.
  cbv zeta. split; [apply _chkPendingReq_returns|].
  set (I := fun w0 : world =>
              exists called,
                Permutation (called ++ _pendingReq w0) (_pendingReq w) /\
                invocations (output w0)
                = (invocations (output w)
                   ++ map (fun e => (reqCallback e, timeout_error e)) called)%list /\
                Forall (fun e => timestamp - reqTime e > 5000) called).
  assert (H : hoare I (_chkPendingReq timestamp) I).
  { unfold _chkPendingReq. apply hoare_forEach. intros x k w0 [HI Hn].
    unfold exec, _chkPendingReq_visit.
    destruct (timestamp - reqTime x >? 5000) eqn:Hx; [|exact HI].
    rewrite (bind_ok _ _ _ _ _ (splice1_eq k x w0 Hn)).
    destruct HI as (called & Hperm & Hinv & Hold).
    exists (called ++ [x])%list.
    match goal with
    | |- context [call ?cb ?v ?W] =>
        pose proof (call_frame cb v (frame_of W) W eq_refl) as F;
        apply frame_of_pendingReq in F; unfold exec in F;
        pose proof (call_invocations cb v W) as Hc; unfold exec in Hc
    end.
    rewrite F, Hc. cbn [_pendingReq output set_pendingReq]. split; [|split].
    - rewrite <- app_assoc. cbn [app].
      apply Permutation_trans with (called ++ _pendingReq w0)%list; [|exact Hperm].
      apply Permutation_app_head, remove_at_perm, Hn.
    - rewrite Hinv, map_app, <- app_assoc. reflexivity.
    - apply Forall_app. split; [exact Hold|].
      constructor; [|constructor]. apply Z.gtb_lt in Hx. lia. }
  apply H. exists []. split; [apply Permutation_refl|].
  split; [cbn; symmetry; apply app_nil_r | constructor].
Qed.

(** *** Invariants of a run *)

(** X13.  In every run of a new object, at any point where the object
    is logged in, it holds a socket and is logged in as [coder1]: a
    [getRequestCount()] made then writes
    [{request: 'count', id: 'challengecoder1' + now}] to that socket and
    pushes the row; the write cannot throw, so the closure of the request
    is not called by the [catch] of [_sendServerReq]. *)
Theorem X13_request_when_logged_in_is_written (port : Z) (ip : string)
    (evs : list event) (now : Z) :
  let w := exec (run evs) (constructor port ip) in
  loggedIn w = true ->
  let K := msgId_of "coder1" now in
  let w' := exec (step (CallGetRequestCount now)) w in
  exists sock,
    _socket w = Some sock /\
    outcome (step (CallGetRequestCount now)) w = Ok tt /\
    In (Write sock (JSON_stringify (JObj [("request", JStr "count"); ("id", JStr K)])))
       (output w') /\
    _pendingReq w'
    = (_pendingReq w ++ [mkEntry K "count" (CbCount (next_handle w)) now])%list /\
    invocations (output w') = invocations (output w).
Proof.
  intros w Hli K w'.
  assert (H0 : at_most_once (constructor port ip)).
  { split; [split; intros q; [|intros _]; cbn; lia|].
    split; split; cbn; intros; try contradiction; congruence. }
  pose proof (run_at_most_once evs _ H0) as (_ & _ & Hsock & _).
  fold w in Hsock. destruct (some_socket w (Hsock Hli)) as (sock & Hs).
  assert (Hname : loginName w = "coder1").
  { apply (run_named evs (constructor port ip)); [discriminate | exact Hli]. }
  exists sock. split; [exact Hs|].
  pose proof (step_getRequestCount_logged_in w sock now Hli Hs) as E.
  cbv zeta in E. rewrite Hname in E. fold K in E.
  unfold outcome, w', exec. rewrite E. cbn [fst snd output _pendingReq set_output
                                            set_pendingReq set_next_handle set_clock].
  split; [reflexivity|]. split; [apply in_or_app; right; cbn; auto|].
  split; [reflexivity|]. rewrite invocations_app. cbn. apply app_nil_r.
Qed.

(** *** Records *)

Lemma substring_prefix (pre s : string) :
  substring 0 (String.length pre) s = pre <-> exists r, s = (pre ++ r)%string.
Proof.
  revert s. induction pre as [|c pre IH]; intros s; cbn [String.length].
  - split; [intros _; exists s; reflexivity|].
    intros _. destruct s; reflexivity.
  - destruct s as [|c' s]; cbn [substring].
    + split; [discriminate | intros (r & H); discriminate H].
    + split.
      * intros [= -> H]. apply IH in H. destruct H as (r & ->).
        exists r. reflexivity.
      * intros (r & [= -> ->]). f_equal. apply IH. exists r. reflexivity.
Qed.

(** X14.  [_getMsgId] returns a key exactly when [msg.reply] is a string
    that begins with [challenge]; nothing else of the key is checked, not
    the user name and not the digits.  It then returns that string and
    logs nothing. *)
Theorem X14_getMsgId_checks_prefix_only (msg : jsval) (w : world) (K : string) :
  _getMsgId msg w = (Ok (Some K), w)
  <-> (get_prop msg "reply" = Ok (JStr K) /\ exists r, K = ("challenge" ++ r)%string).
Proof.
  unfold _getMsgId, lift, bind.
  destruct (get_prop msg "reply") as [reply|err] eqn:Hr.
  2:{ split; [discriminate | intros [H _]; discriminate H]. }
  assert (Hlog : forall text, (logError text;; ret None) w <> (Ok (Some K), w)).
  { intros text. cbn. discriminate. }
  destruct reply as [| |b|n|s|items|fields|name m];
    try (split; [intros H; destruct (Hlog _ H) | intros [H _]; discriminate H]).
  unfold valid_reply, substr0.
  destruct (String.eqb (substring 0 9 s) "challenge") eqn:Hv.
  - apply String.eqb_eq in Hv.
    apply (substring_prefix "challenge" s) in Hv.
    split.
    + intros [= ->]. split; [reflexivity | exact Hv].
    + intros [[= ->] _]. reflexivity.
  - split; [intros H; destruct (Hlog _ H)|].
    intros [[= ->] Hp]. apply (substring_prefix "challenge" K) in Hp.
    cbn [String.length] in Hp. rewrite Hp in Hv. discriminate Hv.
Qed.

(** X15.  A chunk whose first piece is not blank and parses to [null]
    (the JSON text [null]) makes [_handleServerMsg] throw a [TypeError]
    at [msg.type]: the exception is uncaught, and no record of the chunk,
    a heartbeat included, is handled: no closure is called and neither
    the table nor the timers change. *)
Theorem X15_null_record_throws (buffer : string) (w : world)
    (piece : string) (rest : list string) :
  split_lines buffer = piece :: rest ->
  trim_nonempty piece = true ->
  JSON_parse piece = Some JNull ->
  let w' := exec (_handleServerMsg buffer) w in
  (exists text, outcome (_handleServerMsg buffer) w = Throw (TypeError text)) /\
  frame_of w' = frame_of w /\
  loggedIn w' = loggedIn w /\
  invocations (output w') = invocations (output w).
Proof.
  intros Hsplit Hne Hparse. cbv zeta.
  assert (E : exists logs,
             _handleServerMsg buffer w
             = (Throw (TypeError "Cannot read property 'type' of null"),
                set_output (output w ++ logs) w)
             /\ forallb is_not_call logs = true).
  { unfold _handleServerMsg, _parseRcvBuffer.
    erewrite bind_ok by reflexivity.
    rewrite (bind_ok _ _ _ _ _
               (_parseRcvBuffer_loop_eq buffer (split_lines buffer) [] _)).
    rewrite Hsplit. cbn [flat_map app]. unfold record_of at 1.
    rewrite Hne, Hparse. cbn [app _handleServerMsg_loop].
    unfold _handleServerMsg_step, bind, lift. cbn [get_prop].
    cbn [output set_output].
    exists ([Log LogReceived (JStr buffer)]
            ++ flat_map (diagnostics_of buffer) (piece :: rest))%list.
    split.
    - cbn [flat_map]. rewrite <- !app_assoc.
      destruct w; reflexivity.
    - rewrite forallb_app. cbn [forallb is_not_call andb].
      apply diagnostics_are_logs. }
  destruct E as (logs & E & Hlogs). unfold outcome, exec. rewrite E. cbn [fst snd].
  split; [eauto|]. split; [reflexivity|]. split; [reflexivity|].
  cbn [output set_output]. rewrite invocations_app, (invocations_logs logs Hlogs).
  apply app_nil_r.
Qed.

(** X16.  A record whose [type] is none of [welcome], [heartbeat] and
    [msg] (or is missing, or is not a string) is only logged: one error
    line for an unrecognized message, preceded by one for the invalid
    type when the type is no string.  [_handleServerMsg] goes on with the
    next record; the object is otherwise unchanged. *)
Theorem X16_unrecognized_record_only_logs (msg type : jsval) (w : world) :
  get_prop msg "type" = Ok type ->
  recognized_type type = false ->
  _handleServerMsg_step msg w
  = (Ok tt,
     set_output
       (output w
        ++ (if is_string type then []
            else [Log LogError
                    (JStr ("Message received with invalid or no message type: "
                           ++ JSON_stringify msg))])
        ++ [Log LogError
              (JStr ("Unrecognized message encountered: " ++ JSON_stringify msg))])
       w).
Proof.
  intros Hty Hrec. unfold recognized_type in Hrec.
  apply orb_false_iff in Hrec. destruct Hrec as [Hrec H3].
  apply orb_false_iff in Hrec. destruct Hrec as [H1 H2].
  unfold _handleServerMsg_step.
  rewrite (bind_ok _ _ w w type) by (unfold lift; rewrite Hty; reflexivity).
  rewrite H1, H2, H3.
  unfold logError, emit, update, bind, ret.
  destruct type; destruct w; unfold set_output; cbn [is_undefined is_string orb negb output];
    rewrite <- ?app_assoc; reflexivity.
Qed.

Lemma trim_nonempty_app (a b : string) :
  trim_nonempty (a ++ b) = trim_nonempty a || trim_nonempty b.
Proof.
  induction a as [|c a IH]; cbn; [reflexivity|].
  rewrite IH. apply orb_assoc.
Qed.

Lemma split_lines_aux_blank (s : string) :
  forall cur,
    trim_nonempty cur = false -> trim_nonempty s = false ->
    Forall (fun piece => trim_nonempty piece = false) (split_lines_aux cur s).
Proof.
  induction s as [|c s IH]; intros cur Hcur Hs; cbn [split_lines_aux].
  - constructor; [exact Hcur | constructor].
  - cbn [trim_nonempty] in Hs. apply orb_false_iff in Hs. destruct Hs as [Hc Hs].
    destruct (Ascii.eqb c newline).
    + constructor; [exact Hcur|]. apply IH; [reflexivity | exact Hs].
    + apply IH; [|exact Hs]. rewrite trim_nonempty_app, Hcur. cbn.
      rewrite Hc. reflexivity.
Qed.

(** X17.  A chunk made of white space only (the empty chunk, or nothing
    but newlines and blanks) is logged as received and has no other
    effect: it yields no record and no diagnostic. *)
Theorem X17_blank_chunk_is_ignored (buffer : string) (w : world) :
  trim_nonempty buffer = false ->
  _handleServerMsg buffer w
  = (Ok tt, set_output (output w ++ [Log LogReceived (JStr buffer)]) w).
Proof.
  intros Hblank.
  pose proof (split_lines_aux_blank buffer "" eq_refl Hblank) as Hp.
  fold (split_lines buffer) in Hp.
  assert (Hrec : flat_map record_of (split_lines buffer) = []
                 /\ flat_map (diagnostics_of buffer) (split_lines buffer) = []).
  { induction Hp as [|piece l Hpiece _ IH]; [split; reflexivity|].
    cbn [flat_map]. unfold record_of at 1, diagnostics_of at 1.
    rewrite Hpiece. exact IH. }
  destruct Hrec as [Hr Hd].
  unfold _handleServerMsg, _parseRcvBuffer.
  erewrite bind_ok by reflexivity.
  rewrite (bind_ok _ _ _ _ _
             (_parseRcvBuffer_loop_eq buffer (split_lines buffer) [] _)).
  rewrite Hr, Hd. cbn [app _handleServerMsg_loop ret output set_output].
  rewrite app_nil_r. destruct w; reflexivity.
Qed.

(** *** The rows that survive a sweep *)

Lemma forEach_from_past_end (body : entry -> nat -> M unit) :
  forall n k w, (List.length (_pendingReq w) <= k)%nat ->
                forEach_from body n k w = (Ok tt, w).
Proof.
  induction n as [|n IH]; intros k w Hk; [reflexivity|].
  cbn [forEach_from]. rewrite (bind_ok _ _ w w (_pendingReq w)) by reflexivity.
  replace (nth_error (_pendingReq w) k) with (@None entry)
    by (symmetry; apply nth_error_None; exact Hk).
  apply IH. lia.
Qed.

Lemma survivors_step (timestamp : Z) (n : nat) :
  forall (suf pre : list entry) (w : world),
    _pendingReq w = (pre ++ suf)%list ->
    (List.length suf <= n)%nat ->
    _pendingReq (exec (forEach_from (_chkPendingReq_visit timestamp) n
                         (List.length pre)) w)
    = (pre ++ survivors timestamp suf)%list.
Proof.
  induction n as [|n IH]; intros suf pre w Htbl Hn.
  - destruct suf; [|cbn in Hn; lia]. cbn. exact Htbl.
  - unfold exec. cbn [forEach_from].
    rewrite (bind_ok _ _ w w (_pendingReq w)) by reflexivity.
    destruct suf as [|x rest].
    + rewrite app_nil_r in Htbl.
      replace (nth_error (_pendingReq w) (List.length pre)) with (@None entry)
        by (symmetry; apply nth_error_None; rewrite Htbl; lia).
      rewrite forEach_from_past_end by (rewrite Htbl; lia).
      cbn. rewrite app_nil_r. exact Htbl.
    + assert (Hx : nth_error (_pendingReq w) (List.length pre) = Some x)
        by (rewrite Htbl; apply nth_error_middle).
      rewrite Hx. cbn [survivors]. unfold expired.
      assert (Ev : exists W1,
                 _chkPendingReq_visit timestamp x (List.length pre) w = (Ok tt, W1)
                 /\ _pendingReq W1
                    = if timestamp - reqTime x >? 5000 then (pre ++ rest)%list
                      else (pre ++ x :: rest)%list).
      { unfold _chkPendingReq_visit.
        destruct (timestamp - reqTime x >? 5000); [|exists w; auto].
        rewrite (bind_ok _ _ _ _ _ (splice1_eq _ x w Hx)).
        rewrite Htbl, remove_at_middle.
        match goal with
        | |- context [call ?cb ?v ?W] =>
            pose proof (call_frame cb v (frame_of W) W eq_refl) as F;
            apply frame_of_pendingReq in F;
            pose proof (call_error_ok cb
                          ("Request timeout error - request type: " ++ reqType x
                           ++ ", request time: " ++ toString (reqTime x)) W) as Hok;
            destruct (call cb v W) as [r W1] eqn:E
        end.
        unfold exec in F. rewrite E in F. cbn [snd] in F.
        unfold outcome, timeout_error in Hok. unfold timeout_error in E.
        rewrite E in Hok. cbn [fst] in Hok. subst r.
        exists W1. split; [reflexivity | exact F]. }
      destruct Ev as (W1 & Ev & F). rewrite (bind_ok _ _ _ _ _ Ev).
      destruct (timestamp - reqTime x >? 5000).
      * destruct rest as [|y rest'].
        -- rewrite forEach_from_past_end by (rewrite F, app_nil_r; lia).
           cbn [snd]. rewrite F. reflexivity.
        -- pose proof (IH rest' (pre ++ [y])%list W1) as H.
           rewrite length_app, Nat.add_comm in H. cbn [List.length Nat.add] in H.
           unfold exec in H. rewrite H.
           ++ rewrite <- app_assoc. reflexivity.
           ++ rewrite F, <- app_assoc. reflexivity.
           ++ cbn [List.length] in Hn. lia.
      * pose proof (IH rest (pre ++ [x])%list W1) as H.
        rewrite length_app, Nat.add_comm in H. cbn [List.length Nat.add] in H.
        unfold exec in H. rewrite H.
        -- rewrite <- app_assoc. reflexivity.
        -- rewrite F, <- app_assoc. reflexivity.
        -- cbn [List.length] in Hn. lia.
Qed.

(** X29.  Which rows a sweep leaves: going down the table, a row more
    than 5000 ms old is taken out, and the row that follows a row taken
    out stays in the table without its age being looked at in that
    sweep; every other row stays. *)
Theorem X29_sweep_leaves_survivors (timestamp : Z) (w : world) :
  _pendingReq (exec (_chkPendingReq timestamp) w)
  = survivors timestamp (_pendingReq w).
Proof.
  unfold exec, _chkPendingReq, forEach.
  rewrite (bind_ok _ _ w w (_pendingReq w)) by reflexivity.
  apply (survivors_step timestamp (List.length (_pendingReq w)) (_pendingReq w) [] w
           eq_refl (le_n _)).
Qed.

End ChallengeConnection.

(** * Sample sessions, run with the reference parser *)

(** C1, what the code does.  In a quiet session (login, acknowledgment,
    a heartbeat every 1500 ms) nothing throws and the closure of the
    login row is called twice: by the acknowledgment, which leaves the row
    in the table, and by the sweep of the heartbeat at 6000 ms, which
    takes the row out as timed out. *)
Theorem C1_login_closure_called_twice :
  let acked := exec (run RefJSON.parse RefJSON.stringify show_rows session_logged_in) node in
  let w := exec (run RefJSON.parse RefJSON.stringify show_rows session_quiet) node in
  let login_row := mkEntry "" "welcome" (CbLogin 0) 0 in
  outcome (run RefJSON.parse RefJSON.stringify show_rows session_quiet) node = Ok tt /\
  _pendingReq acked = [login_row] /\
  invocations (output acked) = [(CbLogin 0, JNull)] /\
  _pendingReq w = [] /\
  invocations (output w) = [(CbLogin 0, JNull); (CbLogin 0, timeout_error login_row)].
Proof. vm_compute. repeat split. Qed.

(** C2, as stated, fails: a login row that is pending at a reset is not
    kept.  With no acknowledgment for 2 s the timeout fires; the row
    pushed by the first [login()], whose closure settles the promise the
    application waits on, is gone from the table after the reset. *)
Lemma C2_login_row_not_preserved :
  let w := exec (run RefJSON.parse RefJSON.stringify show_rows [CallLogin 0]) node in
  let w' := exec (step RefJSON.parse RefJSON.stringify show_rows (TimeoutFires 2 2000)) w in
  let login_row := mkEntry "" "welcome" (CbLogin 0) 0 in
  In login_row (_pendingReq w) /\
  is_login_row login_row = true /\
  ~ In login_row (_pendingReq w').
Proof.
  vm_compute. repeat split; auto.
  intros [H | []]. discriminate H.
Qed.

Lemma C2_witness :
  let w := exec (run RefJSON.parse RefJSON.stringify show_rows session_two_pending) node in
  let w' := exec (_resetConnection RefJSON.stringify) w in
  _socket w = Some 1%nat /\
  invocations (output w')
  = [(CbLogin 0, JNull);
     (CbCount 3, reset_error (mkEntry "challengecoder1100" "count" (CbCount 3) 100));
     (CbTime 4, reset_error (mkEntry "challengecoder1200" "time" (CbTime 4) 200))] /\
  _pendingReq w' = [mkEntry "" "welcome" (CbLogin 5) 200].
Proof.
  intros w w'.
  destruct (C2_reset_notifies_then_relogs RefJSON.stringify w 1%nat eq_refl)
    as (_ & Hinv & Htbl & _).
  split; [reflexivity|]. split; [exact Hinv | exact Htbl].
Defined.

(** C3, what the code does.  A count request made at 100 ms is never
    answered.  At the heartbeat of 6000 ms the login row (age 6000) and the
    request row (age 5900) have both timed out and sit next to each other:
    the sweep takes the login row out and steps over the request row,
    which stays in the table with its closure not called.  Likewise with
    two request rows, made at 6100 and 6200 ms, at the heartbeat of
    12000 ms: the first is taken out, the second stays. *)
Theorem C3_sweep_steps_over_adjacent_row :
  let w := exec (run RefJSON.parse RefJSON.stringify show_rows session_unanswered) node in
  let row := mkEntry "challengecoder1100" "count" (CbCount 3) 100 in
  let w2 := exec (run RefJSON.parse RefJSON.stringify show_rows session_two_unanswered) node in
  let row1 := mkEntry "challengecoder16100" "count" (CbCount 7) 6100 in
  let row2 := mkEntry "challengecoder16200" "time" (CbTime 8) 6200 in
  (clock w = 6000 /\
   expired 6000 row = true /\
   _pendingReq w = [row] /\
   ~ In (CbCount 3) (map fst (invocations (output w)))) /\
  (clock w2 = 12000 /\
   expired 12000 row1 = true /\ expired 12000 row2 = true /\
   _pendingReq w2 = [row2] /\
   In (CbCount 7, timeout_error row1) (invocations (output w2)) /\
   ~ In (CbTime 8) (map fst (invocations (output w2)))).
Proof.
  vm_compute. repeat split; auto.
  - intros [H | [H | []]]; discriminate H.
  - intros [H | [H | [H | []]]]; discriminate H.
Qed.

Lemma C4_witness :
  let w := exec (run RefJSON.parse RefJSON.stringify show_rows session_resetting) node in
  (loggedIn w = false /\ reset w = true) /\
  step RefJSON.parse RefJSON.stringify show_rows (IntervalFires 7 3100) w
  = (Throw (ReferenceError "i is not defined"), set_clock 3100 w).
Proof.
  intros w. split; [split; reflexivity|].
  unfold step.
  rewrite (bind_ok _ _ w (set_clock 3100 w) tt) by reflexivity.
  apply (C4_poll_throws_when_not_logged_in RefJSON.stringify (set_clock 3100 w) 7%nat
           (mkPoll 5 false (JObj [("request", JStr "count")]) "count" (CbCount 6)));
    reflexivity.
Defined.

(** C5, as stated, fails: [login()] arms a timeout without cancelling
    the one already armed.  Logged in, logged out and logged in again,
    the object has two heartbeat timeouts armed and holds the handle of
    the second only; the first, armed for the connection that was given
    up, fires at 2000 ms and resets the new connection. *)
Lemma C5_relogin_two_deadlines :
  let run := run RefJSON.parse RefJSON.stringify show_rows in
  let w := exec (run session_relogin) node in
  outcome (run session_relogin) node = Ok tt /\
  timeouts w = [(2%nat, 2000); (6%nat, 2200)] /\
  _heartbeatTimer w = Some 6%nat /\
  _socket w = Some 5%nat /\
  ~ (List.length (timeouts w) <= 1)%nat /\
  In (Destroy 5) (output (exec (run (session_relogin ++ [TimeoutFires 2 2000])%list) node)).
Proof.
  vm_compute. repeat split.
  - intros H. inversion H as [|? H']. inversion H'.
  - auto 40.
Qed.

Lemma C5_witness :
  let w := exec (run RefJSON.parse RefJSON.stringify show_rows
                   (CallLogin 0 :: session_with_lapse)) node in
  let fired := step RefJSON.parse RefJSON.stringify show_rows (TimeoutFires 8 7000) in
  (0 <= 3001 <= 65535 /\
   existsb is_login_call session_with_lapse = false /\
   timeouts w = [(8%nat, 7000)]) /\
  ((List.length (timeouts w) <= 1)%nat /\
   forall h d, In (h, d) (timeouts w) -> _heartbeatTimer w = Some h) /\
  outcome fired w = Ok tt /\
  timeouts (exec fired w) = [(S (S (next_handle w)), 9000)].
Proof.
  intros w fired.
  assert (Ht : timeouts w = [(8%nat, 7000)]) by (vm_compute; reflexivity).
  assert (Hs : _socket w = Some 6%nat) by (vm_compute; reflexivity).
  split; [split; [lia | split; [reflexivity | exact Ht]]|].
  pose proof (C5_one_deadline_outstanding RefJSON.parse RefJSON.stringify show_rows
                3001 "127.0.0.1" 0 session_with_lapse ltac:(lia) eq_refl) as H.
  change (constructor 3001 "127.0.0.1") with node in H. cbv zeta in H. fold w in H.
  destruct H as (Hone & _ & Hfire).
  split; [exact Hone|].
  specialize (Hfire 8%nat 7000 7000). rewrite Hs in Hfire.
  destruct (Hfire ltac:(rewrite Ht; reflexivity)) as (Hok & Hto & _).
  split; [exact Hok | exact Hto].
Defined.

(** C6, what the code does.  While a count request is pending the chunk
    [{"type":"msg"}] arrives: a record with the [msg] discriminator and no
    payload, so with no [reply].  Reading [count] of the absent payload
    throws a [TypeError] out of the [data] handler; the record is not
    logged as an error and the rest of the chunk would not be handled. *)
Theorem C6_msg_without_payload_throws :
  let w := exec (run RefJSON.parse RefJSON.stringify show_rows
                   session_msg_without_payload) node in
  outcome (run RefJSON.parse RefJSON.stringify show_rows session_msg_without_payload) node
  = Throw (TypeError "Cannot read property 'count' of undefined") /\
  invocations (output w) = [(CbLogin 0, JNull)] /\
  forall text, ~ In (Log LogError text) (output w).
Proof.
  vm_compute. repeat split.
  intros text H.
  repeat (destruct H as [H | H]; [discriminate H|]). exact H.
Qed.

(** C7, as stated, fails: a time request and a count request made
    within the same millisecond are pending under one key.  The reply
    with count 23 and that key is given to the closure of the time
    request, whose promise is resolved with no time and no number; the
    count request stays pending and its promise is not settled. *)
Lemma C7_same_tick_reply_reaches_time_request :
  let run := run RefJSON.parse RefJSON.stringify show_rows in
  let K1 := "challengecoder1100" in
  let payload := JObj [("count", JNum 23); ("reply", JStr K1)] in
  let w := exec (run session_same_tick_time_first) node in
  let w' := exec (run (session_same_tick_time_first
                       ++ [SocketData 150 (count_reply_text K1)])%list) node in
  _pendingReq w = [mkEntry "" "welcome" (CbLogin 0) 0;
                   mkEntry K1 "time" (CbTime 3) 100;
                   mkEntry K1 "count" (CbCount 4) 100] /\
  RefJSON.parse (count_reply_text K1)
  = Some (JObj [("type", JStr "msg"); ("msg", payload)]) /\
  invocations (output w') = (invocations (output w) ++ [(CbTime 3, payload)])%list /\
  settlement 3 (output w')
  = Some (SettledResolve (JObj [("time", JUndef); ("number", JUndef)])) /\
  settlement 4 (output w') = None /\
  _pendingReq w' = [mkEntry "" "welcome" (CbLogin 0) 0;
                    mkEntry K1 "count" (CbCount 4) 100].
Proof. vm_compute. repeat split. Qed.

Lemma C7_witness :
  let w := exec (run RefJSON.parse RefJSON.stringify show_rows session_two_pending)
             node in
  let K1 := "challengecoder1100" in
  let buffer := count_reply_text K1 in
  let w' := exec (step RefJSON.parse RefJSON.stringify show_rows
                    (SocketData 250 buffer)) w in
  let login_row := mkEntry "" "welcome" (CbLogin 0) 0 in
  let time_row := mkEntry "challengecoder1200" "time" (CbTime 4) 200 in
  (_pendingReq w = [login_row; mkEntry K1 "count" (CbCount 3) 100; time_row] /\
   settlement 3 (output w) = None) /\
  _pendingReq w' = [login_row; time_row] /\
  settlement 3 (output w') = Some (SettledResolve (JObj [("count", JNum 23)])).
Proof.
  intros w K1 buffer w' login_row time_row.
  assert (Ht : _pendingReq w
               = ([login_row] ++ mkEntry K1 "count" (CbCount 3) 100 :: [time_row])%list)
    by (vm_compute; reflexivity).
  assert (Hnew : settlement 3 (output w) = None) by (vm_compute; reflexivity).
  split; [split; [exact Ht | exact Hnew]|].
  destruct (C7_count_reply_delivered RefJSON.parse RefJSON.stringify show_rows
              w K1 250 buffer eq_refl eq_refl eq_refl eq_refl) as [Hrow _].
  destruct (Hrow 3%nat 100 [login_row] [time_row] Ht eq_refl)
    as (_ & Htbl & _ & Hset).
  split; [exact Htbl | exact (Hset Hnew)].
Defined.

Lemma C8_witness :
  let w := exec (run RefJSON.parse RefJSON.stringify show_rows session_logged_in) node in
  let chunk := ("{not json" ++ String newline heartbeat_text)%string in
  let w' := exec (step RefJSON.parse RefJSON.stringify show_rows (SocketData 1500 chunk)) w in
  (RefJSON.parse "{not json" = None /\
   RefJSON.parse heartbeat_text = Some (JObj [("type", JStr "heartbeat")]) /\
   _heartbeatTimer w = Some 2%nat) /\
  outcome (step RefJSON.parse RefJSON.stringify show_rows (SocketData 1500 chunk)) w = Ok tt /\
  timeouts w' = [(3%nat, 3500)] /\
  _heartbeatTimer w' = Some 3%nat.
Proof.
  intros w chunk w'.
  destruct (C8_decoder_drops_and_continues RefJSON.parse RefJSON.stringify show_rows
              chunk w) as [_ Hscenario].
  destruct (Hscenario "{not json" heartbeat_text 2%nat 1500
              eq_refl eq_refl eq_refl eq_refl eq_refl eq_refl eq_refl)
    as (Hok & _ & Ht & Hh).
  split; [repeat split|]. split; [exact Hok|]. split; [exact Ht | exact Hh].
Defined.

(** C9, as stated, fails: two requests made within the same millisecond
    get the same id; both rows are pending under it. *)
Lemma C9_same_tick_same_key :
  let w := exec (run RefJSON.parse RefJSON.stringify show_rows session_same_tick) node in
  _pendingReq w
  = [mkEntry "" "welcome" (CbLogin 0) 0;
     mkEntry "challengecoder1100" "count" (CbCount 3) 100;
     mkEntry "challengecoder1100" "time" (CbTime 4) 100].
Proof. vm_compute. reflexivity. Qed.

Lemma C9_witness :
  let w1 := exec (run RefJSON.parse RefJSON.stringify show_rows
                    (session_logged_in ++ [CallGetRequestCount 100])) node in
  let w2 := exec (run RefJSON.parse RefJSON.stringify show_rows
                    (session_logged_in ++ [CallGetRequestCount 100; CallGetTime 101])) node in
  (loggedIn w1 = true /\ loggedIn w2 = true /\ clock w1 <> clock w2) /\
  outcome _nextMsgId w1 <> outcome _nextMsgId w2.
Proof.
  intros w1 w2.
  assert (Hclock : clock w1 <> clock w2) by (vm_compute; discriminate).
  split; [repeat split; exact Hclock|].
  apply (C9_keys_differ_across_ticks RefJSON.parse RefJSON.stringify show_rows
           3001 "127.0.0.1"
           (session_logged_in ++ [CallGetRequestCount 100])
           (session_logged_in ++ [CallGetRequestCount 100; CallGetTime 101]));
    [reflexivity | reflexivity | exact Hclock].
Defined.



(** ** Instances of the further properties *)

Lemma X1_witness :
  let w := exec (run RefJSON.parse RefJSON.stringify show_rows session_two_pending)
             node in
  let w' := exec (login RefJSON.stringify) w in
  (0 <= connPort w <= 65535 /\ List.length (_pendingReq w) = 3%nat) /\
  _pendingReq w' = [mkEntry "" "welcome" (CbLogin 5) 200] /\
  invocations (output w') = invocations (output w) /\
  settlement 3 (output w') = settlement 3 (output w).
Proof.
  intros w w'.
  assert (Hport : 0 <= connPort w <= 65535) by (vm_compute; split; discriminate).
  split; [split; [exact Hport | reflexivity]|].
  destruct (X1_login_drops_pending_rows RefJSON.stringify w Hport)
    as (_ & Ht & Hi & Hs & _).
  split; [exact Ht|]. split; [exact Hi | exact (Hs 3%nat)].
Defined.

Lemma X3_witness :
  let w := exec (run RefJSON.parse RefJSON.stringify show_rows [CallLogin 0]) node in
  let evs := [CallLogout 100; TimeoutFires 2 2000] in
  find_handle 2%nat (timeouts w) = Some 2000 /\
  (exists text,
      outcome (run RefJSON.parse RefJSON.stringify show_rows evs) w
      = Throw (TypeError text)) /\
  reset (exec (run RefJSON.parse RefJSON.stringify show_rows evs) w) = true.
Proof.
  intros w evs. split; [reflexivity|].
  destruct (X3_deadline_after_logout_throws RefJSON.parse RefJSON.stringify
              show_rows w 2%nat 2000 100 2000 eq_refl) as (H & _ & Hr & _).
  split; [exact H | exact Hr].
Defined.

Lemma X4_witness :
  outcome (getRequestCount RefJSON.stringify) node = Ok 0%nat /\
  In (Reject 0 (JObj [("err", JStr "Not logged into server!")]))
     (output (exec (getTime RefJSON.stringify) node)).
Proof.
  destruct (X4_request_rejected_when_not_logged_in RefJSON.stringify node
              eq_refl eq_refl) as (Hc & Ht).
  unfold outcome, exec. rewrite Hc, Ht. split; [reflexivity|].
  cbn. auto.
Defined.

Lemma X5_witness :
  let w := exec (run RefJSON.parse RefJSON.stringify show_rows
                   (session_resetting ++ [SocketData 2200 welcome_text])) node in
  let w1 := exec (_chkServerLogin_tick RefJSON.stringify 7) w in
  (loggedIn w = true /\ _socket w = Some 4%nat) /\
  _pendingReq w1
  = [mkEntry "" "welcome" (CbLogin 3) 2000;
     mkEntry "challengecoder12200" "count" (CbCount 6) 2200] /\
  map fst (intervals w1) = map fst (intervals w) /\
  step RefJSON.parse RefJSON.stringify show_rows (IntervalFires 7 4100) w1
  = (Ok tt, set_clock 4100 w1).
Proof.
  intros w w1. split; [split; reflexivity|].
  destruct (X5_poll_sends_once RefJSON.parse RefJSON.stringify show_rows w 7%nat 4%nat
              (mkPoll 5 false (JObj [("request", JStr "count")]) "count" (CbCount 6))
              4100 eq_refl eq_refl eq_refl eq_refl)
    as (_ & Ht & _ & _ & Hi & Hk & Hli & Hs).
  split; [exact Ht|]. split; [exact Hi | exact (Hs _ Hk Hli)].
Defined.

Lemma X6_witness :
  let w := exec (run RefJSON.parse RefJSON.stringify show_rows [CallLogin 0]) node in
  let e := mkEntry "" "welcome" (CbLogin 0) 0 in
  let w' := exec (_chkPendingReq RefJSON.stringify 6000) w in
  (_pendingReq w = [e] /\ loggedIn w = false /\ settlement 0 (output w) = None) /\
  settlement 0 (output w') = Some (SettledReject (timeout_error e)) /\
  loggedIn w' = true.
Proof.
  intros w e w'. split; [repeat split|].
  destruct (X6_timed_out_login_marks_logged_in RefJSON.stringify 6000 w e []
              0%nat eq_refl eq_refl ltac:(cbn; lia) eq_refl) as (Hr & Hl & _).
  split; [exact Hr | exact Hl].
Defined.

Lemma X7_witness :
  List.length (_pendingReq node) <> 1%nat /\
  fst (_handleServerMsg_step RefJSON.stringify show_rows
         (JObj [("type", JStr "welcome")]) node)
  = Throw (Error "Invalid pending request table on login: ").
Proof.
  assert (H : List.length (_pendingReq node) <> 1%nat) by (cbn; discriminate).
  split; [exact H|].
  pose proof (X7_welcome_with_other_table_throws RefJSON.stringify show_rows
                (JObj [("type", JStr "welcome")]) node eq_refl (or_introl H)) as E.
  cbv zeta in E. rewrite E. reflexivity.
Defined.

Lemma X8_witness :
  let msg := JObj [("type", JStr "welcome")] in
  let w1 := exec (login RefJSON.stringify) node in
  loggedIn (exec (_handleServerMsg_step RefJSON.stringify show_rows msg) w1) = true.
Proof.
  intros msg w1.
  exact (proj1 (proj2 (X8_login_then_welcome RefJSON.stringify show_rows msg node
                         eq_refl))).
Defined.

Lemma X9_witness :
  let w := exec (run RefJSON.parse RefJSON.stringify show_rows
                   (session_logged_in ++ [CallGetTime 100])) node in
  let fs := [("count", JNum 23); ("reply", JStr "challengecoder1100")] in
  let msg := JObj [("type", JStr "msg"); ("msg", JObj fs)] in
  let w' := exec (_handleServerMsg_step RefJSON.stringify show_rows msg) w in
  _pendingReq w
  = ([mkEntry "" "welcome" (CbLogin 0) 0]
     ++ mkEntry "challengecoder1100" "time" (CbTime 3) 100 :: [])%list /\
  In (Resolve 3 (JObj [("time", JUndef); ("number", JUndef)])) (output w').
Proof.
  intros w fs msg w'. split; [reflexivity|].
  destruct (X9_reply_matched_by_key_alone RefJSON.stringify show_rows w fs
              "challengecoder1100" 3%nat 100 [mkEntry "" "welcome" (CbLogin 0) 0] []
              eq_refl eq_refl eq_refl eq_refl eq_refl eq_refl)
    as (_ & _ & Hout).
  fold msg w' in Hout. rewrite Hout. apply in_or_app. right. cbn. auto 6.
Defined.

Lemma X10_witness :
  let w := exec (run RefJSON.parse RefJSON.stringify show_rows session_two_pending)
             node in
  map reqTime (_pendingReq w) = [0; 100; 200] /\
  _chkPendingReq RefJSON.stringify 5000 w = (Ok tt, w).
Proof.
  intros w.
  assert (Ht : _pendingReq w
               = [mkEntry "" "welcome" (CbLogin 0) 0;
                  mkEntry "challengecoder1100" "count" (CbCount 3) 100;
                  mkEntry "challengecoder1200" "time" (CbTime 4) 200])
    by (vm_compute; reflexivity).
  split; [rewrite Ht; reflexivity|].
  apply (X10_sweep_of_young_rows_is_idle RefJSON.stringify 5000 w).
  rewrite Ht. intros e [<-|[<-|[<-|[]]]]; cbn [reqTime]; lia.
Defined.

Lemma X13_witness :
  let w := exec (run RefJSON.parse RefJSON.stringify show_rows session_logged_in)
             (constructor 3001 "127.0.0.1") in
  loggedIn w = true /\
  exists sock,
    _socket w = Some sock /\
    _pendingReq (exec (step RefJSON.parse RefJSON.stringify show_rows
                         (CallGetRequestCount 100)) w)
    = (_pendingReq w
       ++ [mkEntry (msgId_of "coder1" 100) "count" (CbCount (next_handle w)) 100])%list.
Proof.
  intros w.
  assert (Hli : loggedIn w = true) by (vm_compute; reflexivity).
  split; [exact Hli|].
  destruct (X13_request_when_logged_in_is_written RefJSON.parse RefJSON.stringify
              show_rows 3001 "127.0.0.1" session_logged_in 100 Hli)
    as (sock & Hs & _ & _ & Ht & _).
  exists sock. split; [exact Hs | exact Ht].
Defined.

Lemma X15_witness :
  let buffer := ("null" ++ String newline heartbeat_text)%string in
  let w := exec (run RefJSON.parse RefJSON.stringify show_rows session_logged_in)
             node in
  (split_lines buffer = ["null"; heartbeat_text] /\
   RefJSON.parse "null" = Some JNull) /\
  exists text,
    outcome (_handleServerMsg RefJSON.parse RefJSON.stringify show_rows buffer) w
    = Throw (TypeError text).
Proof.
  intros buffer w. split; [split; reflexivity|].
  exact (proj1 (X15_null_record_throws RefJSON.parse RefJSON.stringify show_rows
                  buffer w "null" [heartbeat_text] eq_refl eq_refl eq_refl)).
Defined.

Lemma X16_witness :
  let msg := JObj [("type", JStr "count"); ("count", JNum 23);
                   ("id", JStr "challengecoder1100")] in
  recognized_type (JStr "count") = false /\
  _handleServerMsg_step RefJSON.stringify show_rows msg node
  = (Ok tt,
     set_output
       [Log LogError
          (JStr ("Unrecognized message encountered: " ++ RefJSON.stringify msg))]
       node).
Proof.
  intros msg. split; [reflexivity|].
  exact (X16_unrecognized_record_only_logs RefJSON.stringify show_rows msg
           (JStr "count") node eq_refl eq_refl).
Defined.

Lemma X17_witness :
  let buffer := String newline (String " " (String newline EmptyString)) in
  trim_nonempty buffer = false /\
  _handleServerMsg RefJSON.parse RefJSON.stringify show_rows buffer node
  = (Ok tt, set_output [Log LogReceived (JStr buffer)] node).
Proof.
  intros buffer. split; [reflexivity|].
  exact (X17_blank_chunk_is_ignored RefJSON.parse RefJSON.stringify show_rows
           buffer node eq_refl).
Defined.

(** * The console user interface and the application *)

Lemma starts_with_append (pat s : string) : starts_with pat (pat ++ s) = true.
Proof.
  induction pat as [|a pat IH]; [reflexivity|].
  cbn. rewrite Ascii.eqb_refl. exact IH.
Qed.

Lemma drop_append (pat s : string) : drop (String.length pat) (pat ++ s) = s.
Proof. induction pat as [|a pat IH]; [reflexivity | exact IH]. Qed.

Lemma split_first_eq (pat s : string) :
  split_first pat s
  = if starts_with pat s then Some (EmptyString, drop (String.length pat) s)
    else
      match s with
      | EmptyString => None
      | String c rest =>
          match split_first pat rest with
          | Some (before, after) => Some (String c before, after)
          | None => None
          end
      end.
Proof. destruct s; reflexivity. Qed.

(** The first occurrence of a pattern that begins with a code unit the
    text before it is free of. *)
Lemma split_first_found (c : ascii) (pat pre post : string) :
  has_unit c pre = false ->
  split_first (String c pat) (pre ++ String c pat ++ post) = Some (pre, post).
Proof.
  intros Hpre. induction pre as [|d pre IH].
  - change ("" ++ String c pat ++ post)%string with (String c pat ++ post)%string.
    rewrite split_first_eq, starts_with_append, drop_append. reflexivity.
  - cbn [has_unit] in Hpre. apply orb_false_iff in Hpre. destruct Hpre as [Hd Hpre].
    change (String d pre ++ String c pat ++ post)%string
      with (String d (pre ++ String c pat ++ post)).
    rewrite split_first_eq. cbn [starts_with]. rewrite Ascii.eqb_sym, Hd. cbn [andb].
    rewrite (IH Hpre). reflexivity.
Qed.

Lemma get_substitution_plain (matched before after repl : string) :
  has_unit "$" repl = false ->
  get_substitution matched before after repl = repl.
Proof.
  induction repl as [|c repl IH]; [reflexivity|].
  cbn [has_unit get_substitution]. intros H.
  apply orb_false_iff in H. destruct H as [Hc Hr].
  rewrite Hc, (IH Hr). reflexivity.
Qed.

Lemma replace_plain (pre post r : string) :
  has_unit "%" pre = false ->
  has_unit "$" r = false ->
  replace (pre ++ "%0" ++ post) "%0" r = (pre ++ r ++ post)%string.
Proof.
  intros Hpre Hr. unfold replace.
  rewrite (split_first_found "%" "0" pre post Hpre).
  rewrite (get_substitution_plain _ _ _ _ Hr). reflexivity.
Qed.

(** X18.  [_formatMsg] puts a replacer string that holds no dollar sign
    in the place of the first [%0] of the template, be the replacer given
    alone or in an array, and leaves the rest of the template as it is;
    without a replacer the template is returned unchanged. *)
Theorem X18_formatMsg_fills_placeholder (pre post r : string) :
  has_unit "%" pre = false ->
  has_unit "$" r = false ->
  let template := (pre ++ "%0" ++ post)%string in
  _formatMsg template (OneReplacer r) = (pre ++ r ++ post)%string /\
  _formatMsg template (Replacers [r]) = (pre ++ r ++ post)%string /\
  _formatMsg template (Replacers []) = template /\
  _formatMsg template NoReplacer = template.
Proof.
  intros Hpre Hr. cbv zeta.
  cbn [_formatMsg _formatMsg_from]. change ("%" ++ toString (Z.of_nat 0))%string with "%0".
  rewrite (replace_plain pre post r Hpre Hr). auto.
Qed.

(** X19.  The replacer string is interpreted by [replace]: a line or a
    connection text that holds a dollar sign is not shown as it is.  In
    the place of [%0], [$&] leaves the placeholder, [$$] gives a single
    dollar sign, and [$`] and [$'] repeat the part of the template before
    and after the placeholder. *)
Theorem X19_formatMsg_interprets_dollar (pre post : string) :
  has_unit "%" pre = false ->
  let template := (pre ++ "%0" ++ post)%string in
  _formatMsg template (OneReplacer "$&") = template /\
  _formatMsg template (OneReplacer "$$") = (pre ++ "$" ++ post)%string /\
  _formatMsg template (OneReplacer "$`") = (pre ++ pre ++ post)%string /\
  _formatMsg template (OneReplacer "$'") = (pre ++ post ++ post)%string.
Proof.
  intros Hpre. cbv zeta.
  cbn [_formatMsg _formatMsg_from]. change ("%" ++ toString (Z.of_nat 0))%string with "%0".
  unfold replace. rewrite (split_first_found "%" "0" pre post Hpre).
  cbn [get_substitution Ascii.eqb Bool.eqb append].
  rewrite !append_nil_r. repeat split.
Qed.

(** X20.  A line entered at the prompt is compared, trimmed of white
    space and with its case kept, against [count], [time] and [quit]: it
    starts exactly that command when it is one of them, and otherwise
    only prints that the command is not recognized and prompts again.
    The branch of [handleCmd] for an unknown command type is never
    reached from the console.  The message names the trimmed line as
    entered when it holds no dollar sign. *)
Theorem X20_line_starts_one_command (Number_toString : Z -> string)
    (line : string) :
  let t := trim line in
  let unknown :=
    replace ("Command " ++ dq ++ "%0" ++ dq ++ " not recognized") "%0" t in
  (t = "count" /\ on_line Number_toString line = Ok [CmdGetRequestCount]) \/
  (t = "time" /\ on_line Number_toString line = Ok [CmdGetTime]) \/
  (t = "quit" /\ on_line Number_toString line = Ok [CmdQuit]) \/
  (~ In t _CMD /\
   on_line Number_toString line = Ok [UI (ConsoleLog unknown); UI RlPrompt] /\
   (has_unit "$" t = false ->
    unknown = ("Command " ++ dq ++ t ++ dq ++ " not recognized")%string)).
Proof.
  intros t unknown. unfold on_line, _rlLineCallback, indexOf. fold t.
  cbn [_CMD indexOf_from].
  destruct (String.eqb "count" t) eqn:E1.
  { apply String.eqb_eq in E1. left. split; [symmetry; exact E1 | reflexivity]. }
  destruct (String.eqb "time" t) eqn:E2.
  { apply String.eqb_eq in E2. right. left. split; [symmetry; exact E2 | reflexivity]. }
  destruct (String.eqb "quit" t) eqn:E3.
  { apply String.eqb_eq in E3. right. right. left.
    split; [symmetry; exact E3 | reflexivity]. }
  right. right. right. split; [|split].
  - intros [H | [H | [H | []]]]; subst t; rewrite <- H in *;
      cbn in E1, E2, E3; discriminate.
  - reflexivity.
  - intros Hplain. unfold unknown.
    apply (replace_plain ("Command " ++ dq) (dq ++ " not recognized") t eq_refl Hplain).
Qed.

Lemma toLowerCase_unit_y (c : ascii) :
  Ascii.eqb (toLowerCase_unit c) "y" = true <-> c = "y"%char \/ c = "Y"%char.
Proof.
  destruct c as [[] [] [] [] [] [] [] []]; vm_compute;
    (split; [intros H; first [discriminate H | auto]
            | intros [H | H]; first [discriminate H | reflexivity]]).
Qed.

(** X21.  The answer to the retry question counts as yes exactly when
    its first character is [y] or [Y]; the empty answer, and an answer
    that begins with a blank, count as no. *)
Theorem X21_retry_answer_reads_first_letter (reply : string) :
  retry_answer reply = true
  <-> exists rest, reply = String "y" rest \/ reply = String "Y" rest.
Proof.
  unfold retry_answer, substr0. destruct reply as [|c rest].
  - cbn. split; [discriminate | intros (r & [H | H]); discriminate H].
  - assert (E : substring 0 1 (String c rest) = String c EmptyString)
      by (cbn; destruct rest; reflexivity).
    rewrite E. cbn [toLowerCase String.eqb].
    destruct (Ascii.eqb (toLowerCase_unit c) "y") eqn:Hc.
    + apply toLowerCase_unit_y in Hc. split; [intros _|reflexivity].
      exists rest. destruct Hc as [-> | ->]; auto.
    + split; [discriminate|]. intros (r & [H | H]); injection H as -> _;
        vm_compute in Hc; discriminate Hc.
Qed.

Lemma X18_witness :
  let pre := "Logged in to server at " in
  nth_error _MSG MSG_CONNECTIONINFO = Some (pre ++ "%0" ++ "")%string /\
  _formatMsg (pre ++ "%0" ++ "") (Replacers ["35.184.58.167:9432"])
  = "Logged in to server at 35.184.58.167:9432".
Proof.
  intros pre. split; [reflexivity|].
  exact (proj1 (proj2 (X18_formatMsg_fills_placeholder pre "" "35.184.58.167:9432"
                         eq_refl eq_refl))).
Defined.

Lemma X19_witness :
  let pre := ("Command " ++ dq)%string in
  let post := (dq ++ " not recognized")%string in
  nth_error _MSG MSG_INVALIDCMD = Some (pre ++ "%0" ++ post)%string /\
  _formatMsg (pre ++ "%0" ++ post) (OneReplacer "$&") = (pre ++ "%0" ++ post)%string.
Proof.
  intros pre post. split; [reflexivity|].
  exact (proj1 (X19_formatMsg_interprets_dollar pre post eq_refl)).
Defined.

(** * The test server *)

Section TestServerProperties.

Variable JSON_parse : string -> option jsval.
Variable JSON_stringify : jsval -> string.
Variable Number_toString : Z -> string.
Variable show_table : list entry -> string.

Import TestServer.

Lemma s_emit_ok (e : server_effect) (st : server) :
  written_ok e -> Forall written_ok (s_output st) ->
  Forall written_ok (s_output (s_emit e st)).
Proof.
  intros He H. cbn. apply Forall_app. split; [exact H | constructor; [exact He | constructor]].
Qed.

Lemma s_clearInterval_output (h : option nat) (st : server) :
  s_output (s_clearInterval h st) = s_output st.
Proof. destruct h; reflexivity. Qed.

Lemma server_step_ok (ev : server_event) (st : server) :
  Forall written_ok (s_output st) ->
  Forall written_ok (s_output (snd (server_step JSON_parse JSON_stringify Number_toString ev st))).
Proof.
  intros H. destruct ev as [socket buffer now | socket err now | h now];
    cbn [server_step].
  - unfold server_data. destruct (JSON_parse buffer) as [req|]; [|exact H].
    destruct (get_prop req "name") as [name|e];
      [|cbn [snd]; apply s_emit_ok; [exact I | exact H]].
    destruct (negb (is_undefined name)).
    { destruct (js_String Number_toString name) as [text|e];
        cbn [snd s_output]; repeat apply s_emit_ok; try exact I; exact H. }
    destruct (get_prop req "request") as [request|e];
      [|cbn [snd]; apply s_emit_ok; [exact I | exact H]].
    destruct (get_prop req "id") as [id|e];
      [|cbn [snd]; apply s_emit_ok; [exact I | exact H]].
    destruct (negb (is_undefined request));
      [|cbn [snd]; repeat apply s_emit_ok; try exact I; exact H].
    unfold testSocket_write. cbn [testSocket s_emit s_set_clock].
    destruct (strict_eq_str request "count");
      [|destruct (strict_eq_str request "time")];
      try destruct (testSocket st);
      repeat match goal with
             | |- context [js_String Number_toString ?v] =>
                 destruct (js_String Number_toString v)
             end;
      cbn [snd];
      repeat apply s_emit_ok; try exact I; try exact H;
      cbn [written_ok]; eauto.
  - unfold server_error. destruct (js_String Number_toString err) as [text|e];
      [|exact H].
    cbv zeta. cbn [snd].
    rewrite s_clearInterval_output. repeat apply s_emit_ok; try exact I. exact H.
  - destruct (existsb (Nat.eqb h) (s_intervals st)); [|exact H].
    unfold server_tick, testSocket_write. cbv zeta.
    cbn [testSocket s_set_hbcount s_set_clock hbcount].
    destruct (hbcount st >? 0).
    + destruct (testSocket st); cbn [snd];
        repeat apply s_emit_ok; try exact I; try exact H.
      left. reflexivity.
    + cbn [snd]. rewrite s_clearInterval_output.
      apply s_emit_ok; [exact I | exact H].
Qed.

Lemma server_run_ok (evs : list server_event) :
  forall st, Forall written_ok (s_output st) ->
             Forall written_ok (s_output (snd (server_run JSON_parse JSON_stringify Number_toString evs st))).
Proof.
  induction evs as [|ev evs IH]; intros st H; [exact H|].
  cbn [server_run]. pose proof (server_step_ok ev st H) as H1.
  destruct (server_step JSON_parse JSON_stringify Number_toString ev st) as [[u|e] st']; [apply IH, H1 | exact H1].
Qed.

(** X22.  Whatever the test server receives, every record it writes is
    a heartbeat, or a record whose [type] is [count] or [time].  The
    client has no case for these two types (it takes replies in records
    of type [msg]): it only logs such a record as unrecognized, with the
    table untouched and no closure called.  So the test server never
    acknowledges a login and never answers a request in a way the client
    takes. *)
Theorem X22_server_replies_not_taken_by_client (evs : list server_event)
    (sock : nat) (obj : jsval) :
  In (SWrite sock obj) (s_output (snd (server_run JSON_parse JSON_stringify Number_toString evs server_start))) ->
  obj = heartbeat_record \/
  exists t,
    get_prop obj "type" = Ok (JStr t) /\ (t = "count" \/ t = "time") /\
    forall (r : jsval) (w : world),
      get_prop r "type" = Ok (JStr t) ->
      _handleServerMsg_step JSON_stringify show_table r w
      = (Ok tt,
         set_output
           (output w
            ++ [Log LogError
                  (JStr ("Unrecognized message encountered: " ++ JSON_stringify r))])
           w).
Proof.
  intros Hin.
  pose proof (server_run_ok evs server_start (Forall_nil _)) as H.
  rewrite Forall_forall in H. specialize (H _ Hin). cbn [written_ok] in H.
  assert (Hclient : forall t, t = "count" \/ t = "time" ->
            forall (r : jsval) (w : world),
              get_prop r "type" = Ok (JStr t) ->
              _handleServerMsg_step JSON_stringify show_table r w
              = (Ok tt,
                 set_output
                   (output w
                    ++ [Log LogError
                          (JStr ("Unrecognized message encountered: "
                                 ++ JSON_stringify r))])
                   w)).
  { intros t Ht r w Hr. unfold _handleServerMsg_step.
    rewrite (bind_ok _ _ w w (JStr t)) by (unfold lift; rewrite Hr; reflexivity).
    destruct Ht as [-> | ->]; reflexivity. }
  destruct H as [-> | [(id & ->) | (now & id & ->)]].
  - left. reflexivity.
  - right. exists "count". split; [reflexivity|]. split; [left; reflexivity|].
    apply Hclient. left. reflexivity.
  - right. exists "time". split; [reflexivity|]. split; [right; reflexivity|].
    apply Hclient. right. reflexivity.
Qed.


Lemma heartbeats_app (a b : list server_effect) :
  heartbeats (a ++ b) = (heartbeats a + heartbeats b)%nat.
Proof. unfold heartbeats. rewrite filter_app, length_app. reflexivity. Qed.

Lemma ticks_when_cleared (h : nat) (times : list Z) :
  forall st,
    s_intervals st = [] ->
    let st' := snd (server_run JSON_parse JSON_stringify Number_toString (ticks h times) st) in
    fst (server_run JSON_parse JSON_stringify Number_toString (ticks h times) st) = Ok tt /\
    s_output st' = s_output st /\ s_intervals st' = [].
Proof.
  induction times as [|now times IH]; intros st Hi; [cbn; auto|].
  cbn [ticks map server_run server_step]. rewrite Hi. cbn [existsb].
  apply (IH (s_set_clock now st)). exact Hi.
Qed.

Lemma server_tick_send (st : server) (sock : nat) :
  testSocket st = Some sock -> hbcount st > 0 ->
  server_tick st
  = (Ok tt,
     mkServer (Some sock) (timer st) (hbcount st - 1) (s_intervals st) (s_next st)
       (s_clock st)
       (s_output st ++ [SWrite sock heartbeat_record;
                        SConsole ("heartbeat sent at " ++ toString (s_clock st))])).
Proof.
  intros Hs Hc. unfold server_tick, testSocket_write. cbv zeta.
  replace (hbcount st >? 0) with true by (symmetry; apply Z.gtb_lt; lia).
  cbn [testSocket s_set_hbcount]. rewrite Hs. unfold s_emit. cbn.
  rewrite ?Hs, <- ?app_assoc. reflexivity.
Qed.

Lemma server_tick_stop (st : server) (h : nat) :
  timer st = Some h -> hbcount st <= 0 ->
  server_tick st
  = (Ok tt,
     mkServer (testSocket st) (Some h) (hbcount st - 1)
       (filter (fun i => negb (Nat.eqb i h)) (s_intervals st)) (s_next st)
       (s_clock st)
       (s_output st ++ [SConsole "heartbeat timer terminated"])).
Proof.
  intros Ht Hc. unfold server_tick. cbv zeta.
  replace (hbcount st >? 0) with false
    by (symmetry; rewrite Z.gtb_ltb; apply Z.ltb_ge; lia).
  cbn [timer s_emit s_set_hbcount]. rewrite Ht.
  unfold s_clearInterval, s_emit, s_set_hbcount. cbn. rewrite ?Ht. reflexivity.
Qed.

(** X23.  After a login the server sends ten heartbeats and no more: as
    long as the interval of that login is the only one armed, its first
    ten runs write one heartbeat each to the socket of the login, the
    eleventh clears the interval, and nothing runs after that. *)
Theorem X23_server_sends_ten_heartbeats (st : server) (h sock : nat)
    (times : list Z) :
  testSocket st = Some sock ->
  timer st = Some h ->
  s_intervals st = [h] ->
  hbcount st = 10 ->
  let st' := snd (server_run JSON_parse JSON_stringify Number_toString (ticks h times) st) in
  fst (server_run JSON_parse JSON_stringify Number_toString (ticks h times) st) = Ok tt /\
  heartbeats (s_output st')
  = (heartbeats (s_output st) + Nat.min (List.length times) 10)%nat /\
  s_intervals st' = (if (List.length times <=? 10)%nat then [h] else []).
Proof.
  intros Hs Ht Hi Hc.
  assert (G : forall (k : nat) (times : list Z) (st : server),
             testSocket st = Some sock -> timer st = Some h ->
             s_intervals st = [h] -> hbcount st = Z.of_nat k ->
             let st' := snd (server_run JSON_parse JSON_stringify Number_toString (ticks h times) st) in
             fst (server_run JSON_parse JSON_stringify Number_toString (ticks h times) st) = Ok tt /\
             heartbeats (s_output st')
             = (heartbeats (s_output st) + Nat.min (List.length times) k)%nat /\
             s_intervals st' = (if (List.length times <=? k)%nat then [h] else [])).
  { clear. intros k times. revert k.
    induction times as [|now times IH]; intros k st Hs Ht Hi Hc.
    - cbn. rewrite Nat.add_0_r. auto.
    - cbn [ticks map server_run server_step]. fold (ticks h times).
      rewrite Hi. cbn [existsb]. rewrite Nat.eqb_refl. cbn [orb].
      destruct k as [|k].
      + rewrite (server_tick_stop (s_set_clock now st) h Ht)
          by (cbn [hbcount s_set_clock]; lia).
        cbn [s_intervals s_set_clock]. rewrite Hi. cbn [filter].
        rewrite Nat.eqb_refl. cbn [negb].
        match goal with
        | |- context [server_run _ _ _ _ ?S0] =>
            destruct (ticks_when_cleared h times S0 eq_refl) as (E1 & E2 & E3)
        end.
        cbv zeta in E1, E2, E3. rewrite E1, E2, E3.
        cbn [s_output s_set_clock List.length Nat.min Nat.leb].
        rewrite heartbeats_app. cbn. split; [reflexivity|]. split; [lia | reflexivity].
      + rewrite (server_tick_send (s_set_clock now st) sock Hs)
          by (cbn [hbcount s_set_clock]; lia).
        match goal with
        | |- context [server_run _ _ _ _ ?S0] =>
            destruct (IH k S0) as (E1 & E2 & E3);
            [reflexivity | exact Ht | exact Hi
            | cbn [hbcount s_set_clock]; lia |]
        end.
        cbv zeta in E1, E2, E3. rewrite E1, E2, E3.
        cbn [s_output s_set_clock List.length Nat.min Nat.leb].
        rewrite !heartbeats_app. cbn. split; [reflexivity|]. split; [lia | reflexivity]. }
  exact (G 10%nat times st Hs Ht Hi Hc).
Qed.

(** X24.  The server clears only the interval that its variable [timer]
    names.  An armed interval that [timer] no longer names, as that of a
    login followed by another login, is never cleared, whatever the
    server receives afterwards. *)
Theorem X24_server_leaks_earlier_interval (evs : list server_event)
    (st : server) (h : nat) :
  In h (s_intervals st) ->
  timer st <> Some h ->
  (h < s_next st)%nat ->
  In h (s_intervals (snd (server_run JSON_parse JSON_stringify Number_toString evs st))).
Proof.
  revert st. induction evs as [|ev evs IH]; intros st Hin Ht Hn; [exact Hin|].
  cbn [server_run].
  assert (Hclear : forall t st0, In h (s_intervals st0) -> t <> Some h ->
                                 In h (s_intervals (s_clearInterval t st0))).
  { intros [t|] st0 H0 Hne; [|exact H0]. cbn. apply filter_In. split; [exact H0|].
    apply negb_true_iff, Nat.eqb_neq. congruence. }
  assert (Hkeep : forall t st0, timer (s_clearInterval t st0) = timer st0 /\
                                s_next (s_clearInterval t st0) = s_next st0).
  { intros [t|] st0; split; reflexivity. }
  assert (Hstep : let st' := snd (server_step JSON_parse JSON_stringify Number_toString ev st) in
                  In h (s_intervals st') /\ timer st' <> Some h /\ (h < s_next st')%nat).
  { cbv zeta. destruct ev as [socket buffer now | socket err now | i now];
      cbn [server_step].
    - unfold server_data. destruct (JSON_parse buffer) as [req|]; [|cbn; auto].
      destruct (get_prop req "name") as [name|e]; [|cbn; auto].
      destruct (negb (is_undefined name)).
      { destruct (js_String Number_toString name) as [text|e]; [|cbn; auto].
        cbn. split; [apply in_or_app; left; exact Hin|].
        split; [intros [= E]; lia | lia]. }
      destruct (get_prop req "request") as [request|e]; [|cbn; auto].
      destruct (get_prop req "id") as [id|e]; [|cbn; auto].
      unfold testSocket_write. cbn [testSocket s_emit s_set_clock].
      destruct (negb (is_undefined request)); [|cbn; auto].
      destruct (strict_eq_str request "count");
        [|destruct (strict_eq_str request "time")];
        try destruct (testSocket st);
        repeat match goal with
               | |- context [js_String Number_toString ?v] =>
                   destruct (js_String Number_toString v)
               end;
        cbn; auto.
    - unfold server_error. destruct (js_String Number_toString err) as [text|e];
        [|cbn; auto].
      cbv zeta. cbn [snd].
      split; [apply Hclear; [exact Hin | exact Ht]|].
      rewrite (proj1 (Hkeep _ _)), (proj2 (Hkeep _ _)). cbn. auto.
    - destruct (existsb (Nat.eqb i) (s_intervals st)); [|cbn; auto].
      unfold server_tick, testSocket_write. cbv zeta.
      cbn [testSocket s_set_hbcount s_set_clock hbcount].
      destruct (hbcount st >? 0).
      + destruct (testSocket st); cbn; auto.
      + cbn [snd]. split; [apply Hclear; [exact Hin | exact Ht]|].
        rewrite (proj1 (Hkeep _ _)), (proj2 (Hkeep _ _)). cbn. auto. }
  cbv zeta in Hstep. destruct Hstep as (H1 & H2 & H3).
  destruct (server_step JSON_parse JSON_stringify Number_toString ev st) as [[u|e] st'];
    [apply IH; assumption | exact H1].
Qed.

End TestServerProperties.

Lemma X22_witness :
  let login_text := ("{" ++ quoted "name" ++ ":" ++ quoted "coder1" ++ "}")%string in
  let request_text :=
    ("{" ++ quoted "request" ++ ":" ++ quoted "count" ++ "," ++ quoted "id" ++ ":"
     ++ quoted "challengecoder1100" ++ "}")%string in
  let evs := [TestServer.SData 1 login_text 0; TestServer.SData 1 request_text 100] in
  let obj := TestServer.count_record (JStr "challengecoder1100") in
  let w := exec (run RefJSON.parse RefJSON.stringify show_rows
                   (session_logged_in ++ [CallGetRequestCount 100])) node in
  In (TestServer.SWrite 1 obj)
     (TestServer.s_output
        (snd (TestServer.server_run RefJSON.parse RefJSON.stringify toString evs
                TestServer.server_start))) /\
  _pendingReq (exec (_handleServerMsg_step RefJSON.stringify show_rows obj) w)
  = _pendingReq w.
Proof.
  intros login_text request_text evs obj w.
  assert (Hin : In (TestServer.SWrite 1 obj)
                  (TestServer.s_output
                     (snd (TestServer.server_run RefJSON.parse RefJSON.stringify toString evs
                             TestServer.server_start))))
    by (vm_compute; auto).
  split; [exact Hin|].
  destruct (X22_server_replies_not_taken_by_client RefJSON.parse RefJSON.stringify
              toString show_rows evs 1%nat obj Hin) as [H | (t & Ht & _ & Hc)];
    [discriminate H|].
  unfold exec at 1. rewrite (Hc obj w Ht). reflexivity.
Defined.

Lemma X23_witness :
  let login_text := ("{" ++ quoted "name" ++ ":" ++ quoted "coder1" ++ "}")%string in
  let st := snd (TestServer.server_run RefJSON.parse RefJSON.stringify toString
                   [TestServer.SData 1 login_text 0] TestServer.server_start) in
  let times := [1500; 3000; 4500; 6000; 7500; 9000; 10500; 12000; 13500; 15000;
                16500; 18000] in
  let st' := snd (TestServer.server_run RefJSON.parse RefJSON.stringify toString
                    (TestServer.ticks 0 times) st) in
  TestServer.s_intervals st = [0%nat] /\
  TestServer.heartbeats (TestServer.s_output st') = 10%nat /\
  TestServer.s_intervals st' = [].
Proof.
  intros login_text st times st'.
  assert (Hi : TestServer.s_intervals st = [0%nat]) by (vm_compute; reflexivity).
  split; [exact Hi|].
  destruct (X23_server_sends_ten_heartbeats RefJSON.parse RefJSON.stringify toString st
              0%nat 1%nat times eq_refl eq_refl Hi eq_refl) as (_ & Hh & Hc).
  split; [exact Hh | exact Hc].
Defined.

Lemma X24_witness :
  let login_text := ("{" ++ quoted "name" ++ ":" ++ quoted "coder1" ++ "}")%string in
  let st := snd (TestServer.server_run RefJSON.parse RefJSON.stringify toString
                   [TestServer.SData 1 login_text 0; TestServer.SData 2 login_text 2000]
                   TestServer.server_start) in
  let evs := (TestServer.ticks 1 [3500; 5000] ++ TestServer.ticks 0 [5100]
              ++ [TestServer.SError 2 (JStr "ECONNRESET") 6000])%list in
  (TestServer.s_intervals st = [0%nat; 1%nat] /\ TestServer.timer st = Some 1%nat) /\
  In 0%nat (TestServer.s_intervals
              (snd (TestServer.server_run RefJSON.parse RefJSON.stringify toString evs st))).
Proof.
  intros login_text st evs.
  assert (Hi : TestServer.s_intervals st = [0%nat; 1%nat]) by (vm_compute; reflexivity).
  assert (Ht : TestServer.timer st = Some 1%nat) by (vm_compute; reflexivity).
  assert (Hn : TestServer.s_next st = 2%nat) by (vm_compute; reflexivity).
  split; [split; assumption|].
  apply (X24_server_leaks_earlier_interval RefJSON.parse RefJSON.stringify toString
           evs st 0%nat).
  - rewrite Hi. left. reflexivity.
  - rewrite Ht. discriminate.
  - rewrite Hn. lia.
Defined.

(** * The application on top of the connection *)

Section ApplicationProperties.

Variable JSON_stringify : jsval -> string.
Variable Number_toString : Z -> string.
Variable show_table : list entry -> string.

Lemma string_of_uint_no_dollar (u : Decimal.uint) :
  has_unit "$" (NilEmpty.string_of_uint u) = false.
Proof. induction u; cbn; auto. Qed.

Lemma toString_no_dollar (n : Z) : has_unit "$" (toString n) = false.
Proof.
  unfold toString, NilZero.string_of_int.
  destruct (Z.to_int n) as [u|u]; unfold NilZero.string_of_uint;
    destruct u; cbn; auto using string_of_uint_no_dollar.
Qed.

Lemma has_unit_app (c : ascii) (a b : string) :
  has_unit c (a ++ b) = has_unit c a || has_unit c b.
Proof.
  induction a as [|d a IH]; [reflexivity|].
  cbn. rewrite IH. apply orb_assoc.
Qed.

(** X25.  What the application sees of a login whose promise is not
    yet settled when its closure is called, the address holding no
    dollar sign.  Called with [null] or [undefined], as by the
    acknowledgment, the closure resolves the promise with
    [{err: null, results: {ip, port, loggedIn: true}}]: the application
    prints where it is logged in and the command list, and prompts.
    Called with an error, as by the sweep, the closure rejects the
    promise with that error before it goes on to [resolve], which then
    does nothing: the application prints that it could not log in and
    the error, and neither prompts nor asks whether to retry. *)
Theorem X25_login_settlement_and_reaction (p : nat) (arg : jsval) (w : world) :
  has_unit "$" (connIp w) = false ->
  has_unit "$" (Number_toString (connPort w)) = false ->
  settlement p (output w) = None ->
  let w' := exec (call JSON_stringify (CbLogin p) arg) w in
  let v := JObj [("err", JNull);
                 ("results", JObj [("ip", JStr (connIp w));
                                   ("port", JNum (connPort w));
                                   ("loggedIn", JBool true)])] in
  let address := (connIp w ++ ":" ++ Number_toString (connPort w))%string in
  let reaction :=
    then_catch (login_then Number_toString)
      (login_catch Number_toString (connIp w') (connPort w')) in
  if is_nullish arg then
    settlement p (output w') = Some (SettledResolve v) /\
    reaction (SettledResolve v)
    = [UI (ConsoleLog ("Logged in to server at " ++ address));
       UI (ConsoleLog "Command list: count, time, quit");
       UI RlPrompt]
  else
    settlement p (output w') = Some (SettledReject arg) /\
    reaction (SettledReject arg)
    = [UI (ConsoleLog ("Could not log in to server at " ++ address));
       UI (ConsoleLogValue arg)].
Proof.
  intros Hip Hport Hnew w' v address reaction.
  assert (Haddr : has_unit "$" address = false).
  { unfold address. rewrite has_unit_app, Hip, has_unit_app, Hport. reflexivity. }
  assert (Hout : output w'
                 = (output w
                    ++ Invoke (CbLogin p) arg
                       :: (if is_nullish arg then [] else [Reject p arg])
                    ++ [Log LogGeneral
                          (JStr ("Logged in to server at IP: " ++ connIp w
                                 ++ ", Port: " ++ toString (connPort w)));
                        Resolve p v])%list
                 /\ connIp w' = connIp w /\ connPort w' = connPort w).
  { unfold w', exec, call, logMsg, emit, bind, read, update, ret.
    destruct (is_nullish arg); cbn; rewrite <- !app_assoc; auto. }
  destruct Hout as (Hout & Hi & Hp).
  unfold reaction. rewrite Hout, Hi, Hp, (settlement_app_none p _ _ Hnew).
  destruct (is_nullish arg); cbn [app settlement]; rewrite ?Nat.eqb_refl;
    (split; [reflexivity|]).
  - unfold then_catch, login_then, v.
    cbn [get_prop assoc String.eqb Ascii.eqb Bool.eqb is_nullish js_String showMsg
         nth_error _MSG MSG_CONNECTIONINFO MSG_COMMANDS _formatMsg _formatMsg_from
         nextCmd app map].
    change ("%" ++ toString (Z.of_nat 0))%string with "%0".
    fold address.
    replace (replace "Logged in to server at %0" "%0" address)
      with ("Logged in to server at " ++ address)%string; [reflexivity|].
    symmetry. etransitivity;
      [exact (replace_plain "Logged in to server at " "" address eq_refl Haddr)|].
    rewrite append_nil_r. reflexivity.
  - unfold then_catch, login_catch, showLoginError. fold address.
    cbn [nth _MSG MSG_CONNECTIONERROR _formatMsg _formatMsg_from map].
    change ("%" ++ toString (Z.of_nat 0))%string with "%0".
    replace (replace "Could not log in to server at %0" "%0" address)
      with ("Could not log in to server at " ++ address)%string; [reflexivity|].
    symmetry. etransitivity;
      [exact (replace_plain "Could not log in to server at " "" address eq_refl Haddr)|].
    rewrite append_nil_r. reflexivity.
Qed.

(** X26.  A response with a [count], no [err] and the key of a pending
    request of [getRequestCount()] whose promise is not yet settled
    resolves that promise with [{count}].  The handler the application
    attached then prints [Message Count: ] followed by the count as the
    platform converts it to a string, and prompts for the next command;
    for a count that has no conversion to a string, an object with a
    key [toString], the conversion throws and the other handler prints
    [Error Processing Command "count"] and the error thrown, and
    prompts. *)
Theorem X26_count_reply_is_printed (w : world) (fs : list (string * jsval))
    (K : string) (p : nat) (t : Z) (pre post : list entry) :
  _pendingReq w = (pre ++ mkEntry K "count" (CbCount p) t :: post)%list ->
  find_index K pre 0 = None ->
  assoc "reply" fs = JStr K ->
  valid_reply (JStr K) = true ->
  is_undefined (assoc "count" fs) = false ->
  is_undefined (assoc "err" fs) || is_null (assoc "err" fs) = true ->
  settlement p (output w) = None ->
  let msg := JObj [("type", JStr "msg"); ("msg", JObj fs)] in
  let w' := exec (_handleServerMsg_step JSON_stringify show_table msg) w in
  let s := SettledResolve (JObj [("count", assoc "count" fs)]) in
  settlement p (output w') = Some s /\
  then_catch (cmdGetRequestCount_then Number_toString) cmdGetRequestCount_catch s
  = match js_String Number_toString (assoc "count" fs) with
    | Ok text => [UI (ConsoleLog ("Message Count: " ++ text)); UI RlPrompt]
    | Throw e =>
        [UI (ConsoleLog ("Error Processing Command " ++ dq ++ "count" ++ dq));
         UI (ConsoleLogValue e);
         UI RlPrompt]
    end.
Proof.
  intros Htbl Hpre Hreply Hvalid Hcount Herr Hnew msg w' s.
  assert (E : _handleServerMsg_step JSON_stringify show_table msg w
              = _handleResponseMsg JSON_stringify "count" "Count" (JObj fs) w).
  { unfold msg. rewrite (_handleServerMsg_step_msg JSON_stringify show_table fs w).
    cbv zeta. rewrite Hcount. reflexivity. }
  rewrite (_handleResponseMsg_delivers JSON_stringify "count" "Count" fs K w pre _ post
             Hreply Hvalid Htbl Hpre eq_refl) in E.
  cbn [reqCallback] in E. rewrite (call_CbCount_valid _ _ _ _ Herr) in E.
  split.
  - unfold w', exec. rewrite E. cbn [snd output set_output set_pendingReq].
    rewrite <- app_assoc, (settlement_app_none p _ _ Hnew).
    cbn [app settlement]. rewrite Nat.eqb_refl. reflexivity.
  - unfold s, then_catch, cmdGetRequestCount_then.
    cbn [get_prop assoc String.eqb Ascii.eqb Bool.eqb].
    destruct (js_String Number_toString (assoc "count" fs)); reflexivity.
Qed.

(** X27.  When the sweep finds at the head of the table a request of
    [getRequestCount()] more than 5000 ms old whose promise is not yet
    settled, the promise is rejected with the timeout error of the row;
    the handler the application attached then prints
    [Error Processing Command "count"] and the error object, and prompts
    for the next command. *)
Theorem X27_timed_out_count_is_reported (timestamp : Z) (w : world)
    (e : entry) (rest : list entry) (p : nat) :
  _pendingReq w = e :: rest ->
  reqCallback e = CbCount p ->
  timestamp - reqTime e > 5000 ->
  settlement p (output w) = None ->
  let w' := exec (_chkPendingReq JSON_stringify timestamp) w in
  settlement p (output w') = Some (SettledReject (timeout_error e)) /\
  then_catch (cmdGetRequestCount_then Number_toString) cmdGetRequestCount_catch
    (SettledReject (timeout_error e))
  = [UI (ConsoleLog ("Error Processing Command " ++ dq ++ "count" ++ dq));
     UI (ConsoleLogValue (timeout_error e));
     UI RlPrompt].
Proof.
  intros Htbl Hcb Hold Hnew. cbv zeta. split; [|reflexivity].
  set (I := fun w0 : world =>
              settlement p (output w0) = Some (SettledReject (timeout_error e))).
  assert (Hvisit : forall x k,
             hoare (fun w0 => I w0 /\ nth_error (_pendingReq w0) k = Some x)
               (_chkPendingReq_visit JSON_stringify timestamp x k) I).
  { intros x k w0 [HI Hn]. unfold exec, _chkPendingReq_visit.
    destruct (timestamp - reqTime x >? 5000); [|exact HI].
    rewrite (bind_ok _ _ _ _ _ (splice1_eq k x w0 Hn)).
    match goal with
    | |- I (snd (call _ ?cb ?v ?W)) =>
        destruct (call_appends JSON_stringify cb v W) as (more & Hmore)
    end.
    unfold exec in Hmore. unfold I. rewrite Hmore.
    apply settlement_app_some. exact HI. }
  unfold exec, _chkPendingReq, forEach.
  rewrite (bind_ok _ _ w w (_pendingReq w)) by reflexivity.
  rewrite Htbl. cbn [List.length forEach_from].
  rewrite (bind_ok _ _ w w (_pendingReq w)) by reflexivity.
  rewrite Htbl. cbn [nth_error].
  assert (Hfirst : exists w1,
             _chkPendingReq_visit JSON_stringify timestamp e 0 w = (Ok tt, w1) /\ I w1).
  { unfold _chkPendingReq_visit.
    replace (timestamp - reqTime e >? 5000) with true
      by (symmetry; apply Z.gtb_lt; lia).
    rewrite (bind_ok _ _ _ _ _ (splice1_eq 0 e w ltac:(rewrite Htbl; reflexivity))).
    rewrite Hcb. unfold call, logError, emit, bind, update, lift, ret. cbn.
    eexists. split; [reflexivity|]. unfold I. cbn [output set_output set_pendingReq].
    rewrite <- !app_assoc, (settlement_app_none p _ _ Hnew).
    cbn [app settlement]. rewrite Nat.eqb_refl. reflexivity. }
  destruct Hfirst as (w1 & E1 & HI1).
  rewrite (bind_ok _ _ _ _ _ E1).
  apply (hoare_forEach_from I _ Hvisit (List.length rest) 1%nat w1 HI1).
Qed.

(** X28.  Called with a response that has no [err], the closure of
    [getTime()] resolves its promise, when not yet settled, with the
    [time] and the [random] field of the response, the second under the
    name [number].  The handler of the application prints both as the
    platform converts them to strings: for a number the text says
    [not greater than 30] exactly when it is at most 30, and a response
    with no [random] is printed as
    [number: undefined is greater than 30].  For a time that has no
    conversion to a string, an object with a key [toString], the other
    handler prints [Error Processing Command "time"] and the error
    thrown.  In every case the application prompts. *)
Theorem X28_time_reply_is_printed (le30 : jsval -> bool)
    (fs : list (string * jsval)) (p : nat) (w : world) :
  (forall n, le30 (JNum n) = (n <=? 30)) ->
  le30 JUndef = false ->
  is_undefined (assoc "err" fs) || is_null (assoc "err" fs) = true ->
  settlement p (output w) = None ->
  let v := JObj [("time", assoc "time" fs); ("number", assoc "random" fs)] in
  let reaction :=
    then_catch (cmdGetTime_then Number_toString le30) cmdGetTime_catch in
  let failed (e : jsval) :=
    [UI (ConsoleLog ("Error Processing Command " ++ dq ++ "time" ++ dq));
     UI (ConsoleLogValue e);
     UI RlPrompt] in
  settlement p (output (exec (call JSON_stringify (CbTime p) (JObj fs)) w))
  = Some (SettledResolve v) /\
  (forall n, assoc "random" fs = JNum n ->
     reaction (SettledResolve v)
     = match js_String Number_toString (assoc "time" fs) with
       | Ok text =>
           [UI (ConsoleLog ("Server time: " ++ text
                            ++ ", number: " ++ Number_toString n ++ " is "
                            ++ (if n <=? 30 then "not " else "")
                            ++ "greater than 30"));
            UI RlPrompt]
       | Throw e => failed e
       end) /\
  (assoc "random" fs = JUndef ->
     reaction (SettledResolve v)
     = match js_String Number_toString (assoc "time" fs) with
       | Ok text =>
           [UI (ConsoleLog ("Server time: " ++ text
                            ++ ", number: undefined is greater than 30"));
            UI RlPrompt]
       | Throw e => failed e
       end).
Proof.
  intros Hnum Hundef Herr Hnew. cbv zeta. split; [|split].
  - unfold exec. rewrite (call_CbTime_valid JSON_stringify p fs w Herr).
    cbn [snd output set_output].
    rewrite <- ?app_assoc, (settlement_app_none p _ _ Hnew).
    cbn [app settlement]. rewrite Nat.eqb_refl. reflexivity.
  - intros n Hn. unfold then_catch, cmdGetTime_then.
    cbn [get_prop assoc String.eqb Ascii.eqb Bool.eqb]. rewrite Hn, Hnum.
    destruct (js_String Number_toString (assoc "time" fs)); reflexivity.
  - intros Hn. unfold then_catch, cmdGetTime_then.
    cbn [get_prop assoc String.eqb Ascii.eqb Bool.eqb]. rewrite Hn, Hundef.
    destruct (js_String Number_toString (assoc "time" fs)); reflexivity.
Qed.

End ApplicationProperties.

Lemma X25_witness :
  let w := exec (login RefJSON.stringify) node in
  let reaction := then_catch (login_then toString) (login_catch toString "127.0.0.1" 3001) in
  let v := JObj [("err", JNull);
                 ("results", JObj [("ip", JStr "127.0.0.1"); ("port", JNum 3001);
                                   ("loggedIn", JBool true)])] in
  let err := JError "Error" "Request timed out" in
  (settlement 0 (output w) = None /\
   settlement 0 (output (exec (call RefJSON.stringify (CbLogin 0) JNull) w))
   = Some (SettledResolve v) /\
   reaction (SettledResolve v)
   = [UI (ConsoleLog "Logged in to server at 127.0.0.1:3001");
      UI (ConsoleLog "Command list: count, time, quit");
      UI RlPrompt]) /\
  (settlement 0 (output (exec (call RefJSON.stringify (CbLogin 0) err) w))
   = Some (SettledReject err) /\
   reaction (SettledReject err)
   = [UI (ConsoleLog "Could not log in to server at 127.0.0.1:3001");
      UI (ConsoleLogValue err)]).
Proof.
  intros w reaction v err.
  assert (Hnew : settlement 0 (output w) = None) by reflexivity.
  assert (Hip : has_unit "$" (connIp w) = false) by reflexivity.
  assert (Hport : has_unit "$" (toString (connPort w)) = false) by reflexivity.
  pose proof (X25_login_settlement_and_reaction RefJSON.stringify toString 0%nat JNull w
                Hip Hport Hnew) as H1.
  pose proof (X25_login_settlement_and_reaction RefJSON.stringify toString 0%nat err w
                Hip Hport Hnew) as H2.
  vm_compute in H1, H2.
  split; [split; [exact Hnew|]|]; vm_compute; [exact H1 | exact H2].
Defined.

Lemma X26_witness :
  let w := exec (run RefJSON.parse RefJSON.stringify show_rows
                   (session_logged_in ++ [CallGetRequestCount 100])) node in
  let reply (count : jsval) :=
    JObj [("type", JStr "msg");
          ("msg", JObj [("count", count); ("reply", JStr "challengecoder1100")])] in
  let reaction := then_catch (cmdGetRequestCount_then toString) cmdGetRequestCount_catch in
  let odd := JObj [("toString", JNum 1)] in
  settlement 3 (output w) = None /\
  (exists s,
     settlement 3 (output (exec (_handleServerMsg_step RefJSON.stringify show_rows
                                   (reply (JNum 23))) w)) = Some s /\
     reaction s = [UI (ConsoleLog "Message Count: 23"); UI RlPrompt]) /\
  (exists s,
     settlement 3 (output (exec (_handleServerMsg_step RefJSON.stringify show_rows
                                   (reply odd)) w)) = Some s /\
     reaction s
     = [UI (ConsoleLog ("Error Processing Command " ++ dq ++ "count" ++ dq));
        UI (ConsoleLogValue (TypeError "Cannot convert object to primitive value"));
        UI RlPrompt]).
Proof.
  intros w reply reaction odd.
  assert (Hnew : settlement 3 (output w) = None) by (vm_compute; reflexivity).
  split; [exact Hnew|]. split.
  - eexists.
    exact (X26_count_reply_is_printed RefJSON.stringify toString show_rows w
             [("count", JNum 23); ("reply", JStr "challengecoder1100")]
             "challengecoder1100" 3%nat 100 [mkEntry "" "welcome" (CbLogin 0) 0] []
             eq_refl eq_refl eq_refl eq_refl eq_refl eq_refl Hnew).
  - eexists.
    exact (X26_count_reply_is_printed RefJSON.stringify toString show_rows w
             [("count", odd); ("reply", JStr "challengecoder1100")]
             "challengecoder1100" 3%nat 100 [mkEntry "" "welcome" (CbLogin 0) 0] []
             eq_refl eq_refl eq_refl eq_refl eq_refl eq_refl Hnew).
Defined.

Lemma X27_witness :
  let w := exec (run RefJSON.parse RefJSON.stringify show_rows
                   [CallLogin 0; SocketData 10 welcome_text;
                    SocketData 6000 heartbeat_text; CallGetRequestCount 6100]) node in
  let e := mkEntry "challengecoder16100" "count" (CbCount 4) 6100 in
  _pendingReq w = [e] /\
  settlement 4 (output (exec (_chkPendingReq RefJSON.stringify 12000) w))
  = Some (SettledReject (timeout_error e)).
Proof.
  intros w e.
  assert (Ht : _pendingReq w = [e]) by (vm_compute; reflexivity).
  assert (Hnew : settlement 4 (output w) = None) by (vm_compute; reflexivity).
  split; [exact Ht|].
  exact (proj1 (X27_timed_out_count_is_reported RefJSON.stringify toString 12000 w e
                  [] 4%nat Ht eq_refl ltac:(cbn; lia) Hnew)).
Defined.

Lemma X28_witness :
  let le30 := fun v => match v with JNum n => n <=? 30 | _ => false end in
  let fs := [("time", JNum 1700000000000); ("random", JNum 17);
             ("reply", JStr "challengecoder1100")] in
  let v := JObj [("time", JNum 1700000000000); ("number", JNum 17)] in
  settlement 0 (output (exec (call RefJSON.stringify (CbTime 0) (JObj fs)) node))
  = Some (SettledResolve v) /\
  then_catch (cmdGetTime_then toString le30) cmdGetTime_catch (SettledResolve v)
  = [UI (ConsoleLog "Server time: 1700000000000, number: 17 is not greater than 30");
     UI RlPrompt].
Proof.
  intros le30 fs v.
  pose proof (X28_time_reply_is_printed RefJSON.stringify toString le30 fs 0%nat node
                (fun n => eq_refl) eq_refl eq_refl eq_refl) as H.
  cbv zeta in H. destruct H as (H1 & H2 & _).
  split; [exact H1 | exact (H2 17 eq_refl)].
Defined.
